(** * The uIP hostname resolver (core/net/resolv.c)

    A shallow embedding of the resolver's name table, of its wire codec
    ([parse_name], [encode_name]), of the query driver ([check_entries]),
    of the response handler ([newdata]) and of the two entry points
    [resolv_query] and [resolv_lookup], followed by the properties
    established about them.

    Conventions.
    - A byte ([u8_t], [char]) is a [Z]; every 8-bit store writes out its
      wrap-around with [mod 256].
    - The datagram handed to [newdata] is a [list Z]; a cursor into it is a
      [nat] offset. The C code never compares a cursor with the length of
      the datagram, so every access goes through [load]/[store], which
      answer [Err OutOfBounds] where the C code would touch memory that is
      not part of the datagram.
    - A [const char *] argument is the list of its characters, without the
      terminating NUL. The character arrays of the program ([name] in
      [struct namemap], [dns_name_without_dots]) are kept as raw arrays, so
      that an unterminated [strncpy] result stays visible. *)

From Stdlib Require Import ZArith Lia String Ascii.
From stdpp Require Import base list.

#[local] Open Scope Z_scope.

(** ** Results of fallible code *)

Inductive error := OutOfBounds | OutOfFuel.

Inductive result (A : Type) := Ok (a : A) | Err (e : error).
Arguments Ok {A} a.
Arguments Err {A} e.

#[global] Instance error_eq_dec : EqDecision error.
Proof. solve_decision. Defined.

#[global] Instance result_eq_dec {A} `{EqDecision A} : EqDecision (result A).
Proof. solve_decision. Defined.

#[global] Instance result_ret : MRet result := fun A a => Ok a.
#[global] Instance result_bind : MBind result := fun A B f m =>
  match m with Ok a => f a | Err e => Err e end.

(** Short-circuit [&&] of two conditions that read memory. *)
Definition and_then (a b : result bool) : result bool :=
  x ← a; if x : bool then b else mret false.

(** ** Memory *)

Definition load (buf : list Z) (p : nat) : result Z :=
  match buf !! p with Some b => Ok b | None => Err OutOfBounds end.

Definition store (buf : list Z) (p : nat) (v : Z) : result (list Z) :=
  if decide (p < length buf)%nat then Ok (<[p:=v]> buf) else Err OutOfBounds.

(** A 16-bit field in network byte order, read as a host number
    ([uip_ntohs(field)]). *)
Definition load16 (buf : list Z) (p : nat) : result Z :=
  hi ← load buf p; lo ← load buf (p + 1)%nat; mret (hi * 256 + lo).

Fixpoint load_bytes (buf : list Z) (p : nat) (n : nat) : result (list Z) :=
  match n with
  | O => mret []
  | S n' => b ← load buf p; bs ← load_bytes buf (S p) n'; mret (b :: bs)
  end.

(** ** C strings *)

Definition cstr (s : string) : list Z :=
  map (fun a => Z.of_N (N_of_ascii a)) (list_ascii_of_string s).

(** The string held by a character array: the characters before the first
    NUL. Without a NUL inside the array the read leaves the array. *)
Fixpoint cstring (arr : list Z) : result (list Z) :=
  match arr with
  | [] => Err OutOfBounds
  | c :: arr' => if c =? 0 then mret [] else s ← cstring arr'; mret (c :: s)
  end.

(** [strcmp(arr, s) == 0] for a character array [arr] and a string [s]:
    the comparison stops at the first difference or at the common NUL. *)
Fixpoint strcmp_eq (arr : list Z) (s : list Z) : result bool :=
  match arr with
  | [] => Err OutOfBounds
  | a :: arr' =>
    match s with
    | [] => mret (a =? 0)
    | c :: s' => if a =? c then strcmp_eq arr' s' else mret false
    end
  end.

(** [strncpy(dst, src, n)]: [n] bytes are written, the string padded with
    NULs when it is shorter and cut, without NUL, when it is not. *)
Definition strncpy (dst : list Z) (src : list Z) (n : nat) : list Z :=
  take n (src ++ replicate n 0) ++ drop n dst.

(** ** Configuration

    The compile-time switches and limits of resolv.c. *)

Record config := {
  RESOLV_CONF_SUPPORTS_MDNS : bool;
  RESOLV_CONF_MAX_RETRIES : Z;
  RESOLV_CONF_MAX_MDNS_RETRIES : Z;
  UIP_CONF_IPV6 : bool;
  UIP_CONF_LOOPBACK_INTERFACE : bool;
}.

Definition RESOLV_CONF_MAX_DOMAIN_NAME_SIZE : nat := 32.

Definition DNS_TYPE_A : Z := 1.
Definition DNS_TYPE_AAAA : Z := 28.
Definition DNS_CLASS_IN : Z := 1.
Definition DNS_PORT : Z := 53.
Definition MDNS_PORT : Z := 5353.
Definition DNS_FLAG1_RD : Z := 1.
Definition DNS_FLAG2_ERR_MASK : Z := 15.

(** ** The name table *)

Inductive nstate :=
  STATE_UNUSED | STATE_NEW | STATE_ASKING | STATE_DONE | STATE_ERROR.

#[global] Instance nstate_eq_dec : EqDecision nstate.
Proof. solve_decision. Defined.

Record namemap := {
  state : nstate;
  tmr : Z;
  retries : Z;
  seqno : Z;
  err : Z;
  is_mdns : bool;
  name : list Z;      (* char name[RESOLV_CONF_MAX_DOMAIN_NAME_SIZE+1] *)
  ipaddr : list Z;    (* uip_ipaddr_t *)
}.

(** What the program tells its collaborators. *)
Inductive event :=
  | resolv_found (nm : list Z) (addr : option (list Z))
  | uip_udp_packet_sendto (data : list Z) (toaddr : list Z) (toport : Z)
  | etimer_set
  | process_post_timer.

(** The static variables of resolv.c. *)
Record resolver := {
  names : list namemap;
  g_seqno : Z;                         (* static u8_t seqno *)
  dns_name_without_dots : list Z;
  resolv_default_dns_server : list Z;
}.

Definition with_names (st : resolver) (l : list namemap) : resolver :=
  {| names := l; g_seqno := g_seqno st;
     dns_name_without_dots := dns_name_without_dots st;
     resolv_default_dns_server := resolv_default_dns_server st |}.

Definition with_scratch (st : resolver) (b : list Z) : resolver :=
  {| names := names st; g_seqno := g_seqno st;
     dns_name_without_dots := b;
     resolv_default_dns_server := resolv_default_dns_server st |}.

Definition pending (e : namemap) : bool :=
  match state e with STATE_NEW | STATE_ASKING => true | _ => false end.

(** ** parse_name

    One turn of the [do ... while] loop per unit of fuel. The inner
    [while(n > 0)] loop only moves the cursor. *)

Fixpoint parse_name_loop (fuel : nat) (buf : list Z) (query : nat)
  : result (list Z * nat) :=
  match fuel with
  | O => Err OutOfFuel
  | S fuel' =>
    n ← load buf query;
    if negb (Z.land n 192 =? 0) then
      buf ← store buf query 0;
      mret (buf, (query + 1 + 1)%nat)
    else
      buf ← store buf query 46;
      let query := (query + 1 + Z.to_nat n)%nat in
      c ← load buf query;
      if negb (c =? 0) then parse_name_loop fuel' buf query
      else mret (buf, (query + 1)%nat)
  end.

Definition parse_name (buf : list Z) (query : nat) : result (list Z * nat) :=
  parse_name_loop (S (length buf)) buf query.

(** ** encode_name

    [lab] collects the label being copied; its length byte is written when
    the label ends. The counter [n] is a [uint8_t]. *)

Fixpoint encode_name_from (s : list Z) (lab : list Z) : list Z :=
  match s with
  | [] => (Z.of_nat (length lab) mod 256 :: lab) ++ [0]
  | c :: s' =>
    if c =? 46 then (Z.of_nat (length lab) mod 256 :: lab) ++ encode_name_from s' []
    else encode_name_from s' (lab ++ [c])
  end.

Definition encode_name (nameptr : list Z) : list Z := encode_name_from nameptr [].

(** ** Field updates of a table entry *)

Definition set_state (s : nstate) (e : namemap) : namemap :=
  {| state := s; tmr := tmr e; retries := retries e; seqno := seqno e;
     err := err e; is_mdns := is_mdns e; name := name e; ipaddr := ipaddr e |}.
Definition set_tmr (v : Z) (e : namemap) : namemap :=
  {| state := state e; tmr := v; retries := retries e; seqno := seqno e;
     err := err e; is_mdns := is_mdns e; name := name e; ipaddr := ipaddr e |}.
Definition set_retries (v : Z) (e : namemap) : namemap :=
  {| state := state e; tmr := tmr e; retries := v; seqno := seqno e;
     err := err e; is_mdns := is_mdns e; name := name e; ipaddr := ipaddr e |}.
Definition set_seqno (v : Z) (e : namemap) : namemap :=
  {| state := state e; tmr := tmr e; retries := retries e; seqno := v;
     err := err e; is_mdns := is_mdns e; name := name e; ipaddr := ipaddr e |}.
Definition set_err (v : Z) (e : namemap) : namemap :=
  {| state := state e; tmr := tmr e; retries := retries e; seqno := seqno e;
     err := v; is_mdns := is_mdns e; name := name e; ipaddr := ipaddr e |}.
Definition set_is_mdns (v : bool) (e : namemap) : namemap :=
  {| state := state e; tmr := tmr e; retries := retries e; seqno := seqno e;
     err := err e; is_mdns := v; name := name e; ipaddr := ipaddr e |}.
Definition set_name (v : list Z) (e : namemap) : namemap :=
  {| state := state e; tmr := tmr e; retries := retries e; seqno := seqno e;
     err := err e; is_mdns := is_mdns e; name := v; ipaddr := ipaddr e |}.
Definition set_ipaddr (v : list Z) (e : namemap) : namemap :=
  {| state := state e; tmr := tmr e; retries := retries e; seqno := seqno e;
     err := err e; is_mdns := is_mdns e; name := name e; ipaddr := v |}.

Section Resolver.

Context (cfg : config).

(** The branch of [newdata] that answers mDNS questions about the host's
    own name (flag bytes both zero) rewrites the datagram into a reply and
    sends it. It reads and writes neither the name table nor the sequence
    counter, and is a parameter of the development: nothing below depends
    on what it sends. *)
Context (mdns_responder : list Z -> result (list event)).

Definition addr_size : nat := if UIP_CONF_IPV6 cfg then 16%nat else 4%nat.

Definition resolv_mdns_addr : list Z :=
  if UIP_CONF_IPV6 cfg
  then [255; 2; 0; 0; 0; 0; 0; 0; 0; 0; 0; 0; 0; 0; 0; 251]
  else [224; 0; 0; 251].

Definition loopback : list Z :=
  if UIP_CONF_IPV6 cfg
  then [0; 0; 0; 0; 0; 0; 0; 0; 0; 0; 0; 0; 0; 0; 0; 1]
  else [127; 0; 0; 1].

(** The zeroed table of [memset(names, 0, sizeof(names))]. *)
Definition unused_entry : namemap :=
  {| state := STATE_UNUSED; tmr := 0; retries := 0; seqno := 0; err := 0;
     is_mdns := false;
     name := replicate (S RESOLV_CONF_MAX_DOMAIN_NAME_SIZE) 0;
     ipaddr := replicate addr_size 0 |}.

Definition resolv_init (entries : nat) (server : list Z) : resolver :=
  {| names := replicate entries unused_entry; g_seqno := 0;
     dns_name_without_dots := replicate (S RESOLV_CONF_MAX_DOMAIN_NAME_SIZE) 0;
     resolv_default_dns_server := server |}.

(** *** The transaction id *)

Definition RESOLV_ENCODE_INDEX (i : Z) : Z := (i + 61616) mod 65536.
Definition RESOLV_DECODE_INDEX (id : Z) : Z := (id - 61616) mod 256.

(** *** check_entries *)

Definition uses_mdns (e : namemap) : bool :=
  RESOLV_CONF_SUPPORTS_MDNS cfg && is_mdns e.

Definition max_retries (e : namemap) : Z :=
  if uses_mdns e then RESOLV_CONF_MAX_MDNS_RETRIES cfg
  else RESOLV_CONF_MAX_RETRIES cfg.

Definition query_type : Z :=
  if UIP_CONF_IPV6 cfg then DNS_TYPE_AAAA else DNS_TYPE_A.

(** The question built in [uip_appdata] for entry [i]. *)
Definition query_packet (i : nat) (e : namemap) : result (list Z) :=
  nm ← cstring (name e);
  let id := RESOLV_ENCODE_INDEX (Z.of_nat i) in
  mret ([id / 256; id mod 256;
         (if uses_mdns e then 0 else DNS_FLAG1_RD); 0;
         0; 1; 0; 0; 0; 0; 0; 0]
        ++ encode_name nm
        ++ [Z.shiftr query_type 8 mod 256; query_type mod 256;
            Z.shiftr DNS_CLASS_IN 8 mod 256; DNS_CLASS_IN mod 256]).

Definition send_query (server : list Z) (i : nat) (e : namemap)
  : result (namemap * list event * bool) :=
  pkt ← query_packet i e;
  mret (e,
        [etimer_set;
         if uses_mdns e then uip_udp_packet_sendto pkt resolv_mdns_addr MDNS_PORT
         else uip_udp_packet_sendto pkt server DNS_PORT],
        true).

(** The body of the [for] loop for entry [i]; the boolean tells whether
    the body ended in [break]. *)
Definition check_entry (server : list Z) (i : nat) (e : namemap)
  : result (namemap * list event * bool) :=
  match state e with
  | STATE_ASKING =>
    let t := (tmr e - 1) mod 256 in
    if t =? 0 then
      let r := (retries e + 1) mod 256 in
      if r =? max_retries e then
        mret (set_state STATE_ERROR (set_retries r (set_tmr t e)),
              [etimer_set; resolv_found (name e) None], false)
      else send_query server i (set_tmr r (set_retries r (set_tmr t e)))
    else mret (set_tmr t e, [etimer_set], false)
  | STATE_NEW =>
    send_query server i (set_retries 0 (set_tmr 1 (set_state STATE_ASKING e)))
  | _ => mret (e, [], false)
  end.

Fixpoint check_entries_from (server : list Z) (i : nat) (l : list namemap)
  : result (list namemap * list event) :=
  match l with
  | [] => mret ([], [])
  | e :: l' =>
    '(e', ev, brk) ← check_entry server i e;
    if brk : bool then mret (e' :: l', ev)
    else
      '(l'', ev') ← check_entries_from server (S i) l';
      mret (e' :: l'', ev ++ ev')
  end.

Definition check_entries (st : resolver) : result (resolver * list event) :=
  '(l, ev) ← check_entries_from (resolv_default_dns_server st) 0 (names st);
  mret (with_names st l, ev).

(** *** newdata *)

(** The name at the head of a question or of an answer record: two bytes
    when its first byte has one of the two top bits set, a walk with
    [parse_name] otherwise. *)
Definition skip_name (buf : list Z) (nameptr : nat) : result (list Z * nat) :=
  b ← load buf nameptr;
  if negb (Z.land b 192 =? 0) then mret (buf, (nameptr + 2)%nat)
  else parse_name buf nameptr.

(** [while(nquestions > 0)]. *)
Fixpoint skip_questions (nquestions : nat) (buf : list Z) (nameptr : nat)
  : result (list Z * nat) :=
  match nquestions with
  | O => mret (buf, nameptr)
  | S n =>
    '(buf, nameptr) ← skip_name buf nameptr;
    skip_questions n buf (nameptr + 4)%nat
  end.

(** The test on an answer record at [ans]. The IPv4 line is
    [ans->type == UIP_HTONS(DNS_TYPE_A) &&
     (uip_ntohs(ans->class)&0x7FFF == DNS_CLASS_IN) &&
     (ans->len == UIP_HTONS(4))], in which [==] binds tighter
    than [&]. *)
Definition answer_usable (buf : list Z) (ans : nat) : result bool :=
  if UIP_CONF_IPV6 cfg then
    and_then (ty ← load16 buf ans; mret (ty =? DNS_TYPE_AAAA))
      (and_then (cl ← load16 buf (ans + 2)%nat;
                 mret (Z.land cl 32767 =? DNS_CLASS_IN))
                (ln ← load16 buf (ans + 8)%nat; mret (ln =? 16)))
  else
    and_then (ty ← load16 buf ans; mret (ty =? DNS_TYPE_A))
      (and_then (cl ← load16 buf (ans + 2)%nat;
                 mret (negb (Z.land cl (Z.b2z (32767 =? DNS_CLASS_IN)) =? 0)))
                (ln ← load16 buf (ans + 8)%nat; mret (ln =? 4))).

(** [while(nanswers > 0)]: the address of the first usable record. *)
Fixpoint scan_answers (nanswers : nat) (buf : list Z) (nameptr : nat)
  : result (option (list Z)) :=
  match nanswers with
  | O => mret None
  | S n =>
    '(buf, ans) ← skip_name buf nameptr;
    ok ← answer_usable buf ans;
    if ok : bool then
      a ← load_bytes buf (ans + 10)%nat addr_size;
      mret (Some a)
    else
      ln ← load16 buf (ans + 8)%nat;
      scan_answers n buf (ans + 10 + Z.to_nat ln)%nat
  end.

Definition newdata (st : resolver) (buf : list Z)
  : result (resolver * list event) :=
  numquestions ← load16 buf 4;
  numanswers ← load16 buf 6;
  let nquestions := numquestions mod 256 in
  let nanswers := numanswers mod 256 in
  flags1 ← load buf 2;
  flags2 ← load buf 3;
  if (flags1 =? 0) && (flags2 =? 0) then
    ev ← mdns_responder buf; mret (st, ev)
  else
    id ← load16 buf 0;
    let i := Z.to_nat (RESOLV_DECODE_INDEX id) in
    match names st !! i with
    | None => mret (st, [])
    | Some e =>
      match state e with
      | STATE_ASKING =>
        if nanswers =? 0 then mret (st, [])
        else
          let e := set_err (Z.land flags2 DNS_FLAG2_ERR_MASK)
                           (set_state STATE_ERROR e) in
          if negb (err e =? 0) then
            mret (with_names st (<[i:=e]> (names st)),
                  [resolv_found (name e) None])
          else
            '(buf, nameptr) ← skip_questions (Z.to_nat nquestions) buf 12;
            found ← scan_answers (Z.to_nat nanswers) buf nameptr;
            match found with
            | Some a =>
              let e := set_ipaddr a (set_state STATE_DONE e) in
              mret (with_names st (<[i:=e]> (names st)),
                    [resolv_found (name e) (Some a)])
            | None => mret (with_names st (<[i:=e]> (names st)), [])
            end
      | _ => mret (st, [])
      end
    end.

(** *** Trailing dots

    [n] is the size given to [strncpy]: the whole array in [resolv_query],
    one less in [resolv_lookup]. *)

Fixpoint strip_dots (len : nat) (buf : list Z) : result (list Z) :=
  match len with
  | O => mret buf
  | S l =>
    c ← load buf l;
    if c =? 46 then strip_dots l (<[l:=0]> buf) else mret buf
  end.

Definition remove_trailing_dots (n : nat) (scratch qname : list Z)
  : result (list Z * list Z) :=
  match last qname with
  | None => Err OutOfBounds
  | Some c =>
    if c =? 46 then
      scratch ← strip_dots (length qname) (strncpy scratch qname n);
      nm ← cstring scratch;
      mret (scratch, nm)
    else mret (scratch, qname)
  end.

(** *** resolv_query *)

(** The search loop: the index of the first entry that is unused or holds
    the name, else the index [lseqi] of the entry whose age
    [seqno - nameptr->seqno], an [int], was the largest. *)
Fixpoint find_entry (g : Z) (nm : list Z) (l : list namemap)
    (i : nat) (lseq : Z) (lseqi : nat) : result nat :=
  match l with
  | [] => mret lseqi
  | e :: l' =>
    hit ← (match state e with
           | STATE_UNUSED => mret true
           | _ => strcmp_eq (name e) nm
           end);
    if hit : bool then mret i
    else if g - seqno e >? lseq
         then find_entry g nm l' (S i) ((g - seqno e) mod 256) i
         else find_entry g nm l' (S i) lseq lseqi
  end.

Definition local_suffix : list Z := cstr "local".

Definition ends_in_local (nm : list Z) : bool :=
  bool_decide (length local_suffix < length nm)%nat
  && bool_decide (drop (length nm - length local_suffix) nm = local_suffix).

Definition resolv_query (st : resolver) (qname : list Z)
  : result (resolver * list event) :=
  '(scratch, nm) ← remove_trailing_dots (S RESOLV_CONF_MAX_DOMAIN_NAME_SIZE)
                     (dns_name_without_dots st) qname;
  i ← find_entry (g_seqno st) nm (names st) 0 0 0;
  match names st !! i with
  | None => Err OutOfBounds
  | Some e =>
    let e := if RESOLV_CONF_SUPPORTS_MDNS cfg
             then set_is_mdns (ends_in_local nm) e else e in
    let e := set_name (strncpy (name e) nm (S RESOLV_CONF_MAX_DOMAIN_NAME_SIZE)) e in
    let e := set_seqno (g_seqno st) (set_state STATE_NEW e) in
    mret ({| names := <[i:=e]> (names st);
             g_seqno := (g_seqno st + 1) mod 256;
             dns_name_without_dots := scratch;
             resolv_default_dns_server := resolv_default_dns_server st |},
          [process_post_timer])
  end.

(** *** resolv_lookup *)

Fixpoint lookup_entry (nm : list Z) (l : list namemap)
  : result (option (list Z)) :=
  match l with
  | [] => mret None
  | e :: l' =>
    hit ← (match state e with
           | STATE_DONE => strcmp_eq (name e) nm
           | _ => mret false
           end);
    if hit : bool then mret (Some (ipaddr e)) else lookup_entry nm l'
  end.

(** [if(strcmp(name,"localhost"))] holds when the two strings differ. *)
Definition resolv_lookup (st : resolver) (qname : list Z)
  : result (resolver * option (list Z)) :=
  '(scratch, nm) ← remove_trailing_dots RESOLV_CONF_MAX_DOMAIN_NAME_SIZE
                     (dns_name_without_dots st) qname;
  let st := with_scratch st scratch in
  if UIP_CONF_LOOPBACK_INTERFACE cfg && negb (bool_decide (nm = cstr "localhost"))
  then mret (st, Some loopback)
  else
    r ← lookup_entry nm (names st);
    mret (st, r).

End Resolver.

(** * The mDNS responder, the host name and the process

    The rest of resolv.c: the branch of [newdata] that answers questions
    about the host's own name, [resolv_set_hostname], [resolv_conf],
    [resolv_getserver] and the event loop of [resolv_process].

    [encode_name] is called there with both of its pointers into
    [uip_appdata], so it is given once more, on memory. *)

Definition DNS_TYPE_ANY : Z := 255.
Definition DNS_FLAG1_RESPONSE : Z := 128.
Definition DNS_FLAG1_AUTHORATIVE : Z := 4.

(** ** Memory, continued *)

(** A 16-bit field written in network byte order. *)
Definition store16 (buf : list Z) (p : nat) (v : Z) : result (list Z) :=
  buf ← store buf p (v / 256 mod 256); store buf (p + 1)%nat (v mod 256).

Fixpoint store_bytes (buf : list Z) (p : nat) (bs : list Z)
  : result (list Z) :=
  match bs with
  | [] => mret buf
  | b :: bs' => buf ← store buf p b; store_bytes buf (S p) bs'
  end.

(** ** encode_name on memory

    The [for] loop copies one label from [nameptr] to [query] and counts
    it in [n], a [uint8_t]. *)
Fixpoint encode_label (fuel : nat) (buf : list Z) (query nameptr : nat) (n : Z)
  : result (list Z * nat * nat * Z) :=
  match fuel with
  | O => Err OutOfFuel
  | S fuel' =>
    c ← load buf nameptr;
    if negb (c =? 46) && negb (c =? 0) then
      buf ← store buf query c;
      encode_label fuel' buf (query + 1)%nat (nameptr + 1)%nat ((n + 1) mod 256)
    else mret (buf, query, nameptr, n)
  end.

(** One turn of the [do ... while] loop per unit of fuel; [nameptr] is the
    pointer after the [++nameptr] that opens the turn. *)
Fixpoint encode_name_loop (fuel : nat) (buf : list Z) (query nameptr : nat)
  : result (list Z * nat) :=
  match fuel with
  | O => Err OutOfFuel
  | S fuel' =>
    let nptr := query in
    '(buf, query, nameptr, n) ←
      encode_label (S (length buf)) buf (query + 1)%nat nameptr 0;
    buf ← store buf nptr n;
    c ← load buf nameptr;
    if negb (c =? 0) then encode_name_loop fuel' buf query (nameptr + 1)%nat
    else
      buf ← store buf query 0;
      mret (buf, (query + 1)%nat)
  end.

(** [encode_name(query, nameptr)]: the [--nameptr] before the loop and the
    [++nameptr] of its first turn cancel. *)
Definition encode_name_at (buf : list Z) (query nameptr : nat)
  : result (list Z * nat) :=
  encode_name_loop (S (length buf)) buf query nameptr.

(** ** Comparisons without case *)

Definition tolower (c : Z) : Z :=
  if (65 <=? c) && (c <=? 90) then c + 32 else c.

(** [strncasecmp(s1, buf + p, strlen(s1)) == 0], [s1] being the characters
    of a string: the comparison stops at the first difference. *)
Fixpoint strncasecmp_eq (s1 : list Z) (buf : list Z) (p : nat) : result bool :=
  match s1 with
  | [] => mret true
  | c :: s1' =>
    b ← load buf p;
    if tolower c =? tolower b then strncasecmp_eq s1' buf (S p)
    else mret false
  end.

(** [strcasecmp(buf + p, s2) == 0], [s2] being the characters of a string
    literal. *)
Fixpoint strcasecmp_eq (buf : list Z) (p : nat) (s2 : list Z) : result bool :=
  match s2 with
  | [] => b ← load buf p; mret (tolower b =? 0)
  | c :: s2' =>
    b ← load buf p;
    if tolower b =? tolower c then strcasecmp_eq buf (S p) s2'
    else mret false
  end.

(** ** The responder *)

(** The switches of the responder, and what it uses of the stack: the
    address of the host ([uip_hostaddr], read by [uip_gethostaddr]) in the
    IPv4 build, the address list of the interface
    ([uip_ds6_if.addr_list], one pair of [isused] and [ipaddr] per entry)
    in the IPv6 build, the source of the datagram as [UIP_UDP_BUF] has
    it, and the packet buffer: [uip_appdata] points into [uip_buf], so
    the received datagram is followed by the rest of that buffer,
    [uip_buf_rest], up to its size [UIP_BUFSIZE]. *)
Record responder := {
  RESOLV_CONF_MDNS_RESPONDER : bool;
  RESOLV_CONF_MDNS_INCLUDE_GLOBAL_V6_ADDRS : bool;
  resolv_hostname : list Z;  (* char resolv_hostname[RESOLV_CONF_MAX_DOMAIN_NAME_SIZE+1] *)
  uip_hostaddr : list Z;
  uip_ds6_addr_list : list (bool * list Z);
  srcport : Z;
  srcipaddr : list Z;
  uip_buf_rest : list Z;
}.

Section Responder.

Context (cfg : config).

(** [uip_is_addr_link_local], a macro of uip.h. *)
Context (uip_is_addr_link_local : list Z -> bool).

Context (r : responder).

(** The test that lets a question through: its class is IN, the top bit
    aside, and its type is ANY or the address type of the build. The class
    is read first. *)
Definition question_asked (buf : list Z) (question : nat) : result bool :=
  cl ← load16 buf (question + 2)%nat;
  if negb (Z.land cl 32767 =? DNS_CLASS_IN) then mret false
  else
    ty ← load16 buf question;
    if negb (ty =? DNS_TYPE_ANY) then mret (ty =? query_type cfg)
    else mret true.

(** The fields of [struct dns_answer] written at [ans], and the address
    copied behind them. *)
Definition write_answer (buf : list Z) (ans : nat) (addr : list Z)
  : result (list Z * nat) :=
  buf ← store16 buf ans (query_type cfg);
  buf ← store16 buf (ans + 2)%nat (Z.lor DNS_CLASS_IN 32768);
  buf ← store16 buf (ans + 4)%nat 0;
  buf ← store16 buf (ans + 6)%nat 120;
  buf ← store16 buf (ans + 8)%nat (Z.of_nat (addr_size cfg));
  buf ← store_bytes buf (ans + 10)%nat addr;
  mret (buf, (ans + 10 + addr_size cfg)%nat).

(** The loop over the addresses of the interface, in the IPv6 build: the
    first answer carries the name, the following ones a pointer to it.
    [acount] is a [uint8_t]. *)
Fixpoint answer_addresses (l : list (bool * list Z)) (buf : list Z)
    (nameptr name : nat) (acount : Z) : result (list Z * nat * Z) :=
  match l with
  | [] => mret (buf, nameptr, acount)
  | (isused, ipaddr) :: l' =>
    if isused && (RESOLV_CONF_MDNS_INCLUDE_GLOBAL_V6_ADDRS r
                  || uip_is_addr_link_local ipaddr)
    then
      '(buf, nameptr) ←
        (if acount =? 0 then encode_name_at buf nameptr name
         else
           buf ← store buf nameptr 192;
           buf ← store buf (nameptr + 1)%nat 12;
           mret (buf, (nameptr + 2)%nat));
      '(buf, nameptr) ← write_answer buf nameptr ipaddr;
      answer_addresses l' buf nameptr name ((acount + 1) mod 256)
    else answer_addresses l' buf nameptr name acount
  end.

(** The datagram is turned into the answer where it lies, in the packet
    buffer: the answer is written over the request and, where it is
    longer, over the bytes of [uip_buf] that follow the request; a write
    behind the end of [uip_buf] is out of bounds. What has been written is
    sent: to the mDNS group when the question came from the mDNS port, to
    its sender otherwise. *)
Definition send_answer (buf : list Z) (name : nat) : result (list event) :=
  let buf := buf ++ uip_buf_rest r in
  flags1 ← load buf 2;
  buf ← store buf 2 (Z.lor flags1 (Z.lor DNS_FLAG1_RESPONSE DNS_FLAG1_AUTHORATIVE));
  buf ← store16 buf 4 0;
  buf ← store16 buf 8 0;
  buf ← store16 buf 10 0;
  '(buf, nameptr) ←
    (if UIP_CONF_IPV6 cfg then
       '(buf, nameptr, acount) ←
         answer_addresses (uip_ds6_addr_list r) buf 12 name 0;
       buf ← store16 buf 6 acount;
       mret (buf, nameptr)
     else
       buf ← store16 buf 6 1;
       '(buf, nameptr) ← encode_name_at buf 12 name;
       write_answer buf nameptr (uip_hostaddr r));
  mret [uip_udp_packet_sendto (take nameptr buf)
          (if srcport r =? MDNS_PORT then resolv_mdns_addr cfg
           else srcipaddr r)
          (srcport r)].

(** [while(nquestions > 0)] of the request branch. [name] is the text of
    the last name that was not compressed, a null pointer before the first
    one: comparing it then reads outside of the datagram. *)
Fixpoint answer_questions (nquestions : nat) (buf : list Z) (nameptr : nat)
    (name : option nat) : result (list event) :=
  match nquestions with
  | O => mret []
  | S n =>
    b ← load buf nameptr;
    '(buf, nameptr, name) ←
      (if negb (Z.land b 192 =? 0) then mret (buf, (nameptr + 2)%nat, name)
       else
         '(buf, p) ← parse_name buf nameptr;
         mret (buf, p, Some (nameptr + 1)%nat));
    let question := nameptr in
    let nameptr := (nameptr + 4)%nat in
    asked ← question_asked buf question;
    if negb asked then answer_questions n buf nameptr name
    else
      host ← cstring (resolv_hostname r);
      name' ← (match name with Some p => mret p | None => Err OutOfBounds end);
      same ← strncasecmp_eq host buf name';
      if negb same then answer_questions n buf nameptr name
      else
        local ← strcasecmp_eq buf (name' + length host)%nat (cstr ".local");
        if negb local then answer_questions n buf nameptr name
        else send_answer buf name'
  end.

(** The request branch of [newdata]: what the parameter [mdns_responder]
    of [newdata] stands for. *)
Definition answer_request (buf : list Z) : result (list event) :=
  if RESOLV_CONF_MDNS_RESPONDER r then
    numquestions ← load16 buf 4;
    numanswers ← load16 buf 6;
    let nquestions := numquestions mod 256 in
    let nanswers := numanswers mod 256 in
    if nquestions =? 0 then mret []
    else if negb (nanswers =? 0) then mret []
    else answer_questions (Z.to_nat nquestions) buf 12 None
  else mret [].

End Responder.

(** ** The host name and the server *)

Definition CONTIKI_CONF_DEFAULT_HOSTNAME : list Z := cstr "contiki".

(** What the process is sent, and what the functions below post to it. *)
Inductive process_event :=
  | PROCESS_EVENT_TIMER
  | tcpip_event
  | RESOLV_EVENT_START_COLLISION_CHECK
  | EVENT_NEW_SERVER.

(** The static [resolv_hostname] as the program starts. *)
Definition initial_hostname : list Z :=
  strncpy (replicate (S RESOLV_CONF_MAX_DOMAIN_NAME_SIZE) 0)
          CONTIKI_CONF_DEFAULT_HOSTNAME (S RESOLV_CONF_MAX_DOMAIN_NAME_SIZE).

Definition resolv_set_hostname (r : responder) (hostname : list Z)
  : responder * list process_event :=
  ({| RESOLV_CONF_MDNS_RESPONDER := RESOLV_CONF_MDNS_RESPONDER r;
      RESOLV_CONF_MDNS_INCLUDE_GLOBAL_V6_ADDRS :=
        RESOLV_CONF_MDNS_INCLUDE_GLOBAL_V6_ADDRS r;
      resolv_hostname :=
        strncpy (resolv_hostname r) hostname RESOLV_CONF_MAX_DOMAIN_NAME_SIZE;
      uip_hostaddr := uip_hostaddr r;
      uip_ds6_addr_list := uip_ds6_addr_list r;
      srcport := srcport r;
      srcipaddr := srcipaddr r;
      uip_buf_rest := uip_buf_rest r |},
   [RESOLV_EVENT_START_COLLISION_CHECK]).

Definition resolv_get_hostname (r : responder) : list Z := resolv_hostname r.

(** [resolv_conn] is null until the process has started. *)
Definition resolv_getserver (resolv_conn : bool) (st : resolver)
  : option (list Z) :=
  if resolv_conn then Some (resolv_default_dns_server st) else None.

Definition resolv_conf (st : resolver) (dnsserver : list Z)
  : resolver * list process_event :=
  ({| names := names st; g_seqno := g_seqno st;
      dns_name_without_dots := dns_name_without_dots st;
      resolv_default_dns_server := dnsserver |},
   [EVENT_NEW_SERVER]).

(** ** The process

    What the event loop finds in the stack when it is woken up:
    [uip_appdata] (null, or the data area of the packet buffer), whether
    [uip_udp_conn] is the connection of the resolver, and the flags behind
    [uip_newdata()] and [uip_poll()]. *)
Record uip := {
  uip_appdata : option (list Z);
  uip_udp_conn_is_resolv_conn : bool;
  uip_newdata : bool;
  uip_poll : bool;
}.

(** What the process does to the outside. *)
Inductive action :=
  | emit (e : event)
  | tcpip_poll_udp.

Section Process.

Context (cfg : config).
Context (uip_is_addr_link_local : list Z -> bool).

(** [PROCESS_BEGIN]: the table is cleared and, with the responder, the
    check of the host name is asked for. *)
Definition resolv_process_begin (entries : nat) (server : list Z)
    (r : responder) : resolver * list process_event :=
  (resolv_init cfg entries server,
   if RESOLV_CONF_MDNS_RESPONDER r then [RESOLV_EVENT_START_COLLISION_CHECK]
   else []).

(** One turn of the [while(1)] loop, for the event [ev]. *)
Definition resolv_process_event (r : responder) (ev : process_event) (u : uip)
    (st : resolver) : result (resolver * list action) :=
  match ev with
  | PROCESS_EVENT_TIMER =>
    mret (st, match uip_appdata u with
              | Some _ => [tcpip_poll_udp]
              | None => []
              end)
  | tcpip_event =>
    if uip_udp_conn_is_resolv_conn u then
      '(st, ev1) ←
        (if uip_newdata u then
           buf ← (match uip_appdata u with
                  | Some buf => mret buf
                  | None => Err OutOfBounds
                  end);
           newdata cfg (answer_request cfg uip_is_addr_link_local r) st buf
         else mret (st, []));
      '(st, ev2) ← (if uip_poll u then check_entries cfg st else mret (st, []));
      mret (st, map emit (ev1 ++ ev2))
    else mret (st, [])
  | RESOLV_EVENT_START_COLLISION_CHECK =>
    if RESOLV_CONF_MDNS_RESPONDER r then
      host ← cstring (resolv_hostname r);
      '(st, ev) ← resolv_query cfg st (host ++ cstr ".local.");
      mret (st, map emit ev)
    else mret (st, [])
  | EVENT_NEW_SERVER => mret (st, [])
  end.

End Process.

(** * Vocabulary of the statements *)

(** ** Names, questions and answers as they lie in a datagram *)

(** A label is not empty and shorter than 64 bytes; its length byte then
    has both top bits clear. *)
Definition label_ok (l : list Z) : Prop := l <> [] /\ (length l < 64)%nat.

Definition wire_labels (ls : list (list Z)) : list Z :=
  concat (map (fun l => Z.of_nat (length l) :: l) ls).

(** The same labels, each length byte replaced by a dot. *)
Definition dotted (ls : list (list Z)) : list Z :=
  concat (map (fun l => 46 :: l) ls).

(** The text of the name: the labels joined by dots. *)
Fixpoint join_dots (ls : list (list Z)) : list Z :=
  match ls with
  | [] => []
  | [l] => l
  | l :: ls' => l ++ 46 :: join_dots ls'
  end.

(** A name is a run of labels closed by a zero byte or by a two-byte
    pointer. *)
Record wire_name := { labels : list (list Z); pointer : option (Z * Z) }.

Definition name_bytes (n : wire_name) : list Z :=
  wire_labels (labels n)
  ++ match pointer n with Some (p, q) => [p; q] | None => [0] end.

Definition name_ok (n : wire_name) : Prop :=
  Forall label_ok (labels n) /\
  match pointer n with
  | Some (p, _) => Z.land p 192 <> 0
  | None => labels n <> []
  end.

(** The bytes of the name once [skip_name] has gone over it. *)
Definition name_skipped (n : wire_name) : list Z :=
  match pointer n with
  | Some (p, q) =>
    match labels n with [] => [p; q] | ls => dotted ls ++ [0; q] end
  | None => dotted (labels n) ++ [0]
  end.

Definition be16 (v : Z) : list Z := [v / 256; v mod 256].

Record question := { q_name : wire_name; q_fixed : list Z }.

Definition question_bytes (q : question) : list Z :=
  name_bytes (q_name q) ++ q_fixed q.

Definition question_skipped (q : question) : list Z :=
  name_skipped (q_name q) ++ q_fixed q.

Definition question_ok (q : question) : Prop :=
  name_ok (q_name q) /\ length (q_fixed q) = 4%nat.

Record answer := {
  a_name : wire_name;
  a_type : Z;
  a_class : Z;
  a_ttl : list Z;
  a_rdata : list Z;
}.

(** The ten bytes of [struct dns_answer] before [ipaddr]. *)
Definition answer_fixed (a : answer) : list Z :=
  be16 (a_type a) ++ be16 (a_class a) ++ a_ttl a
  ++ be16 (Z.of_nat (length (a_rdata a))).

Definition answer_bytes (a : answer) : list Z :=
  name_bytes (a_name a) ++ answer_fixed a ++ a_rdata a.

Definition answer_ok (a : answer) : Prop :=
  name_ok (a_name a) /\ length (a_ttl a) = 4%nat.

(** [struct dns_hdr]. *)
Record dns_hdr := {
  h_id : Z;
  h_flags1 : Z;
  h_flags2 : Z;
  h_numquestions : Z;
  h_numanswers : Z;
  h_numauthrr : Z;
  h_numextrarr : Z;
}.

Definition hdr_bytes (h : dns_hdr) : list Z :=
  be16 (h_id h) ++ [h_flags1 h; h_flags2 h] ++ be16 (h_numquestions h)
  ++ be16 (h_numanswers h) ++ be16 (h_numauthrr h) ++ be16 (h_numextrarr h).

(** A datagram in which every declared question and answer is present in
    full; [rest] stands for the authority and additional sections. *)
Definition message (h : dns_hdr) (qs : list question) (ans : list answer)
    (rest : list Z) : list Z :=
  hdr_bytes h ++ concat (map question_bytes qs)
  ++ concat (map answer_bytes ans) ++ rest.

(** The record test of [answer_usable], on the fields of a record. *)
Definition usable_record (cfg : config) (a : answer) : bool :=
  if UIP_CONF_IPV6 cfg then
    (a_type a =? DNS_TYPE_AAAA)
    && (Z.land (a_class a) 32767 =? DNS_CLASS_IN)
    && (Z.of_nat (length (a_rdata a)) =? 16)
  else
    (a_type a =? DNS_TYPE_A)
    && negb (Z.land (a_class a) (Z.b2z (32767 =? DNS_CLASS_IN)) =? 0)
    && (Z.of_nat (length (a_rdata a)) =? 4).

Fixpoint first_usable (cfg : config) (l : list answer) : option (list Z) :=
  match l with
  | [] => None
  | a :: l' =>
    if usable_record cfg a then Some (a_rdata a) else first_usable cfg l'
  end.

(** ** Counting what was emitted *)

Fixpoint count_if {A} (f : A -> bool) (l : list A) : nat :=
  match l with
  | [] => O
  | x :: l' => ((if f x then 1 else 0) + count_if f l')%nat
  end.

Definition is_sendto (ev : event) : bool :=
  match ev with uip_udp_packet_sendto _ _ _ => true | _ => false end.

(** A question whose transaction id is the one of entry [i]. *)
Definition is_query_of (i : nat) (ev : event) : bool :=
  match ev with
  | uip_udp_packet_sendto (hi :: lo :: _) _ _ =>
    hi * 256 + lo =? RESOLV_ENCODE_INDEX (Z.of_nat i)
  | _ => false
  end.

(** The notification of a failed resolution of [nm]: a null address. *)
Definition is_failure (nm : list Z) (ev : event) : bool :=
  match ev with
  | resolv_found nm' None => bool_decide (nm' = nm)
  | _ => false
  end.

(** ** Runs *)

Section Runs.

Context (cfg : config) (mdns_responder : list Z -> result (list event)).

(** [n] timer ticks in a row, no datagram arriving in between. *)
Fixpoint ticks (n : nat) (st : resolver) : result (resolver * list event) :=
  match n with
  | O => mret (st, [])
  | S n' =>
    '(st1, ev1) ← check_entries cfg st;
    '(st2, ev2) ← ticks n' st1;
    mret (st2, ev1 ++ ev2)
  end.

(** What may happen between two calls of [resolv_query]: ticks, datagrams
    and lookups, in any order. *)
Inductive driver_steps : resolver -> resolver -> Prop :=
  | driver_refl st : driver_steps st st
  | driver_tick st st1 ev st2 :
      check_entries cfg st = Ok (st1, ev) ->
      driver_steps st1 st2 -> driver_steps st st2
  | driver_data st buf st1 ev st2 :
      newdata cfg mdns_responder st buf = Ok (st1, ev) ->
      driver_steps st1 st2 -> driver_steps st st2
  | driver_lookup st qname st1 r st2 :
      resolv_lookup cfg st qname = Ok (st1, r) ->
      driver_steps st1 st2 -> driver_steps st st2.

(** The entry that a scan sends a question for. *)
Definition sends_query (e : namemap) : bool :=
  match state e with
  | STATE_NEW => true
  | STATE_ASKING =>
    ((tmr e - 1) mod 256 =? 0)
    && negb ((retries e + 1) mod 256 =? max_retries cfg e)
  | _ => false
  end.

(** No entry in front of entry [k] is one that the scan sends a question
    for. *)
Definition no_sender_before (l : list namemap) (k : nat) : Prop :=
  forall j e, (j < k)%nat -> l !! j = Some e -> sends_query e = false.

(** ** Well-formed tables *)

Definition config_ok : bool :=
  (1 <=? RESOLV_CONF_MAX_RETRIES cfg) && (RESOLV_CONF_MAX_RETRIES cfg <=? 255)
  && (1 <=? RESOLV_CONF_MAX_MDNS_RETRIES cfg)
  && (RESOLV_CONF_MAX_MDNS_RETRIES cfg <=? 255).

(** An entry being asked holds a running timer and has retries left:
    [check_entries] never leaves an entry otherwise. *)
Definition sane (e : namemap) : bool :=
  match state e with
  | STATE_ASKING =>
    (1 <=? tmr e) && (tmr e <=? 255)
    && (0 <=? retries e) && (retries e <? max_retries cfg e)
  | _ => true
  end.

Definition terminated (e : namemap) : bool :=
  match cstring (name e) with Ok _ => true | Err _ => false end.

Definition table_ok (l : list namemap) : bool :=
  forallb sane l && forallb terminated l && bool_decide (length l <= 255)%nat.

(** No entry of [l] that a scan acts on carries the name [nm]: an entry
    of [l] with that name is neither new nor being asked. *)
Definition other_entry (nm : list Z) (e : namemap) : bool :=
  negb (bool_decide (name e = nm)) || negb (pending e).

Definition other_names (nm : list Z) (l : list namemap) : bool :=
  forallb (other_entry nm) l.

(** The number of scans an entry still takes part in. *)
Fixpoint tri (n : nat) : nat :=
  match n with O => O | S m => (n + tri m)%nat end.

Definition entry_cost (e : namemap) : nat :=
  match state e with
  | STATE_NEW => (2 + tri (Z.to_nat (max_retries cfg e) - 1))%nat
  | STATE_ASKING =>
    (Z.to_nat (tmr e) + tri (Z.to_nat (max_retries cfg e) - 1)
     - tri (Z.to_nat (retries e)))%nat
  | _ => O
  end.

Fixpoint table_cost (l : list namemap) : nat :=
  match l with
  | [] => O
  | e :: l' => (entry_cost e + table_cost l')%nat
  end.

(** What an entry on its way from STATE_NEW to STATE_ERROR has caused so
    far: failures announced and questions sent. *)
Definition announced (e : namemap) : nat :=
  match state e with STATE_ERROR => 1%nat | _ => O end.

Definition asked (e : namemap) : nat :=
  match state e with
  | STATE_ASKING => S (Z.to_nat (retries e))
  | STATE_ERROR => Z.to_nat (retries e)
  | _ => O
  end.

Definition on_course (e : namemap) : bool :=
  match state e with
  | STATE_NEW | STATE_ASKING => true
  | STATE_ERROR => retries e =? max_retries cfg e
  | _ => false
  end.

(** What one turn of the loop of [check_entries] does to a well-formed
    entry. *)
Record step_facts (i : nat) (e e' : namemap) (ev : list event) (brk : bool) : Prop := {
  sf_sane : sane e' = true;
  sf_name : name e' = name e;
  sf_mdns : is_mdns e' = is_mdns e;
  sf_cost : pending e = true -> entry_cost e = S (entry_cost e');
  sf_idle : pending e = false -> e' = e /\ ev = [] /\ brk = false;
  sf_fail_other : forall nm, name e <> nm -> count_if (is_failure nm) ev = O;
  sf_query_other : forall j, (j < 256)%nat -> j <> i -> count_if (is_query_of j) ev = O;
  sf_course : on_course e = true -> on_course e' = true;
  sf_announced : on_course e = true ->
     (announced e + count_if (is_failure (name e)) ev)%nat = announced e';
  sf_asked : on_course e = true ->
     (asked e + count_if (is_query_of i) ev)%nat = asked e';
}.

(** ** The search of [resolv_query] *)

(** An entry that the search passes over. *)
Definition passed (nm : list Z) (e : namemap) : Prop :=
  state e <> STATE_UNUSED /\ strcmp_eq (name e) nm = Ok false.

(** An entry that holds the name. *)
Definition holds (nm : list Z) (e : namemap) : Prop :=
  state e <> STATE_UNUSED /\ strcmp_eq (name e) nm = Ok true.

(** What ticks, datagrams and lookups keep of an entry. *)
Definition kept (e e' : namemap) : Prop :=
  name e' = name e /\ is_mdns e' = is_mdns e
  /\ (state e <> STATE_UNUSED -> state e' <> STATE_UNUSED)
  /\ (state e = STATE_UNUSED -> state e' = STATE_UNUSED).

(** ** Names given to [resolv_query] and [resolv_lookup] *)

(** The address held for [nm]: that of the first entry in STATE_DONE whose
    name is [nm]. *)
Fixpoint cached (nm : list Z) (l : list namemap) : option (list Z) :=
  match l with
  | [] => None
  | e :: l' =>
    match state e with
    | STATE_DONE =>
      if bool_decide (cstring (name e) = Ok nm) then Some (ipaddr e)
      else cached nm l'
    | _ => cached nm l'
    end
  end.


Definition valid_name (n : list Z) : bool :=
  negb (bool_decide (n = []))
  && bool_decide (length n <= RESOLV_CONF_MAX_DOMAIN_NAME_SIZE)%nat
  && forallb (fun c => negb (c =? 0)) n.

(** ** Reachable states *)

(** The name array of an entry after [strncpy]: the name, then NUL
    characters up to the size of the array. *)
Definition canonical (nm : list Z) : list Z :=
  nm ++ replicate (S RESOLV_CONF_MAX_DOMAIN_NAME_SIZE - length nm) 0.

Definition stored_name (e : namemap) : Prop :=
  exists s, name e = canonical s
            /\ (length s <= RESOLV_CONF_MAX_DOMAIN_NAME_SIZE)%nat
            /\ Forall (fun c => c <> 0) s.

(** The states of the resolver: [resolv_init], then queries, ticks,
    datagrams and lookups in any order. *)
Inductive reachable : resolver -> Prop :=
  | reach_init entries server :
      (entries <= 255)%nat -> reachable (resolv_init cfg entries server)
  | reach_query st qname st' ev :
      reachable st -> valid_name qname = true ->
      resolv_query cfg st qname = Ok (st', ev) -> reachable st'
  | reach_tick st st' ev :
      reachable st -> check_entries cfg st = Ok (st', ev) -> reachable st'
  | reach_data st buf st' ev :
      reachable st -> newdata cfg mdns_responder st buf = Ok (st', ev) ->
      reachable st'
  | reach_lookup st qname st' r :
      reachable st -> resolv_lookup cfg st qname = Ok (st', r) -> reachable st'.

(** What every reachable table satisfies: the unused entries are at the
    end and hold the empty name, no two entries in use hold the same name,
    every name array is a stored name. *)
Record table_inv (l : list namemap) : Prop := {
  inv_suffix : forall i j e e', (i < j)%nat -> l !! i = Some e -> l !! j = Some e' ->
     state e = STATE_UNUSED -> state e' = STATE_UNUSED;
  inv_zero : forall i e, l !! i = Some e -> state e = STATE_UNUSED ->
     name e = canonical [];
  inv_distinct : forall i j e e', l !! i = Some e -> l !! j = Some e' ->
     state e <> STATE_UNUSED -> state e' <> STATE_UNUSED ->
     name e = name e' -> i = j;
  inv_stored : Forall stored_name l;
  inv_sane : forallb sane l = true;
  inv_length : (length l <= 255)%nat;
}.

End Runs.


(** ** Vocabulary of the further properties *)

(** The labels of a name: the runs of characters between its dots. *)
Fixpoint split_dots (s : list Z) : list (list Z) :=
  match s with
  | [] => [[]]
  | c :: s' =>
    if c =? 46 then [] :: split_dots s'
    else match split_dots s' with
         | l :: ls => (c :: l) :: ls
         | [] => [[c]]
         end
  end.


(** No entry of the table is new or being asked. *)
Definition quiet (l : list namemap) : bool :=
  forallb (fun e => negb (pending e)) l.

(** What a scan of [check_entries] may do to an entry. *)
Definition scanned (e e' : namemap) : Prop :=
  e' = e
  \/ (name e' = name e /\ seqno e' = seqno e /\ err e' = err e
      /\ is_mdns e' = is_mdns e /\ ipaddr e' = ipaddr e
      /\ ((state e = STATE_NEW /\ state e' = STATE_ASKING)
          \/ (state e = STATE_ASKING
              /\ (state e' = STATE_ASKING \/ state e' = STATE_ERROR)))).

(** What a scan may emit: the timer, a datagram, a failure. *)
Definition scan_event (ev : event) : bool :=
  match ev with
  | etimer_set | uip_udp_packet_sendto _ _ _ | resolv_found _ None => true
  | _ => false
  end.

(** The header and the question of the datagram sent for entry [i]. *)
Definition query_hdr (cfg : config) (i : nat) (e : namemap) : dns_hdr :=
  {| h_id := RESOLV_ENCODE_INDEX (Z.of_nat i);
     h_flags1 := if uses_mdns cfg e then 0 else DNS_FLAG1_RD;
     h_flags2 := 0; h_numquestions := 1; h_numanswers := 0;
     h_numauthrr := 0; h_numextrarr := 0 |}.

Definition query_question (cfg : config) (s : list Z) : question :=
  {| q_name := {| labels := split_dots s; pointer := None |};
     q_fixed := be16 (query_type cfg) ++ be16 DNS_CLASS_IN |}.

(** What a response may do to the entry it is for. *)
Definition answered (e e' : namemap) : Prop :=
  e' = e
  \/ (state e = STATE_ASKING
      /\ (state e' = STATE_DONE \/ state e' = STATE_ERROR)
      /\ name e' = name e /\ seqno e' = seqno e /\ tmr e' = tmr e
      /\ retries e' = retries e /\ is_mdns e' = is_mdns e).

(** The entry that [resolv_query] writes over [e] for the name [nm], the
    sequence counter being [g]. *)
Definition queried_entry (cfg : config) (nm : list Z) (g : Z) (e : namemap)
  : namemap :=
  let e := if RESOLV_CONF_SUPPORTS_MDNS cfg
           then set_is_mdns (ends_in_local nm) e else e in
  set_seqno g
    (set_state STATE_NEW
       (set_name (strncpy (name e) nm (S RESOLV_CONF_MAX_DOMAIN_NAME_SIZE)) e)).

(** A label as [encode_name] sees it: no dot and no NUL inside. *)
Definition plain_label (l : list Z) : Prop :=
  Forall (fun c => c <> 46 /\ c <> 0) l.

(** The answer record that the responder writes for the address [addr]. *)
Definition own_answer (cfg : config) (n : wire_name) (addr : list Z) : answer :=
  {| a_name := n; a_type := query_type cfg;
     a_class := Z.lor DNS_CLASS_IN 32768;
     a_ttl := [0; 0; 0; 120]; a_rdata := addr |}.

(** The header of the request [h] once turned into that of an answer with
    [n] records. *)
Definition answer_hdr (h : dns_hdr) (n : Z) : dns_hdr :=
  {| h_id := h_id h;
     h_flags1 := Z.lor (h_flags1 h)
                   (Z.lor DNS_FLAG1_RESPONSE DNS_FLAG1_AUTHORATIVE);
     h_flags2 := h_flags2 h; h_numquestions := 0; h_numanswers := n;
     h_numauthrr := 0; h_numextrarr := 0 |}.

(** Two strings that differ in case at most. *)
Definition same_nocase (s t : list Z) : Prop := map tolower s = map tolower t.

(** A question with a name of its own, the type [ty] and the class [cl]. *)
Definition plain_question (ls : list (list Z)) (ty cl : Z) : question :=
  {| q_name := {| labels := ls; pointer := None |};
     q_fixed := be16 ty ++ be16 cl |}.

(** Where the answer goes: to the mDNS group when the request came from
    the mDNS port, to the sender otherwise. *)
Definition answer_to (cfg : config) (r : responder) : list Z :=
  if srcport r =? MDNS_PORT then resolv_mdns_addr cfg else srcipaddr r.

#[global] Instance same_nocase_dec s t : Decision (same_nocase s t).
Proof. unfold same_nocase. apply _. Defined.

(** A question for an address of the class IN: the test of
    [question_asked] on the type and the class. *)
Definition asks_address (cfg : config) (ty cl : Z) : bool :=
  (Z.land cl 32767 =? DNS_CLASS_IN)
  && ((ty =? DNS_TYPE_ANY) || (ty =? query_type cfg)).

(** A question that the host [hn] answers: one for an address of the name
    [hn ++ ".local"], in any case of the letters. *)
Definition asks_for (cfg : config) (hn : list Z) (q : list (list Z) * Z * Z)
  : Prop :=
  asks_address cfg q.1.2 q.2 = true
  /\ same_nocase (join_dots q.1.1) (hn ++ cstr ".local").


(** A question as the responder can walk it. *)
Definition walkable (q : list (list Z) * Z * Z) : Prop :=
  q.1.1 <> [] /\ Forall label_ok q.1.1 /\ Forall plain_label q.1.1.

(** The addresses of the interface that the responder announces. *)
Fixpoint own_addresses (uip_is_addr_link_local : list Z -> bool)
    (r : responder) (l : list (bool * list Z)) : list (list Z) :=
  match l with
  | [] => []
  | (isused, ipaddr) :: l' =>
    if isused && (RESOLV_CONF_MDNS_INCLUDE_GLOBAL_V6_ADDRS r
                  || uip_is_addr_link_local ipaddr)
    then ipaddr :: own_addresses uip_is_addr_link_local r l'
    else own_addresses uip_is_addr_link_local r l'
  end.

(** The name of the second and the following answers: a pointer to the
    name of the first. *)
Definition name_pointer : wire_name :=
  {| labels := []; pointer := Some (192, 12) |}.

(** The answers for the name [ls] and the addresses [addrs]. *)
Definition own_answers (cfg : config) (ls : list (list Z))
    (addrs : list (list Z)) : list answer :=
  match addrs with
  | [] => []
  | a :: rest =>
    own_answer cfg {| labels := ls; pointer := None |} a
    :: map (own_answer cfg name_pointer) rest
  end.

(** The host name after a run of calls of [resolv_set_hostname]. *)
Definition set_hostnames (r : responder) (hs : list (list Z)) : responder :=
  fold_left (fun r h => (resolv_set_hostname r h).1) hs r.

(** An array of the size of [resolv_hostname] whose last byte is NUL. *)
Definition closed_array (arr : list Z) : Prop :=
  length arr = S RESOLV_CONF_MAX_DOMAIN_NAME_SIZE
  /\ arr !! RESOLV_CONF_MAX_DOMAIN_NAME_SIZE = Some 0.

(** The stack as a poll of the connection of the resolver finds it. *)
Definition polled (buf : list Z) : uip :=
  {| uip_appdata := Some buf; uip_udp_conn_is_resolv_conn := true;
     uip_newdata := false; uip_poll := true |}.

(** * Sample configurations, tables and datagrams *)

Definition ipv4_config : config :=
  {| RESOLV_CONF_SUPPORTS_MDNS := true;
     RESOLV_CONF_MAX_RETRIES := 8;
     RESOLV_CONF_MAX_MDNS_RETRIES := 3;
     UIP_CONF_IPV6 := false;
     UIP_CONF_LOOPBACK_INTERFACE := false |}.

Definition ipv6_config : config :=
  {| RESOLV_CONF_SUPPORTS_MDNS := true;
     RESOLV_CONF_MAX_RETRIES := 8;
     RESOLV_CONF_MAX_MDNS_RETRIES := 3;
     UIP_CONF_IPV6 := true;
     UIP_CONF_LOOPBACK_INTERFACE := false |}.

Definition loopback_config : config :=
  {| RESOLV_CONF_SUPPORTS_MDNS := true;
     RESOLV_CONF_MAX_RETRIES := 8;
     RESOLV_CONF_MAX_MDNS_RETRIES := 3;
     UIP_CONF_IPV6 := false;
     UIP_CONF_LOOPBACK_INTERFACE := true |}.

(** [RESOLV_CONF_MDNS_RESPONDER] switched off: requests are ignored. *)
Definition no_responder (buf : list Z) : result (list event) := Ok [].

Definition dns_server : list Z := [8; 8; 8; 8].

(** A table of four entries, as after [PROCESS_BEGIN]. *)
Definition fresh (cfg : config) : resolver := resolv_init cfg 4 dns_server.

Definition name_array (s : string) : list Z :=
  strncpy (replicate (S RESOLV_CONF_MAX_DOMAIN_NAME_SIZE) 0) (cstr s)
          (S RESOLV_CONF_MAX_DOMAIN_NAME_SIZE).

Definition entry (cfg : config) (s : nstate) (t r sq : Z) (nm : string)
  : namemap :=
  {| state := s; tmr := t; retries := r; seqno := sq; err := 0;
     is_mdns := false; name := name_array nm;
     ipaddr := replicate (addr_size cfg) 0 |}.

Definition table (l : list namemap) (g : Z) : resolver :=
  {| names := l; g_seqno := g;
     dns_name_without_dots := replicate (S RESOLV_CONF_MAX_DOMAIN_NAME_SIZE) 0;
     resolv_default_dns_server := dns_server |}.

(** "host.example" queried and asked once: entry 0 awaits the response
    carrying the id 61616. *)
Definition asking (cfg : config) : resolver :=
  table (entry cfg STATE_ASKING 1 0 0 "host.example"
         :: replicate 3 (unused_entry cfg)) 1.

Definition response_hdr (id flags2 answers : Z) : dns_hdr :=
  {| h_id := id; h_flags1 := 129; h_flags2 := flags2;
     h_numquestions := 1; h_numanswers := answers;
     h_numauthrr := 0; h_numextrarr := 0 |}.

Definition host_question (qtype : Z) : question :=
  {| q_name := {| labels := [cstr "host"; cstr "example"]; pointer := None |};
     q_fixed := [0; qtype; 0; 1] |}.

(** Answer records whose name is a pointer to the question. *)
Definition a_record : answer :=
  {| a_name := {| labels := []; pointer := Some (192, 12) |};
     a_type := DNS_TYPE_A; a_class := DNS_CLASS_IN;
     a_ttl := [0; 0; 0; 60]; a_rdata := [192; 0; 2; 1] |}.

Definition aaaa_record : answer :=
  {| a_name := {| labels := []; pointer := Some (192, 12) |};
     a_type := DNS_TYPE_AAAA; a_class := DNS_CLASS_IN;
     a_ttl := [0; 0; 0; 60];
     a_rdata := [32; 1; 13; 184; 0; 0; 0; 0; 0; 0; 0; 0; 0; 0; 0; 1] |}.

Definition cname_record : answer :=
  {| a_name := {| labels := []; pointer := Some (192, 12) |};
     a_type := 5; a_class := DNS_CLASS_IN;
     a_ttl := [0; 0; 0; 60];
     a_rdata := wire_labels [cstr "www"] ++ [192; 12] |}.

Definition a_response : list Z :=
  message (response_hdr 61616 128 1) [host_question 1] [a_record] [].

Definition aaaa_response : list Z :=
  message (response_hdr 61616 128 2) [host_question 28]
          [cname_record; aaaa_record] [].


(** A "no such name" response under the id 61616 + 256. *)
Definition foreign_response : list Z :=
  message (response_hdr 61872 131 1) [host_question 1] [a_record] [].



(** An id that decodes to 7, past the four entries. *)
Definition stray_response : list Z :=
  message (response_hdr 61623 128 1) [host_question 1] [a_record] [].

(** "host.example" queried, not yet asked. *)
Definition queried (cfg : config) : resolver :=
  table (entry cfg STATE_NEW 0 0 0 "host.example"
         :: replicate 3 (unused_entry cfg)) 1.

Definition mdns_entry (cfg : config) (s : nstate) (t r sq : Z) (nm : string)
  : namemap :=
  {| state := s; tmr := t; retries := r; seqno := sq; err := 0;
     is_mdns := true; name := name_array nm;
     ipaddr := replicate (addr_size cfg) 0 |}.

(** One entry waiting for its timer, one just queried. *)
Definition two_pending (cfg : config) : resolver :=
  table [entry cfg STATE_ASKING 2 2 0 "a.example";
         mdns_entry cfg STATE_NEW 0 0 1 "printer.local";
         unused_entry cfg; unused_entry cfg] 2.

Definition two_pending_scanned : resolver * list event :=
  Eval vm_compute in
    match check_entries ipv4_config (two_pending ipv4_config) with
    | Ok r => r
    | Err _ => (two_pending ipv4_config, [])
    end.

(** A resolved entry. *)
Definition resolved (cfg : config) : resolver :=
  table ({| state := STATE_DONE; tmr := 1; retries := 0; seqno := 0; err := 0;
            is_mdns := false; name := name_array "host.example";
            ipaddr := [192; 0; 2; 1] |}
         :: replicate 3 (unused_entry cfg)) 1.

(** The names "h000", "h001", ... *)
Definition host_number (k : nat) : list Z :=
  [104; 48 + Z.of_nat k / 100 mod 10; 48 + Z.of_nat k / 10 mod 10;
   48 + Z.of_nat k mod 10].

Definition hosts (first count : nat) : list (list Z) :=
  map host_number (seq first count).

Fixpoint queries (cfg : config) (l : list (list Z)) (st : resolver)
  : result resolver :=
  match l with
  | [] => mret st
  | n :: l' => '(st, _) ← resolv_query cfg st n; queries cfg l' st
  end.

(** The name and the sequence number held by each entry. *)
Definition slots (st : resolver) : list (result (list Z) * Z) :=
  map (fun e => (cstring (name e), seqno e)) (names st).

(** ** Further samples *)

(** A response that holds an alias and no address. *)
Definition cname_response : list Z :=
  message (response_hdr 61616 128 1) [host_question 1] [cname_record] [].

(** "host.example" resolved by [aaaa_response]. *)
Definition found (cfg : config) : resolver :=
  table (set_ipaddr (a_rdata aaaa_record)
           (set_state STATE_DONE (entry cfg STATE_ASKING 1 0 0 "host.example"))
         :: replicate 3 (unused_entry cfg)) 1.

Ltac forall_list := repeat first [apply Forall_nil_2 | apply Forall_cons_2].

(** [uip_is_addr_link_local]: the address starts with fe80. *)
Definition is_link_local (a : list Z) : bool :=
  bool_decide (take 2 a = [254; 128]).

Definition link_local_address (k : Z) : list Z :=
  [254; 128; 0; 0; 0; 0; 0; 0; 0; 0; 0; 0; 0; 0; 0; k].

Definition global_address : list Z :=
  [32; 1; 13; 184; 0; 0; 0; 0; 0; 0; 0; 0; 0; 0; 0; 1].

(** A host named "contiki" with the responder, asked from the mDNS port;
    a hundred bytes of the packet buffer follow the datagram. *)
Definition host : responder :=
  {| RESOLV_CONF_MDNS_RESPONDER := true;
     RESOLV_CONF_MDNS_INCLUDE_GLOBAL_V6_ADDRS := false;
     resolv_hostname := initial_hostname;
     uip_hostaddr := [192; 168; 1; 2];
     uip_ds6_addr_list :=
       [(true, link_local_address 1); (true, global_address);
        (false, link_local_address 2); (true, link_local_address 3)];
     srcport := MDNS_PORT;
     srcipaddr := [192; 168; 1; 9];
     uip_buf_rest := replicate 100 0 |}.

(** The same host under a name of 27 characters. *)
Definition long_named_host : responder :=
  (resolv_set_hostname host (cstr "abcdefghijklmnopqrstuvwxyz0")).1.

(** The header of a request with one question. *)
Definition request_hdr : dns_hdr :=
  {| h_id := 7; h_flags1 := 0; h_flags2 := 0; h_numquestions := 1;
     h_numanswers := 0; h_numauthrr := 0; h_numextrarr := 0 |}.

(** "contiki.local" asked and awaiting its answer. *)
Definition asking_own (cfg : config) : resolver :=
  table (mdns_entry cfg STATE_ASKING 1 0 0 "contiki.local"
         :: replicate 3 (unused_entry cfg)) 1.

(** * Properties *)

(** ** Tactics and memory lemmas *)

#[local] Set Default Proof Using "Type".

Ltac len :=
  repeat first [rewrite length_app in * | rewrite length_insert in *
               | progress cbn [length] in *];
  try lia.

Ltac run := cbn [mbind result_bind mret result_ret].

Ltac bools :=
  rewrite ?andb_true_iff, ?negb_true_iff, ?Z.leb_le, ?Z.ltb_lt, ?Z.eqb_eq,
    ?Z.eqb_neq in *.

Lemma load_middle pre x post : load (pre ++ x :: post) (length pre) = Ok x.
Proof. unfold load. by rewrite list_lookup_middle. Qed.

Lemma store_middle pre x post v :
  store (pre ++ x :: post) (length pre) v = Ok (pre ++ v :: post).
Proof.
  unfold store. rewrite decide_True by len.
  f_equal. rewrite insert_app_r_alt by lia. by rewrite Nat.sub_diag.
Qed.

Lemma store_length buf p v buf' : store buf p v = Ok buf' -> length buf' = length buf.
Proof.
  unfold store. destruct (decide _); [|done]. intros [= <-]. apply length_insert.
Qed.

Lemma load_in_bounds buf p v : load buf p = Ok v -> (p < length buf)%nat.
Proof.
  unfold load. destruct (buf !! p) eqn:H; [|done]. intros _.
  by eapply lookup_lt_Some.
Qed.

Lemma load_err buf p e : load buf p = Err e -> e = OutOfBounds.
Proof. unfold load. destruct (buf !! p); congruence. Qed.

Lemma store_err buf p v e : store buf p v = Err e -> e = OutOfBounds.
Proof. unfold store. destruct (decide _); congruence. Qed.

Lemma load_app_r pre l k : load (pre ++ l) (length pre + k) = load l k.
Proof.
  unfold load. rewrite lookup_app_r by lia.
  by replace (length pre + k - length pre)%nat with k by lia.
Qed.

Lemma load16_app_r pre l k : load16 (pre ++ l) (length pre + k) = load16 l k.
Proof. unfold load16. by rewrite <- Nat.add_assoc, !load_app_r. Qed.

Lemma load16_app_0 pre l : load16 (pre ++ l) (length pre) = load16 l 0.
Proof. rewrite <- (Nat.add_0_r (length pre)). apply load16_app_r. Qed.

Lemma load16_S x l k : load16 (x :: l) (S k) = load16 l k.
Proof. done. Qed.

Lemma load16_O a b l : load16 (a :: b :: l) 0 = Ok (a * 256 + b).
Proof. done. Qed.

Lemma load_bytes_app_r pre l k n :
  load_bytes (pre ++ l) (length pre + k) n = load_bytes l k n.
Proof.
  revert k. induction n as [|n IH]; intros k; [done|].
  cbn [load_bytes]. rewrite load_app_r.
  replace (S (length pre + k)) with (length pre + S k)%nat by lia.
  by rewrite IH.
Qed.

Lemma load_bytes_prefix bs post : load_bytes (bs ++ post) 0 (length bs) = Ok bs.
Proof.
  induction bs as [|b bs IH]; [done|].
  cbn [load_bytes length app].
  change (load (b :: bs ++ post) 0) with (Ok b). run.
  change (b :: bs ++ post) with ([b] ++ (bs ++ post)).
  change 1%nat with (length [b] + 0)%nat. by rewrite load_bytes_app_r, IH.
Qed.

Lemma be16_value v : v / 256 * 256 + v mod 256 = v.
Proof. pose proof (Z.div_mod v 256). lia. Qed.

Lemma land_192_small n : 0 <= n < 64 -> Z.land n 192 = 0.
Proof.
  intros H. rewrite <- (Z.mod_small n (2 ^ 6)) by lia.
  rewrite <- Z.land_ones by lia. rewrite <- Z.land_assoc.
  change (Z.land (Z.ones 6) 192) with 0. apply Z.land_0_r.
Qed.

(** ** parse_name *)

(** The fuel handed to the loop by [parse_name] never runs out: every turn
    moves the cursor forward and reads inside the buffer. *)
Lemma parse_name_loop_fuel fuel : forall buf query,
  (length buf < fuel + query)%nat -> (0 < fuel)%nat ->
  parse_name_loop fuel buf query <> Err OutOfFuel.
Proof.
  induction fuel as [|fuel IH]; intros buf query Hf Hpos; [lia|].
  - cbn [parse_name_loop].
    destruct (load buf query) as [n|e] eqn:Hn; run;
      [|by apply load_err in Hn as ->].
    destruct (negb (Z.land n 192 =? 0)).
    + destruct (store buf query 0) as [b|e] eqn:Hs; run; [done|].
      by apply store_err in Hs as ->.
    + destruct (store buf query 46) as [b|e] eqn:Hs; run;
        [|by apply store_err in Hs as ->].
      destruct (load b _) as [c|e] eqn:Hc; run;
        [|by apply load_err in Hc as ->].
      destruct (negb (c =? 0)); [|done].
      apply load_in_bounds in Hc. apply store_length in Hs.
      apply IH; lia.
Qed.

Lemma parse_name_fuel buf query : parse_name buf query <> Err OutOfFuel.
Proof. apply parse_name_loop_fuel; lia. Qed.

Lemma length_wire_dotted ls : length (dotted ls) = length (wire_labels ls).
Proof.
  induction ls as [|l ls IH]; [done|].
  unfold dotted, wire_labels in *. cbn [map concat]. len.
Qed.

Lemma length_wire_ge ls :
  Forall label_ok ls -> (length ls <= length (wire_labels ls))%nat.
Proof.
  induction 1 as [|l ls _ _ IH]; [done|].
  unfold wire_labels in *. cbn [map concat]. len.
Qed.

Lemma load_wire_head pre l ls post :
  load (pre ++ wire_labels (l :: ls) ++ post) (length pre)
  = Ok (Z.of_nat (length l)).
Proof.
  change (wire_labels (l :: ls) ++ post)
    with (Z.of_nat (length l) :: (l ++ wire_labels ls) ++ post).
  apply load_middle.
Qed.

(** What follows a label is not a zero byte when it is another label or a
    pointer. *)
Lemma wire_labels_next ls p post :
  Forall label_ok ls -> Z.land p 192 <> 0 ->
  exists c rest, wire_labels ls ++ p :: post = c :: rest /\ c <> 0.
Proof.
  intros Hls Hp. destruct ls as [|l ls].
  - exists p, post. split; [done|]. intros ->. by apply Hp.
  - inversion Hls as [|? ? [Hne _] _]; subst. eexists _, _. split; [done|].
    destruct l; [done|]. cbn [length]. lia.
Qed.

(** The walk over labels closed by a pointer. *)
Lemma parse_name_loop_pointer ls : forall fuel pre p post,
  Forall label_ok ls -> Z.land p 192 <> 0 -> (length ls < fuel)%nat ->
  parse_name_loop fuel (pre ++ wire_labels ls ++ p :: post) (length pre)
  = Ok (pre ++ dotted ls ++ 0 :: post,
        (length pre + length (wire_labels ls) + 2)%nat).
Proof.
  induction ls as [|l ls IH]; intros fuel pre p post Hls Hp Hf.
  - destruct fuel as [|fuel]; [len|].
    cbn [parse_name_loop wire_labels dotted map concat app].
    rewrite load_middle. run.
    destruct (Z.eqb_spec (Z.land p 192) 0); [done|]. cbn [negb].
    rewrite store_middle. run. do 2 f_equal. len.
  - destruct fuel as [|fuel]; [len|].
    inversion Hls as [|? ? [Hne Hlt] Hls']; subst.
    cbn [parse_name_loop]. rewrite load_wire_head. run.
    rewrite land_192_small by lia. cbn [Z.eqb negb].
    cbn [wire_labels dotted map concat].
    fold (wire_labels ls). fold (dotted ls).
    rewrite <- !app_assoc. cbn [app].
    rewrite store_middle. run. rewrite Nat2Z.id.
    replace (length pre + 1 + length l)%nat
      with (length (pre ++ 46 :: l)) by len.
    replace (pre ++ 46 :: l ++ wire_labels ls ++ p :: post)
      with ((pre ++ 46 :: l) ++ wire_labels ls ++ p :: post)
      by (by rewrite <- app_assoc).
    destruct (wire_labels_next ls p post Hls' Hp) as (c & rest & Hc & Hc0).
    rewrite Hc at 1. rewrite load_middle. run.
    destruct (Z.eqb_spec c 0); [done|]. cbn [negb].
    rewrite IH; [|done|done|len].
    rewrite <- !app_assoc. cbn [app]. do 2 f_equal. len.
Qed.

(** The walk over labels closed by a zero byte. *)
Lemma parse_name_loop_labels ls : forall fuel pre post,
  Forall label_ok ls -> ls <> [] -> (length ls <= fuel)%nat ->
  parse_name_loop fuel (pre ++ wire_labels ls ++ 0 :: post) (length pre)
  = Ok (pre ++ dotted ls ++ 0 :: post,
        (length pre + length (wire_labels ls) + 1)%nat).
Proof.
  induction ls as [|l ls IH]; intros fuel pre post Hls Hnil Hf; [done|].
  destruct fuel as [|fuel]; [len|].
  inversion Hls as [|? ? [Hne Hlt] Hls']; subst.
  cbn [parse_name_loop]. rewrite load_wire_head. run.
  rewrite land_192_small by lia. cbn [Z.eqb negb].
  cbn [wire_labels dotted map concat].
  fold (wire_labels ls). fold (dotted ls).
  rewrite <- !app_assoc. cbn [app].
  rewrite store_middle. run. rewrite Nat2Z.id.
  replace (length pre + 1 + length l)%nat with (length (pre ++ 46 :: l)) by len.
  replace (pre ++ 46 :: l ++ wire_labels ls ++ 0 :: post)
    with ((pre ++ 46 :: l) ++ wire_labels ls ++ 0 :: post)
    by (by rewrite <- app_assoc).
  destruct ls as [|l' ls'].
  - cbn [wire_labels dotted map concat app]. rewrite load_middle.
    cbn [mbind result_bind Z.eqb negb mret result_ret].
    rewrite <- !app_assoc. cbn [app]. do 2 f_equal. len.
  - inversion Hls' as [|? ? [Hne' Hlt'] _]; subst.
    rewrite load_wire_head. run.
    destruct (Z.eqb_spec (Z.of_nat (length l')) 0) as [H0|_];
      [destruct l'; [done|len]|].
    cbn [negb]. rewrite IH; [|done|done|len].
    rewrite <- !app_assoc. cbn [app]. do 2 f_equal. len.
Qed.

Lemma parse_name_pointer ls pre p post :
  Forall label_ok ls -> Z.land p 192 <> 0 ->
  parse_name (pre ++ wire_labels ls ++ p :: post) (length pre)
  = Ok (pre ++ dotted ls ++ 0 :: post,
        (length pre + length (wire_labels ls) + 2)%nat).
Proof.
  intros Hls Hp. apply parse_name_loop_pointer; [done|done|].
  pose proof (length_wire_ge _ Hls). len.
Qed.

Lemma parse_name_labels ls pre post :
  Forall label_ok ls -> ls <> [] ->
  parse_name (pre ++ wire_labels ls ++ 0 :: post) (length pre)
  = Ok (pre ++ dotted ls ++ 0 :: post,
        (length pre + length (wire_labels ls) + 1)%nat).
Proof.
  intros Hls Hnil. apply parse_name_loop_labels; [done|done|].
  pose proof (length_wire_ge _ Hls). len.
Qed.

(** ** skip_name *)

Lemma skip_name_pointer_first pre p post :
  Z.land p 192 <> 0 ->
  skip_name (pre ++ p :: post) (length pre)
  = Ok (pre ++ p :: post, (length pre + 2)%nat).
Proof.
  intros Hp. unfold skip_name. rewrite load_middle. run.
  by destruct (Z.eqb_spec (Z.land p 192) 0).
Qed.

Lemma skip_name_labels l ls pre post :
  label_ok l ->
  skip_name (pre ++ wire_labels (l :: ls) ++ post) (length pre)
  = parse_name (pre ++ wire_labels (l :: ls) ++ post) (length pre).
Proof.
  intros [_ Hlt]. unfold skip_name. rewrite load_wire_head. run.
  by rewrite land_192_small by lia.
Qed.

Lemma length_name_skipped n : length (name_skipped n) = length (name_bytes n).
Proof.
  unfold name_skipped, name_bytes.
  destruct n as [ls [[p q]|]]; cbn [labels pointer].
  - destruct ls; [done|]. by rewrite !length_app, length_wire_dotted.
  - by rewrite !length_app, length_wire_dotted.
Qed.

Lemma skip_name_layout n pre post :
  name_ok n ->
  skip_name (pre ++ name_bytes n ++ post) (length pre)
  = Ok (pre ++ name_skipped n ++ post,
        (length pre + length (name_bytes n))%nat).
Proof.
  intros [Hls Hp]. unfold name_bytes, name_skipped.
  destruct n as [ls [[p q]|]]; cbn [labels pointer] in *.
  - destruct ls as [|l ls].
    + cbn [wire_labels map concat app]. by rewrite skip_name_pointer_first.
    + rewrite <- !app_assoc, skip_name_labels by (by inversion Hls).
      cbn [app]. rewrite parse_name_pointer by done.
      rewrite <- ?app_assoc. cbn [app]. do 2 f_equal. len.
  - destruct ls as [|l ls]; [done|].
    rewrite <- !app_assoc, skip_name_labels by (by inversion Hls).
    cbn [app]. rewrite parse_name_labels by done.
    rewrite <- ?app_assoc. cbn [app]. do 2 f_equal. len.
Qed.

(** ** The text left behind by parse_name *)

Lemma cstring_prefix s rest :
  Forall (fun c => c <> 0) s -> cstring (s ++ 0 :: rest) = Ok s.
Proof.
  induction 1 as [|c s Hc _ IH]; [done|].
  cbn [app cstring]. destruct (Z.eqb_spec c 0); [done|]. by rewrite IH.
Qed.

Lemma dotted_join ls : ls <> [] -> dotted ls = 46 :: join_dots ls.
Proof.
  induction ls as [|l ls IH]; [done|]. intros _.
  destruct ls as [|l' ls'].
  - unfold dotted. cbn [map concat join_dots]. by rewrite app_nil_r.
  - unfold dotted in *. cbn [map concat join_dots] in *.
    by rewrite IH.
Qed.

Lemma join_dots_nonzero ls :
  Forall (Forall (fun c => c <> 0)) ls -> Forall (fun c => c <> 0) (join_dots ls).
Proof.
  induction 1 as [|l ls Hl _ IH]; [done|].
  destruct ls as [|l' ls']; [done|].
  cbn [join_dots] in *. apply Forall_app. split; [done|].
  by apply Forall_cons.
Qed.

Lemma text_after_parse ls pre post :
  ls <> [] -> Forall (Forall (fun c => c <> 0)) ls ->
  cstring (drop (S (length pre)) (pre ++ dotted ls ++ 0 :: post))
  = Ok (join_dots ls).
Proof.
  intros Hnil Hnz. rewrite dotted_join by done. cbn [app].
  rewrite (cons_middle 46), app_assoc.
  replace (S (length pre)) with (length (pre ++ [46])) by len.
  rewrite drop_app_length. by apply cstring_prefix, join_dots_nonzero.
Qed.

(** C9. A byte with both top bits set, met at the start of a name or after
    some of its labels, ends the skipping of the name two bytes further:
    the cursor returned is the offset of that byte plus two, whatever the
    pointer's second byte and the rest of the datagram hold (even when
    they are absent), both in [parse_name] and in the test that [newdata]
    makes before calling it; a name field that is only a pointer is
    skipped in exactly two bytes. *)
Theorem pointer_skipped_in_two_bytes ls p pre post :
  Forall label_ok ls -> Z.land p 192 = 192 ->
  parse_name (pre ++ wire_labels ls ++ p :: post) (length pre)
  = Ok (pre ++ dotted ls ++ 0 :: post,
        (length pre + length (wire_labels ls) + 2)%nat)
  /\ skip_name (pre ++ wire_labels ls ++ p :: post) (length pre)
     = Ok (match ls with
           | [] => pre ++ p :: post
           | _ => pre ++ dotted ls ++ 0 :: post
           end,
           (length pre + length (wire_labels ls) + 2)%nat)
  /\ skip_name (pre ++ p :: post) (length pre)
     = Ok (pre ++ p :: post, (length pre + 2)%nat).
Proof.
  intros Hls Hp. assert (Hp0 : Z.land p 192 <> 0) by (rewrite Hp; lia).
  split; [by apply parse_name_pointer|].
  split; [|by apply skip_name_pointer_first].
  destruct ls as [|l ls].
  - cbn [wire_labels map concat app length].
    rewrite skip_name_pointer_first by done. do 2 f_equal. lia.
  - rewrite skip_name_labels by (by inversion Hls).
    by apply parse_name_pointer.
Qed.


(** ** newdata *)

Section Response.

Context (cfg : config) (mdns_responder : list Z -> result (list event)).

Lemma usable_record_length a :
  usable_record cfg a = true -> length (a_rdata a) = addr_size cfg.
Proof.
  unfold usable_record, addr_size. destruct (UIP_CONF_IPV6 cfg);
    rewrite !andb_true_iff; intros [_ H%Z.eqb_eq]; lia.
Qed.

Lemma length_answer_fixed a :
  length (a_ttl a) = 4%nat -> length (answer_fixed a) = 10%nat.
Proof. unfold answer_fixed, be16. len. Qed.

Lemma answer_usable_layout a pre post :
  length (a_ttl a) = 4%nat ->
  answer_usable cfg (pre ++ answer_fixed a ++ post) (length pre)
  = Ok (usable_record cfg a).
Proof.
  intros Httl. unfold answer_fixed.
  destruct (a_ttl a) as [|t1 [|t2 [|t3 [|t4 [|]]]]]; try done.
  unfold answer_usable, usable_record, and_then, be16. cbn [app].
  rewrite load16_app_0, !load16_app_r, !load16_S, !load16_O.
  run. rewrite !be16_value.
  destruct (UIP_CONF_IPV6 cfg).
  - destruct (a_type a =? DNS_TYPE_AAAA); [|done].
    by destruct (Z.land (a_class a) 32767 =? DNS_CLASS_IN).
  - destruct (a_type a =? DNS_TYPE_A); [|done].
    by destruct (negb _).
Qed.

Lemma load16_rdlength a pre post :
  length (a_ttl a) = 4%nat ->
  load16 (pre ++ answer_fixed a ++ post) (length pre + 8)
  = Ok (Z.of_nat (length (a_rdata a))).
Proof.
  intros Httl. unfold answer_fixed.
  destruct (a_ttl a) as [|t1 [|t2 [|t3 [|t4 [|]]]]]; try done.
  unfold be16. cbn [app].
  rewrite load16_app_r, !load16_S, load16_O. by rewrite be16_value.
Qed.

(** Over records that are present in full, the answer loop returns the
    data of the first record that passes the test. *)
Lemma scan_answers_layout l : forall pre post,
  Forall answer_ok l ->
  scan_answers cfg (length l) (pre ++ concat (map answer_bytes l) ++ post)
               (length pre)
  = Ok (first_usable cfg l).
Proof.
  induction l as [|a l IH]; intros pre post Hok; [done|].
  inversion Hok as [|? ? [Hn Httl] Hok']; subst.
  cbn [length scan_answers map concat first_usable].
  unfold answer_bytes at 1. rewrite <- !app_assoc.
  rewrite skip_name_layout by done. run.
  rewrite <- length_name_skipped, <- length_app.
  rewrite (app_assoc pre).
  set (pre' := pre ++ name_skipped (a_name a)).
  rewrite answer_usable_layout by done. run.
  destruct (usable_record cfg a) eqn:Hu.
  - rewrite <- (usable_record_length a Hu).
    rewrite <- (length_answer_fixed a Httl), <- length_app, app_assoc.
    rewrite <- (Nat.add_0_r (length (pre' ++ _))).
    by rewrite load_bytes_app_r, load_bytes_prefix.
  - rewrite load16_rdlength by done. run.
    rewrite Nat2Z.id.
    rewrite <- (length_answer_fixed a Httl), <- !length_app.
    rewrite !app_assoc. rewrite <- (app_assoc _ (concat _)).
    by apply IH.
Qed.

Lemma skip_questions_layout l : forall pre post,
  Forall question_ok l ->
  skip_questions (length l) (pre ++ concat (map question_bytes l) ++ post)
                 (length pre)
  = Ok (pre ++ concat (map question_skipped l) ++ post,
        length (pre ++ concat (map question_skipped l))).
Proof.
  induction l as [|q l IH]; intros pre post Hok.
  - cbn [length skip_questions map concat app]. by rewrite app_nil_r.
  - inversion Hok as [|? ? [Hn Hfx] Hok']; subst.
    cbn [length skip_questions map concat].
    unfold question_bytes at 1. rewrite <- !app_assoc.
    rewrite skip_name_layout by done. run.
    replace (length pre + length (name_bytes (q_name q)) + 4)%nat
      with (length (pre ++ name_skipped (q_name q) ++ q_fixed q))
      by (rewrite !length_app, length_name_skipped; lia).
    replace (pre ++ name_skipped (q_name q) ++ q_fixed q
                 ++ concat (map question_bytes l) ++ post)
      with ((pre ++ name_skipped (q_name q) ++ q_fixed q)
              ++ concat (map question_bytes l) ++ post)
      by (by rewrite <- !app_assoc).
    rewrite IH by done. unfold question_skipped.
    by rewrite <- !app_assoc.
Qed.

Lemma skip_questions_message h qs ans rest :
  Forall question_ok qs ->
  skip_questions (length qs) (message h qs ans rest) 12
  = Ok ((hdr_bytes h ++ concat (map question_skipped qs))
          ++ concat (map answer_bytes ans) ++ rest,
        length (hdr_bytes h ++ concat (map question_skipped qs))).
Proof.
  intros Hq. unfold message.
  change 12%nat with (length (hdr_bytes h)).
  rewrite skip_questions_layout by done. by rewrite <- app_assoc.
Qed.

Lemma header_fields h body :
  let buf := hdr_bytes h ++ body in
  load16 buf 0 = Ok (h_id h) /\ load buf 2 = Ok (h_flags1 h)
  /\ load buf 3 = Ok (h_flags2 h)
  /\ load16 buf 4 = Ok (h_numquestions h)
  /\ load16 buf 6 = Ok (h_numanswers h).
Proof.
  unfold hdr_bytes, be16. cbn [app].
  by rewrite !load16_S, !load16_O, !be16_value.
Qed.

(** The datagrams that [newdata] does not look into. *)
Lemma newdata_discards st buf id f1 f2 nq na :
  load16 buf 0 = Ok id -> load buf 2 = Ok f1 -> load buf 3 = Ok f2 ->
  load16 buf 4 = Ok nq -> load16 buf 6 = Ok na ->
  ~ (f1 = 0 /\ f2 = 0) ->
  (length (names st) <= Z.to_nat (RESOLV_DECODE_INDEX id))%nat
  \/ (exists e, names st !! Z.to_nat (RESOLV_DECODE_INDEX id) = Some e
                /\ state e <> STATE_ASKING)
  \/ na mod 256 = 0 ->
  newdata cfg mdns_responder st buf = Ok (st, []).
Proof.
  intros Hid Hf1 Hf2 Hnq Hna Hfl Hcase. unfold newdata.
  rewrite Hnq; run. rewrite Hna; run. rewrite Hf1; run. rewrite Hf2; run.
  destruct (Z.eqb_spec f1 0), (Z.eqb_spec f2 0); cbn [andb];
    try (by exfalso; apply Hfl).
  all: rewrite Hid; run.
  all: destruct (names st !! _) as [ent|] eqn:Hent; [|done].
  all: destruct Hcase as [Hlen|[(e' & He' & Hst)|Hz]].
  all: try (apply lookup_lt_Some in Hent; lia).
  all: try (assert (e' = ent) as -> by congruence; by destruct (state ent)).
  all: destruct (state ent); try done; by rewrite Hz.
Qed.

(** A response that is present in full, to an entry that is being asked. *)
Lemma newdata_message st h qs ans rest i e :
  ~ (h_flags1 h = 0 /\ h_flags2 h = 0) ->
  Forall question_ok qs -> Forall answer_ok ans ->
  h_numquestions h mod 256 = Z.of_nat (length qs) ->
  h_numanswers h mod 256 = Z.of_nat (length ans) ->
  i = Z.to_nat (RESOLV_DECODE_INDEX (h_id h)) ->
  names st !! i = Some e -> state e = STATE_ASKING ->
  ans <> [] -> Z.land (h_flags2 h) DNS_FLAG2_ERR_MASK = 0 ->
  newdata cfg mdns_responder st (message h qs ans rest)
  = Ok (match first_usable cfg ans with
        | Some a =>
          (with_names st
             (<[i:=set_ipaddr a (set_state STATE_DONE
                      (set_err 0 (set_state STATE_ERROR e)))]> (names st)),
           [resolv_found (name e) (Some a)])
        | None =>
          (with_names st
             (<[i:=set_err 0 (set_state STATE_ERROR e)]> (names st)), [])
        end).
Proof.
  intros Hfl Hq Ha Hnq Hna -> He Hst Hnil Herr. unfold newdata.
  destruct (header_fields h (concat (map question_bytes qs)
                             ++ concat (map answer_bytes ans) ++ rest))
    as (Hid & Hf1 & Hf2 & Hq' & Ha').
  fold (message h qs ans rest) in *.
  rewrite Hq'; run. rewrite Ha'; run. rewrite Hf1; run. rewrite Hf2; run.
  rewrite Hnq, Hna.
  destruct (Z.eqb_spec (h_flags1 h) 0), (Z.eqb_spec (h_flags2 h) 0);
    cbn [andb]; try (by exfalso; apply Hfl).
  all: rewrite Hid; run; rewrite He, Hst.
  all: destruct (Z.eqb_spec (Z.of_nat (length ans)) 0) as [H0|_];
    [destruct ans; [done|len]|].
  all: cbn [err set_err]; rewrite Herr; cbn [Z.eqb negb].
  all: rewrite !Nat2Z.id, skip_questions_message by done; run.
  all: rewrite scan_answers_layout by done; run.
  all: by destruct (first_usable cfg ans).
Qed.

(** The test of an IPv4 build fails on every record: its middle conjunct
    is [class & 0]. *)
Lemma usable_record_ipv4 a : UIP_CONF_IPV6 cfg = false -> usable_record cfg a = false.
Proof.
  intros H. unfold usable_record. rewrite H.
  change (Z.b2z (32767 =? DNS_CLASS_IN)) with 0. rewrite Z.land_0_r.
  cbn [Z.eqb negb]. by rewrite andb_false_r.
Qed.

Lemma first_usable_ipv4 l : UIP_CONF_IPV6 cfg = false -> first_usable cfg l = None.
Proof.
  intros H. induction l as [|a l IH]; [done|].
  cbn [first_usable]. by rewrite usable_record_ipv4.
Qed.

(** In an IPv4 build no response sets an entry to STATE_DONE: a response
    that passes the checks on the header leaves its entry in STATE_ERROR
    and nothing is announced. *)
Lemma newdata_message_ipv4 st h qs ans rest i e :
  UIP_CONF_IPV6 cfg = false ->
  ~ (h_flags1 h = 0 /\ h_flags2 h = 0) ->
  Forall question_ok qs -> Forall answer_ok ans ->
  h_numquestions h mod 256 = Z.of_nat (length qs) ->
  h_numanswers h mod 256 = Z.of_nat (length ans) ->
  i = Z.to_nat (RESOLV_DECODE_INDEX (h_id h)) ->
  names st !! i = Some e -> state e = STATE_ASKING ->
  ans <> [] -> Z.land (h_flags2 h) DNS_FLAG2_ERR_MASK = 0 ->
  newdata cfg mdns_responder st (message h qs ans rest)
  = Ok (with_names st
          (<[i:=set_err 0 (set_state STATE_ERROR e)]> (names st)), []).
Proof.
  intros H4 ? ? ? ? ? ? ? ? ? ?.
  rewrite (newdata_message st h qs ans rest i e) by done.
  by rewrite first_usable_ipv4.
Qed.

(** In an IPv6 build the first record of type AAAA, class IN and length 16
    wins: the entry is set to STATE_DONE with its address and announced
    once; the records before it are passed over, the ones after it are not
    looked at. *)
Lemma newdata_message_ipv6 st h qs before a after rest i e :
  UIP_CONF_IPV6 cfg = true ->
  ~ (h_flags1 h = 0 /\ h_flags2 h = 0) ->
  Forall question_ok qs -> Forall answer_ok (before ++ a :: after) ->
  h_numquestions h mod 256 = Z.of_nat (length qs) ->
  h_numanswers h mod 256 = Z.of_nat (length (before ++ a :: after)) ->
  i = Z.to_nat (RESOLV_DECODE_INDEX (h_id h)) ->
  names st !! i = Some e -> state e = STATE_ASKING ->
  Z.land (h_flags2 h) DNS_FLAG2_ERR_MASK = 0 ->
  Forall (fun b => usable_record cfg b = false) before ->
  a_type a = DNS_TYPE_AAAA -> Z.land (a_class a) 32767 = DNS_CLASS_IN ->
  length (a_rdata a) = 16%nat ->
  newdata cfg mdns_responder st (message h qs (before ++ a :: after) rest)
  = Ok (with_names st
          (<[i:=set_ipaddr (a_rdata a) (set_state STATE_DONE
                   (set_err 0 (set_state STATE_ERROR e)))]> (names st)),
        [resolv_found (name e) (Some (a_rdata a))]).
Proof.
  intros H6 ? ? ? ? ? ? ? ? ? Hbefore Hty Hcl Hlen.
  rewrite (newdata_message st h qs (before ++ a :: after) rest i e)
    by (try done; by destruct before).
  assert (Hfu : first_usable cfg (before ++ a :: after) = Some (a_rdata a)).
  { clear -H6 Hbefore Hty Hcl Hlen.
    induction Hbefore as [|b before Hb _ IH]; cbn [app first_usable].
    - unfold usable_record. by rewrite H6, Hty, Hcl, Hlen.
    - by rewrite Hb. }
  by rewrite Hfu.
Qed.


(** C5 (as amended). A response whose id, minus 61616 and cut to its low
    eight bits, is not an index of the table, or whose entry is not in
    STATE_ASKING, or whose answer count is zero, leaves the resolver as it
    was and announces nothing. *)
Theorem unmatched_response_discarded st buf id f1 f2 nq na :
  load16 buf 0 = Ok id -> load buf 2 = Ok f1 -> load buf 3 = Ok f2 ->
  load16 buf 4 = Ok nq -> load16 buf 6 = Ok na ->
  ~ (f1 = 0 /\ f2 = 0) ->
  (length (names st) <= Z.to_nat (RESOLV_DECODE_INDEX id))%nat
  \/ (exists e, names st !! Z.to_nat (RESOLV_DECODE_INDEX id) = Some e
                /\ state e <> STATE_ASKING)
  \/ na = 0 ->
  newdata cfg mdns_responder st buf = Ok (st, []).
Proof.
  intros Hid Hf1 Hf2 Hnq Hna Hfl Hcase.
  eapply newdata_discards; try done.
  destruct Hcase as [H|[H|H]]; [by left|by right; left|].
  right; right. by rewrite H.
Qed.

End Response.

(** ** check_entries *)

Section Driver.

Context (cfg : config).

Lemma count_if_app {A} (f : A -> bool) l1 l2 :
  count_if f (l1 ++ l2) = (count_if f l1 + count_if f l2)%nat.
Proof. induction l1 as [|x l1 IH]; [done|]. cbn [app count_if]. lia. Qed.

Lemma max_retries_bounds e : config_ok cfg = true -> 1 <= max_retries cfg e <= 255.
Proof.
  unfold config_ok, max_retries. rewrite !andb_true_iff, !Z.leb_le.
  destruct (uses_mdns cfg e); lia.
Qed.

Lemma tri_S n : tri (S n) = (S n + tri n)%nat.
Proof. done. Qed.

Lemma tri_mono n m : (n <= m)%nat -> (tri n <= tri m)%nat.
Proof. induction 1; [done|]. rewrite tri_S. lia. Qed.

Lemma query_packet_ok i e :
  terminated e = true ->
  exists body, query_packet cfg i e
    = Ok (be16 (RESOLV_ENCODE_INDEX (Z.of_nat i)) ++ body).
Proof.
  unfold terminated, query_packet. destruct (cstring (name e)) as [nm|]; [|done].
  intros _. run. eexists. unfold be16. cbn [app]. done.
Qed.

Lemma send_query_ok server i e :
  terminated e = true ->
  exists body dst port, send_query cfg server i e
    = Ok (e, [etimer_set;
              uip_udp_packet_sendto
                (be16 (RESOLV_ENCODE_INDEX (Z.of_nat i)) ++ body) dst port], true).
Proof.
  intros Ht. destruct (query_packet_ok i e Ht) as [body Hb].
  unfold send_query. rewrite Hb. run. destruct (uses_mdns cfg e); by eexists _, _, _.
Qed.

Lemma is_query_of_be16 i j body dst port :
  is_query_of j (uip_udp_packet_sendto (be16 (RESOLV_ENCODE_INDEX (Z.of_nat i)) ++ body) dst port)
  = (RESOLV_ENCODE_INDEX (Z.of_nat i) =? RESOLV_ENCODE_INDEX (Z.of_nat j)).
Proof. unfold is_query_of, be16. cbn [app]. by rewrite be16_value. Qed.

Lemma encode_index_inj i j :
  (i < 256)%nat -> (j < 256)%nat ->
  (RESOLV_ENCODE_INDEX (Z.of_nat i) =? RESOLV_ENCODE_INDEX (Z.of_nat j)) = bool_decide (i = j).
Proof.
  intros Hi Hj. unfold RESOLV_ENCODE_INDEX.
  rewrite !Z.mod_small by lia.
  destruct (Z.eqb_spec (Z.of_nat i + 61616) (Z.of_nat j + 61616)).
  - rewrite bool_decide_eq_true_2; [done|lia].
  - rewrite bool_decide_eq_false_2; [done|lia].
Qed.

Lemma check_entry_step server i e :
  config_ok cfg = true -> (i < 256)%nat ->
  sane cfg e = true -> terminated e = true ->
  exists e' ev brk, check_entry cfg server i e = Ok (e', ev, brk)
                    /\ step_facts cfg i e e' ev brk.
Proof.
  intros Hcfg Hi Hsane Hterm.
  pose proof (max_retries_bounds e Hcfg) as Hmax.
  unfold check_entry.
  destruct e as [st t r sq er md nm ip].
  unfold sane, max_retries, uses_mdns in *. cbn [state tmr retries is_mdns] in *.
  set (M := if RESOLV_CONF_SUPPORTS_MDNS cfg && md
            then RESOLV_CONF_MAX_MDNS_RETRIES cfg
            else RESOLV_CONF_MAX_RETRIES cfg) in *.
  destruct st.
  - (* unused *) eexists _, _, _. split; [done|]. by split.
  - (* new *)
    match goal with |- context [send_query cfg server i ?x] => set (e1 := x) end.
    destruct (send_query_ok server i e1 Hterm) as (body & dst & port & Hs).
    rewrite Hs. eexists _, _, _. split; [done|]. split.
    + unfold sane, max_retries, uses_mdns. cbn. fold M. bools. lia.
    + done.
    + done.
    + intros _. unfold entry_cost, max_retries, uses_mdns. cbn. fold M.
      change (tri (Z.to_nat 0)) with O. lia.
    + done.
    + done.
    + intros j Hj Hji. cbn [count_if].
      rewrite is_query_of_be16, encode_index_inj by done.
      by rewrite bool_decide_eq_false_2.
    + done.
    + done.
    + intros _. cbn [count_if]. by rewrite is_query_of_be16, Z.eqb_refl.
  - (* asking *)
    bools. destruct Hsane as [[[Ht1 Ht2] Hr1] Hr2].
    rewrite (Z.mod_small (t - 1)) by lia.
    destruct (Z.eqb_spec (t - 1) 0) as [Ht0|Ht0].
    + rewrite (Z.mod_small (r + 1)) by lia.
      destruct (Z.eqb_spec (r + 1) M) as [HrM|HrM].
      * eexists _, _, _. split; [done|]. split.
        -- done.
        -- done.
        -- done.
        -- intros _. unfold entry_cost, max_retries, uses_mdns. cbn. fold M.
           replace (Z.to_nat M - 1)%nat with (Z.to_nat r) by lia. lia.
        -- done.
        -- intros nm' Hnm. cbn [count_if is_failure name].
           by rewrite bool_decide_eq_false_2.
        -- done.
        -- intros _. unfold on_course, max_retries, uses_mdns. cbn. fold M. lia.
        -- intros _. cbn [count_if is_failure name].
           by rewrite bool_decide_eq_true_2.
        -- intros _. unfold asked. cbn. lia.
      * match goal with |- context [send_query cfg server i ?x] => set (e1 := x) end.
        destruct (send_query_ok server i e1 Hterm) as (body & dst & port & Hs).
        rewrite Hs. eexists _, _, _. split; [done|]. split.
        -- unfold sane, max_retries, uses_mdns. cbn. fold M. bools. lia.
        -- done.
        -- done.
        -- intros _. unfold entry_cost, max_retries, uses_mdns. cbn. fold M.
           replace (Z.to_nat (r + 1)) with (S (Z.to_nat r)) by lia.
           assert (tri (S (Z.to_nat r)) <= tri (Z.to_nat M - 1))%nat
             by (apply tri_mono; lia).
           rewrite tri_S in *. lia.
        -- done.
        -- done.
        -- intros j Hj Hji. cbn [count_if].
           rewrite is_query_of_be16, encode_index_inj by done.
           by rewrite bool_decide_eq_false_2.
        -- done.
        -- done.
        -- intros _. unfold asked.
           cbn [count_if state retries e1 set_tmr set_retries].
           rewrite is_query_of_be16, Z.eqb_refl.
           change (is_query_of i etimer_set) with false. cbv iota. lia.
    + eexists _, _, _. split; [done|]. split.
      * unfold sane, max_retries, uses_mdns. cbn. fold M. bools. lia.
      * done.
      * done.
      * intros _. unfold entry_cost, max_retries, uses_mdns. cbn. fold M.
        assert (tri (Z.to_nat r) <= tri (Z.to_nat M - 1))%nat
          by (apply tri_mono; lia).
        lia.
      * done.
      * done.
      * done.
      * done.
      * done.
      * done.
  - (* done *) eexists _, _, _. split; [done|]. by split.
  - (* error *) eexists _, _, _. split; [done|]. by split.
Qed.

Lemma forallb_cons {A} (f : A -> bool) x l : forallb f (x :: l) = f x && forallb f l.
Proof. done. Qed.

Lemma step_other i e e' ev brk nm :
  step_facts cfg i e e' ev brk -> other_entry nm e = true ->
  other_entry nm e' = true /\ count_if (is_failure nm) ev = O.
Proof.
  intros F. unfold other_entry. rewrite !orb_true_iff, !negb_true_iff.
  intros [Hn|Hp].
  - apply bool_decide_eq_false in Hn. split.
    + left. apply bool_decide_eq_false. by rewrite (sf_name _ _ _ _ _ _ F).
    + by apply F.
  - destruct (sf_idle _ _ _ _ _ _ F Hp) as (-> & -> & _). split; [by right|done].
Qed.

Lemma other_names_cons nm x l :
  other_names nm (x :: l) = other_entry nm x && other_names nm l.
Proof. done. Qed.

(** A scan over entries none of which is the one followed. *)
Lemma scan_table server l : forall k,
  config_ok cfg = true -> (k + length l <= 256)%nat ->
  forallb (sane cfg) l = true -> forallb terminated l = true ->
  exists l' ev,
    check_entries_from cfg server k l = Ok (l', ev)
    /\ forallb (sane cfg) l' = true
    /\ map name l' = map name l
    /\ (table_cost cfg l' <= table_cost cfg l)%nat
    /\ (existsb pending l = true -> (table_cost cfg l' < table_cost cfg l)%nat)
    /\ (forall nm, other_names nm l = true ->
         other_names nm l' = true /\ count_if (is_failure nm) ev = O)
    /\ (forall j, (j < 256)%nat -> (j < k \/ k + length l <= j)%nat ->
         count_if (is_query_of j) ev = O).
Proof.
  induction l as [|x l IH]; intros k Hcfg Hk Hsane Hterm.
  - exists [], []. by repeat split.
  - rewrite forallb_cons in Hsane, Hterm. bools.
    destruct Hsane as [Hx Hsane], Hterm as [Htx Hterm].
    destruct (check_entry_step server k x Hcfg) as (x' & ev1 & brk & Hstep & F);
      [len|done|done|].
    cbn [check_entries_from]. rewrite Hstep. run.
    assert (Hpx : brk = true -> pending x = true).
    { destruct (pending x) eqn:Hp; [done|].
      destruct (sf_idle _ _ _ _ _ _ F Hp) as (_ & _ & ->). done. }
    assert (Hcx : (entry_cost cfg x' <= entry_cost cfg x)%nat).
    { destruct (pending x) eqn:Hp.
      - rewrite (sf_cost _ _ _ _ _ _ F Hp). lia.
      - by destruct (sf_idle _ _ _ _ _ _ F Hp) as (-> & _ & _). }
    destruct brk.
    + exists (x' :: l), ev1. split; [done|].
      split; [|split; [|split; [|split; [|split]]]].
      * rewrite forallb_cons. bools. split; [apply F|done].
      * cbn [map]. by rewrite (sf_name _ _ _ _ _ _ F).
      * cbn [table_cost]. lia.
      * intros _. cbn [table_cost].
        rewrite (sf_cost _ _ _ _ _ _ F (Hpx eq_refl)). lia.
      * intros nm Hnm. rewrite other_names_cons in Hnm |- *.
        apply andb_true_iff in Hnm as [Hnm Hnm'].
        destruct (step_other _ _ _ _ _ _ F Hnm) as [Ho Hz]. by rewrite Ho.
      * intros j Hj Hjk. apply F; [done|]. len.
    + destruct (IH (S k)) as (l' & ev2 & Hscan & Hs' & Hn' & Hc' & Hlt' & Hf' & Hq');
        [done|len|done|done|].
      rewrite Hscan. run.
      exists (x' :: l'), (ev1 ++ ev2). split; [done|].
      split; [|split; [|split; [|split; [|split]]]].
      * rewrite forallb_cons. bools. split; [apply F|done].
      * cbn [map]. by rewrite (sf_name _ _ _ _ _ _ F), Hn'.
      * cbn [table_cost]. lia.
      * cbn [existsb table_cost]. rewrite orb_true_iff. intros [Hp|Hp].
        -- rewrite (sf_cost _ _ _ _ _ _ F Hp). lia.
        -- specialize (Hlt' Hp). lia.
      * intros nm Hnm. rewrite other_names_cons in Hnm |- *.
        apply andb_true_iff in Hnm as [Hnm Hnm'].
        destruct (step_other _ _ _ _ _ _ F Hnm) as [Ho Hz].
        destruct (Hf' nm Hnm') as [Ho' Hz'].
        by rewrite count_if_app, Hz, Hz', Ho, Ho'.
      * intros j Hj Hjk. rewrite count_if_app.
        rewrite (sf_query_other _ _ _ _ _ _ F j Hj) by len.
        rewrite Hq'; [done|done|len].
Qed.

Lemma other_names_app nm l1 l2 :
  other_names nm (l1 ++ l2) = other_names nm l1 && other_names nm l2.
Proof. unfold other_names. apply forallb_app. Qed.

(** A scan, seen from the entry that follows [pre]. *)
Lemma scan_tracked server pre : forall k e post,
  config_ok cfg = true -> (k + length (pre ++ e :: post) <= 256)%nat ->
  forallb (sane cfg) (pre ++ e :: post) = true ->
  forallb terminated (pre ++ e :: post) = true ->
  other_names (name e) (pre ++ post) = true ->
  on_course cfg e = true ->
  exists pre' e' post' ev,
    check_entries_from cfg server k (pre ++ e :: post) = Ok (pre' ++ e' :: post', ev)
    /\ length pre' = length pre
    /\ other_names (name e) (pre' ++ post') = true
    /\ name e' = name e /\ is_mdns e' = is_mdns e /\ on_course cfg e' = true
    /\ (announced e + count_if (is_failure (name e)) ev)%nat = announced e'
    /\ (asked e + count_if (is_query_of (k + length pre)) ev)%nat = asked e'
    /\ (pending e = false -> e' = e).
Proof.
  induction pre as [|x pre IH]; intros k e post Hcfg Hk Hsane Hterm Hoth Hc.
  - cbn [app length] in *. rewrite forallb_cons in Hsane, Hterm. bools.
    destruct Hsane as [He Hsane], Hterm as [Hte Hterm].
    destruct (check_entry_step server k e Hcfg) as (e' & ev1 & brk & Hstep & F);
      [len|done|done|].
    cbn [check_entries_from]. rewrite Hstep. run.
    rewrite Nat.add_0_r.
    assert (Hidle : pending e = false -> e' = e)
      by (intros Hp; by destruct (sf_idle _ _ _ _ _ _ F Hp) as (-> & _ & _)).
    destruct brk.
    + exists [], e', post, ev1. split; [done|]. split; [done|]. split; [done|].
      split; [apply F|]. split; [apply F|]. split; [by apply F|].
      split; [by apply F|]. split; [by apply F|done].
    + destruct (scan_table server post (S k)) as (post' & ev2 & Hscan & _ & _ & _ & _ & Hf' & Hq');
        [done|len|done|done|].
      rewrite Hscan. run.
      destruct (Hf' _ Hoth) as [Ho' Hz'].
      exists [], e', post', (ev1 ++ ev2). split; [done|].
      rewrite !count_if_app, Hz', (Hq' k) by len.
      rewrite !Nat.add_0_r.
      split; [done|]. split; [done|].
      split; [apply F|]. split; [apply F|]. split; [by apply F|].
      split; [by apply F|]. split; [by apply F|done].
  - cbn [app length] in *. rewrite forallb_cons in Hsane, Hterm.
    rewrite other_names_cons in Hoth. bools.
    destruct Hsane as [Hx Hsane], Hterm as [Htx Hterm].
    destruct Hoth as [Hnx Hoth].
    destruct (check_entry_step server k x Hcfg) as (x' & ev1 & brk & Hstep & F);
      [len|done|done|].
    destruct (step_other _ _ _ _ _ _ F Hnx) as [Ho Hz].
    cbn [check_entries_from]. rewrite Hstep. run.
    destruct brk.
    + exists (x' :: pre), e, post, ev1. split; [done|].
      rewrite Hz.
      rewrite (sf_query_other _ _ _ _ _ _ F (k + S (length pre))%nat) by len.
      cbn [app]. rewrite other_names_cons, Ho, Hoth.
      by repeat split.
    + destruct (IH (S k) e post) as (pre' & e' & post' & ev2 & Hscan & Hlen & Hoth' & Hn & Hm & Hc' & Ha & Hq & Hidle);
        [done|len|done|done|done|done|].
      rewrite Hscan. run.
      exists (x' :: pre'), e', post', (ev1 ++ ev2). split; [done|].
      rewrite !count_if_app, Hz.
      rewrite (sf_query_other _ _ _ _ _ _ F (k + S (length pre))%nat) by len.
      replace (k + S (length pre))%nat with (S k + length pre)%nat by lia.
      cbn [app]. rewrite other_names_cons, Ho, Hoth'.
      repeat split; try done. len.
Qed.

Lemma forallb_name_ext (f : list Z -> bool) l : forall l',
  map name l = map name l' ->
  forallb (fun e => f (name e)) l = forallb (fun e => f (name e)) l'.
Proof.
  induction l as [|x l IH]; intros [|x' l'] H; try done.
  cbn [map] in H. injection H as Hx Hl. cbn [forallb]. by rewrite Hx, (IH l').
Qed.

Lemma table_ok_parts l :
  table_ok cfg l = true <->
  forallb (sane cfg) l = true /\ forallb terminated l = true
  /\ (length l <= 255)%nat.
Proof.
  unfold table_ok. rewrite !andb_true_iff, bool_decide_eq_true.
  split; [by intros [[? ?] ?]|by intros (? & ? & ?)].
Qed.

(** One tick, seen from the entry that follows [pre]. *)
Lemma tick_tracked st pre e post :
  config_ok cfg = true ->
  names st = pre ++ e :: post -> table_ok cfg (names st) = true ->
  other_names (name e) (pre ++ post) = true -> on_course cfg e = true ->
  exists st1 ev pre1 e1 post1,
    check_entries cfg st = Ok (st1, ev)
    /\ names st1 = pre1 ++ e1 :: post1 /\ length pre1 = length pre
    /\ table_ok cfg (names st1) = true
    /\ other_names (name e1) (pre1 ++ post1) = true
    /\ on_course cfg e1 = true
    /\ name e1 = name e /\ is_mdns e1 = is_mdns e
    /\ (announced e + count_if (is_failure (name e)) ev)%nat = announced e1
    /\ (asked e + count_if (is_query_of (length pre)) ev)%nat = asked e1
    /\ (pending e = false -> e1 = e)
    /\ (pending e = true ->
        (table_cost cfg (names st1) < table_cost cfg (names st))%nat).
Proof.
  intros Hcfg Hn Hok Hoth Hc. apply table_ok_parts in Hok as (Hsane & Hterm & Hlen).
  destruct (scan_table (resolv_default_dns_server st) (names st) 0)
    as (l' & ev & Hscan & Hs' & Hn' & Hc' & Hlt' & _ & _); [done|len|done|done|].
  rewrite Hn in Hsane, Hterm, Hlen.
  destruct (scan_tracked (resolv_default_dns_server st) pre 0 e post)
    as (pre1 & e1 & post1 & ev' & Hscan' & Hl1 & Ho1 & Hn1 & Hm1 & Hc1 & Ha1 & Hq1 & Hi1);
    [done|len|done|done|done|done|].
  rewrite <- Hn in Hscan'. rewrite Hscan in Hscan'. injection Hscan' as -> ->.
  unfold check_entries. rewrite Hscan. run.
  exists (with_names st (pre1 ++ e1 :: post1)), ev', pre1, e1, post1.
  cbn [names with_names].
  rewrite Hn, !map_app in Hn'. cbn [map] in Hn'.
  apply app_inj_1 in Hn' as [Hnp Hnq]; [|by rewrite !length_map].
  injection Hnq as _ Hnq.
  repeat split; try done.
  - apply table_ok_parts. repeat split; [done| |].
    + rewrite <- Hterm. apply (forallb_name_ext (fun nm => match cstring nm with Ok _ => true | Err _ => false end)).
      rewrite !map_app. cbn [map]. by rewrite Hnp, Hn1, Hnq.
    + rewrite length_app in *. cbn [length] in *.
      apply (f_equal length) in Hnq. rewrite !length_map in Hnq. lia.
  - by rewrite Hn1.
  - intros Hp. rewrite Hn in Hlt' |- *. apply Hlt'.
    rewrite existsb_app. cbn [existsb]. rewrite Hp. by rewrite orb_true_r.
Qed.

Lemma count_if_nil {A} (f : A -> bool) : count_if f [] = O.
Proof. done. Qed.

(** An entry that is no longer pending is not touched by ticks. *)
Lemma ticks_settled t : forall st pre e post,
  config_ok cfg = true ->
  names st = pre ++ e :: post -> table_ok cfg (names st) = true ->
  other_names (name e) (pre ++ post) = true -> on_course cfg e = true ->
  pending e = false ->
  exists st' ev,
    ticks cfg t st = Ok (st', ev)
    /\ names st' !! length pre = Some e
    /\ count_if (is_failure (name e)) ev = O
    /\ count_if (is_query_of (length pre)) ev = O.
Proof.
  induction t as [|t IH]; intros st pre e post Hcfg Hn Hok Hoth Hc Hp.
  - exists st, []. repeat split; try done. rewrite Hn. apply list_lookup_middle. done.
  - destruct (tick_tracked st pre e post)
      as (st1 & ev1 & pre1 & e1 & post1 & Htick & Hn1 & Hl1 & Hok1 & Hoth1 & Hc1
          & Hnm & Hmd & Ha & Hq & Hidle & _); try done.
    rewrite (Hidle Hp) in *.
    destruct (IH st1 pre1 e post1) as (st' & ev2 & Hrun & Hlook & Hf2 & Hq2); try done.
    cbn [ticks]. rewrite Htick. run. rewrite Hrun. run.
    exists st', (ev1 ++ ev2). rewrite !count_if_app. rewrite Hl1 in *.
    repeat split; [done|lia|lia].
Qed.

Lemma retries_run m : forall st pre e post,
  (table_cost cfg (names st) <= m)%nat ->
  config_ok cfg = true ->
  names st = pre ++ e :: post -> table_ok cfg (names st) = true ->
  other_names (name e) (pre ++ post) = true -> on_course cfg e = true ->
  exists T, forall t, exists st' ev e',
    ticks cfg t st = Ok (st', ev)
    /\ names st' !! length pre = Some e'
    /\ on_course cfg e' = true /\ is_mdns e' = is_mdns e
    /\ (announced e + count_if (is_failure (name e)) ev)%nat = announced e'
    /\ (asked e + count_if (is_query_of (length pre)) ev)%nat = asked e'
    /\ ((t < T)%nat -> pending e' = true)
    /\ ((T <= t)%nat -> pending e' = false).
Proof.
  induction m as [|m IH]; intros st pre e post Hm Hcfg Hn Hok Hoth Hc.
  all: destruct (pending e) eqn:Hp.
  all: try (exists O; intros t;
            destruct (ticks_settled t st pre e post) as (st' & ev & Hrun & Hlook & Hf & Hq);
            try done;
            exists st', ev, e; rewrite Hf, Hq, !Nat.add_0_r;
            repeat split; try done; lia).
  - destruct (tick_tracked st pre e post)
      as (st1 & ev1 & pre1 & e1 & post1 & Htick & Hn1 & Hl1 & Hok1 & Hoth1 & Hc1
          & Hnm & Hmd & Ha & Hq & Hidle & Hlt); try done.
    specialize (Hlt Hp). lia.
  - destruct (tick_tracked st pre e post)
      as (st1 & ev1 & pre1 & e1 & post1 & Htick & Hn1 & Hl1 & Hok1 & Hoth1 & Hc1
          & Hnm & Hmd & Ha & Hq & Hidle & Hlt); try done.
    specialize (Hlt Hp).
    destruct (IH st1 pre1 e1 post1) as [T HT]; try done; [lia|].
    exists (S T). intros [|t].
    + exists st, [], e. cbn [ticks count_if]. rewrite !Nat.add_0_r.
      repeat split; try done; try lia.
      rewrite Hn. by apply list_lookup_middle.
    + destruct (HT t) as (st' & ev2 & e' & Hrun & Hlook & Hc' & Hmd' & Ha' & Hq' & Hbefore & Hafter).
      exists st', (ev1 ++ ev2), e'. cbn [ticks]. rewrite Htick. run. rewrite Hrun. run.
      rewrite !count_if_app. rewrite Hl1, Hnm in *.
      repeat split; try done; try lia; try congruence.
      * intros ?. apply Hbefore. lia.
      * intros ?. apply Hafter. lia.
Qed.

Lemma max_retries_same e e' : is_mdns e' = is_mdns e -> max_retries cfg e' = max_retries cfg e.
Proof. unfold max_retries, uses_mdns. by intros ->. Qed.

(** An entry in STATE_NEW of a well-formed table, no other entry of which
    is pending under the same name, reaches STATE_ERROR after a finite
    number [T] of ticks: before that it is pending and no failure of its
    name has been announced; from then on its retry count is its maximum,
    that many questions carrying its id have been sent, and one
    notification with a null address has been posted for its name. *)
Lemma retries_exhausted_from st pre e post :
  config_ok cfg = true ->
  names st = pre ++ e :: post -> table_ok cfg (names st) = true ->
  other_names (name e) (pre ++ post) = true ->
  state e = STATE_NEW ->
  exists T, forall t, exists st' ev e',
    ticks cfg t st = Ok (st', ev)
    /\ names st' !! length pre = Some e'
    /\ ((t < T)%nat ->
        pending e' = true /\ count_if (is_failure (name e)) ev = O)
    /\ ((T <= t)%nat ->
        state e' = STATE_ERROR
        /\ retries e' = max_retries cfg e
        /\ count_if (is_failure (name e)) ev = 1%nat
        /\ count_if (is_query_of (length pre)) ev
           = Z.to_nat (max_retries cfg e)).
Proof.
  intros Hcfg Hn Hok Hoth Hst.
  destruct (retries_run (table_cost cfg (names st)) st pre e post) as [T HT];
    try done.
  { unfold on_course. by rewrite Hst. }
  exists T. intros t.
  destruct (HT t) as (st' & ev & e' & Hrun & Hlook & Hc & Hmd & Ha & Hq & Hb & Haf).
  exists st', ev, e'. split; [done|]. split; [done|].
  unfold announced, asked in Ha, Hq. rewrite Hst in Ha, Hq.
  unfold on_course, pending in *.
  split; intros Ht.
  - specialize (Hb Ht). split; [done|]. destruct (state e'); try done; lia.
  - specialize (Haf Ht). destruct (state e'); try done.
    apply Z.eqb_eq in Hc. rewrite (max_retries_same e e' Hmd) in Hc.
    repeat split; try done; lia.
Qed.

Lemma check_entry_break server i e e' ev brk :
  check_entry cfg server i e = Ok (e', ev, brk) ->
  brk = sends_query cfg e
  /\ count_if is_sendto ev = (if brk then 1 else 0)%nat.
Proof.
  unfold check_entry, sends_query, send_query.
  destruct (state e).
  - by intros [= <- <- <-].
  - destruct (query_packet _ _ _); run; [|done].
    intros [= <- <- <-]. by destruct (uses_mdns _ _).
  - destruct (_ =? 0); cbn [andb]; [|by intros [= <- <- <-]].
    destruct (_ =? max_retries _ _); cbn [negb]; [by intros [= <- <- <-]|].
    destruct (query_packet _ _ _); run; [|done].
    intros [= <- <- <-]. by destruct (uses_mdns _ _).
  - by intros [= <- <- <-].
  - by intros [= <- <- <-].
Qed.

Lemma check_entries_from_break server l : forall i l' ev,
  check_entries_from cfg server i l = Ok (l', ev) ->
  (count_if is_sendto ev <= 1)%nat
  /\ length l' = length l
  /\ forall k e, l !! k = Some e -> sends_query cfg e = true ->
      forall j, (k < j)%nat -> l' !! j = l !! j.
Proof.
  induction l as [|x l IH]; intros i l' ev.
  - cbn [check_entries_from]; run. intros [= <- <-].
    split; [cbn; lia|]. split; [done|]. by intros [|?] ? ?.
  - cbn [check_entries_from].
    destruct (check_entry cfg server i x) as [[[x' ev1] brk]|] eqn:Hx; run; [|done].
    destruct (check_entry_break _ _ _ _ _ _ Hx) as [Hb Hcount].
    destruct brk.
    + intros [= <- <-]. rewrite Hcount. split; [lia|]. split; [done|].
      intros k e _ _ [|j] Hj; [lia|done].
    + destruct (check_entries_from cfg server (S i) l) as [[l2 ev2]|] eqn:Hl; run; [|done].
      intros [= <- <-]. destruct (IH _ _ _ Hl) as (Hc2 & Hlen & Hafter).
      rewrite count_if_app, Hcount. split; [lia|]. split; [len|].
      intros [|k] e He Hs [|j] Hj; try lia.
      * cbn in He. injection He as ->. congruence.
      * cbn. eapply Hafter; [done|done|lia].
Qed.

(** The scan gets to every entry that has no sender in front of it, and
    runs the body of the loop on it. *)
Lemma scan_reaches server l : forall i l' ev,
  check_entries_from cfg server i l = Ok (l', ev) ->
  forall k e, l !! k = Some e -> no_sender_before cfg l k ->
  exists e' evk brk,
    check_entry cfg server (i + k) e = Ok (e', evk, brk)
    /\ l' !! k = Some e'
    /\ forall f, (count_if f evk <= count_if f ev)%nat.
Proof.
  induction l as [|x l IH]; intros i l' ev Hscan k e Hk Hno; [done|].
  cbn [check_entries_from] in Hscan.
  destruct (check_entry cfg server i x) as [[[x' ev1] brk]|] eqn:Hx;
    revert Hscan; run; [|done].
  destruct k as [|k].
  - cbn in Hk. injection Hk as <-. rewrite Nat.add_0_r.
    destruct brk.
    + intros [= <- <-]. exists x', ev1, true. by repeat split.
    + destruct (check_entries_from cfg server (S i) l) as [[l2 ev2]|]; run; [|done].
      intros [= <- <-]. exists x', ev1, false. repeat split; try done.
      intros f. rewrite count_if_app. lia.
  - destruct (check_entry_break _ _ _ _ _ _ Hx) as [Hb _].
    rewrite (Hno O x) in Hb by (done || lia). subst brk.
    destruct (check_entries_from cfg server (S i) l) as [[l2 ev2]|] eqn:Hl;
      run; [|done].
    intros [= <- <-].
    destruct (IH _ _ _ Hl k e Hk) as (e' & evk & brk & He & Hl2 & Hc).
    { intros j e0 Hj Hj0. apply (Hno (S j) e0); [lia|done]. }
    exists e', evk, brk. replace (i + S k)%nat with (S i + k)%nat by lia.
    repeat split; try done. intros f. rewrite count_if_app. specialize (Hc f). lia.
Qed.

(** C7 (as amended). One scan sends at most one question, whatever the
    size of the table and the number of pending entries, and stops at the
    entry it sends the question for (an entry in STATE_NEW, or one in
    STATE_ASKING whose timer runs out with retries left): no entry behind
    that one is touched. An entry in STATE_ASKING whose timer has not run
    out, or whose retries are used up, does not stop the scan: the timer
    of the first is counted down, the second goes to STATE_ERROR and its
    failure is announced, and the scan goes on to the entries behind
    them, up to the first entry that it sends a question for. *)
Theorem one_query_per_scan st st' ev :
  check_entries cfg st = Ok (st', ev) ->
  (count_if is_sendto ev <= 1)%nat
  /\ length (names st') = length (names st)
  /\ (forall k e, names st !! k = Some e -> sends_query cfg e = true ->
        forall j, (k < j)%nat -> names st' !! j = names st !! j)
  /\ (forall k e, names st !! k = Some e -> no_sender_before cfg (names st) k ->
        state e = STATE_ASKING -> (tmr e - 1) mod 256 <> 0 ->
        names st' !! k = Some (set_tmr ((tmr e - 1) mod 256) e))
  /\ (forall k e, names st !! k = Some e -> no_sender_before cfg (names st) k ->
        state e = STATE_ASKING -> (tmr e - 1) mod 256 = 0 ->
        (retries e + 1) mod 256 = max_retries cfg e ->
        names st' !! k
        = Some (set_state STATE_ERROR
                  (set_retries ((retries e + 1) mod 256) (set_tmr 0 e)))
        /\ (1 <= count_if (is_failure (name e)) ev)%nat)
  /\ (forall k e, names st !! k = Some e -> no_sender_before cfg (names st) k ->
        sends_query cfg e = true ->
        count_if is_sendto ev = 1%nat
        /\ exists e', names st' !! k = Some e' /\ state e' = STATE_ASKING
                      /\ tmr e' = (if decide (state e = STATE_NEW) then 1
                                   else (retries e + 1) mod 256)
                      /\ retries e' = (if decide (state e = STATE_NEW) then 0
                                       else (retries e + 1) mod 256)).
Proof.
  unfold check_entries.
  destruct (check_entries_from _ _ _ _) as [[l ev1]|] eqn:Hl; run; [|done].
  intros [= <- <-]. cbn [names with_names].
  destruct (check_entries_from_break _ _ _ _ _ Hl) as (Hone & Hlen & Hbehind).
  split; [done|]. split; [done|]. split; [done|].
  split; [|split].
  - intros k e Hk Hno Hst Ht.
    destruct (scan_reaches _ _ _ _ _ Hl k e Hk Hno) as (e' & evk & brk & He & Hk' & _).
    revert He. unfold check_entry. rewrite Hst.
    destruct (Z.eqb_spec ((tmr e - 1) mod 256) 0); [done|].
    run. by intros [= <- <- <-].
  - intros k e Hk Hno Hst Ht Hr.
    destruct (scan_reaches _ _ _ _ _ Hl k e Hk Hno) as (e' & evk & brk & He & Hk' & Hc).
    revert He. unfold check_entry. rewrite Hst, Ht. cbn [Z.eqb].
    destruct (Z.eqb_spec ((retries e + 1) mod 256) (max_retries cfg e)); [|done].
    run. intros [= <- <- <-]. split; [done|].
    specialize (Hc (is_failure (name e))). revert Hc.
    cbn [count_if is_failure]. rewrite bool_decide_eq_true_2 by done. lia.
  - intros k e Hk Hno Hs.
    destruct (scan_reaches _ _ _ _ _ Hl k e Hk Hno) as (e' & evk & brk & He & Hk' & Hc).
    destruct (check_entry_break _ _ _ _ _ _ He) as [Hb Hcount].
    rewrite Hs in Hb. subst brk. specialize (Hc is_sendto).
    split; [lia|]. exists e'. split; [done|].
    revert He Hs. unfold check_entry, sends_query, send_query.
    destruct (state e) eqn:Hst; try done.
    + destruct (query_packet _ _ _); run; [|done]. by intros [= <- _] _.
    + destruct (Z.eqb_spec ((tmr e - 1) mod 256) 0); [|done].
      destruct (Z.eqb_spec ((retries e + 1) mod 256) (max_retries cfg e)); [done|].
      destruct (query_packet _ _ _); run; [|done]. by intros [= <- _] _.
Qed.
End Driver.

(** ** resolv_query and resolv_lookup *)

Section Table.

Context (cfg : config) (mdns_responder : list Z -> result (list event)).

(** *** Strings *)

Lemma strncpy_short dst src n :
  (length src <= n)%nat ->
  strncpy dst src n = src ++ replicate (n - length src) 0 ++ drop n dst.
Proof.
  intros H. unfold strncpy. rewrite take_app_ge by done.
  rewrite take_replicate, <- app_assoc. do 3 f_equal. lia.
Qed.

Lemma strncpy_twice dst src n :
  strncpy (strncpy dst src n) src n = strncpy dst src n.
Proof.
  unfold strncpy. f_equal. rewrite drop_app_length'; [done|].
  rewrite length_take, length_app, length_replicate. lia.
Qed.

Lemma strcmp_eq_self s rest : strcmp_eq (s ++ 0 :: rest) s = Ok true.
Proof.
  induction s as [|c s IH]; [done|].
  cbn [app strcmp_eq]. by rewrite Z.eqb_refl.
Qed.

Lemma strcmp_eq_stored dst nm :
  (length nm <= RESOLV_CONF_MAX_DOMAIN_NAME_SIZE)%nat ->
  strcmp_eq (strncpy dst nm (S RESOLV_CONF_MAX_DOMAIN_NAME_SIZE)) nm = Ok true.
Proof.
  intros H. rewrite strncpy_short by lia.
  replace (S RESOLV_CONF_MAX_DOMAIN_NAME_SIZE - length nm)%nat
    with (S (RESOLV_CONF_MAX_DOMAIN_NAME_SIZE - length nm)) by lia.
  cbn [replicate app]. apply strcmp_eq_self.
Qed.

(** *** Trailing dots *)

Lemma split_trailing_dots n :
  exists n' k, n = n' ++ replicate k 46 /\ last n' <> Some 46.
Proof.
  induction n as [|c n IH] using rev_ind.
  - by exists [], O.
  - destruct (decide (c = 46)) as [->|Hc].
    + destruct IH as (n' & k & -> & Hl). exists n', (S k). split; [|done].
      rewrite <- app_assoc. f_equal. cbn [replicate].
      by rewrite replicate_cons_app.
    + exists (n ++ [c]), O. rewrite app_nil_r. split; [done|].
      rewrite last_snoc. congruence.
Qed.

Lemma strip_dots_spec k : forall n' pad,
  last n' <> Some 46 ->
  strip_dots (length n' + k) (n' ++ replicate k 46 ++ pad)
  = Ok (n' ++ replicate k 0 ++ pad).
Proof.
  induction k as [|k IH]; intros n' pad Hl.
  - rewrite Nat.add_0_r. cbn [replicate app].
    destruct n' as [|c n'] using rev_ind; [done|]. clear IHn'.
    rewrite last_snoc in Hl. rewrite length_app. cbn [length].
    replace (length n' + 1)%nat with (S (length n')) by lia.
    cbn [strip_dots]. rewrite <- app_assoc. cbn [app]. rewrite load_middle. run.
    destruct (Z.eqb_spec c 46); [congruence|done].
  - replace (length n' + S k)%nat with (S (length n' + k)) by lia.
    cbn [strip_dots].
    change (replicate (S k) 46) with (46 :: replicate k 46).
    change (replicate (S k) 0) with (0 :: replicate k 0).
    rewrite !replicate_cons_app, <- !app_assoc. cbn [app].
    rewrite app_assoc.
    replace (length n' + k)%nat with (length (n' ++ replicate k 46))
      by (rewrite length_app, length_replicate; lia).
    rewrite load_middle. run. cbn [Z.eqb Pos.eqb].
    rewrite insert_app_r_alt by lia. rewrite Nat.sub_diag. cbn [insert list_insert].
    rewrite <- app_assoc. by rewrite length_app, length_replicate, IH.
Qed.

Lemma Forall_nonzero_app_l (a b : list Z) :
  Forall (fun c => c <> 0) (a ++ b) -> Forall (fun c => c <> 0) a.
Proof. rewrite Forall_app. by intros [? _]. Qed.

(** The name handed on by [remove_trailing_dots] is the argument without
    its trailing dots; it does not depend on what the scratch array
    held. *)
Lemma remove_trailing_dots_ok m n :
  n <> [] -> (length n <= m)%nat -> Forall (fun c => c <> 0) n ->
  exists nm k,
    n = nm ++ replicate k 46 /\ last nm <> Some 46
    /\ forall scratch, exists scratch',
         remove_trailing_dots m scratch n = Ok (scratch', nm).
Proof.
  intros Hne Hlen Hnz. unfold remove_trailing_dots.
  destruct (last n) as [c|] eqn:Hlast; [|by apply last_None in Hlast].
  destruct (Z.eqb_spec c 46) as [->|Hc].
  - destruct (split_trailing_dots n) as (n' & k & -> & Hl).
    destruct k as [|k]; [rewrite app_nil_r in Hlast; congruence|].
    exists n', (S k). split; [done|]. split; [done|].
    intros scratch. rewrite strncpy_short by done.
    rewrite <- app_assoc, length_app, length_replicate, strip_dots_spec by done.
    run. cbn [replicate app].
    rewrite cstring_prefix by (by eapply Forall_nonzero_app_l). run. by eexists.
  - exists n, O. rewrite app_nil_r. split; [done|]. split; [congruence|].
    intros scratch. by eexists.
Qed.

(** *** The search loop *)

Lemma find_entry_passed g nm l : forall k lseq lseqi i,
  find_entry g nm l k lseq lseqi = Ok i ->
  (exists j, i = (k + j)%nat /\ (j < length l)%nat
             /\ Forall (passed nm) (take j l))
  \/ (i = lseqi /\ Forall (passed nm) l).
Proof.
  induction l as [|e l IH]; intros k lseq lseqi i.
  - cbn [find_entry]; run. intros [= <-]. by right.
  - cbn [find_entry].
    destruct (state e) eqn:Hst.
    1: { run. intros [= <-]. left. exists O. rewrite Nat.add_0_r.
         repeat split; [len|done]. }
    all: destruct (strcmp_eq (name e) nm) as [[|]|] eqn:Hcmp; run; try done.
    all: try (intros [= <-]; left; exists O; rewrite Nat.add_0_r;
              repeat split; [len|done]).
    all: assert (Hp : passed nm e) by (split; [congruence|done]).
    all: destruct (g - seqno e >? lseq); intros Hf; apply IH in Hf.
    all: destruct Hf as [(j & -> & Hj & Hpass)|[-> Hpass]].
    all: try (left; exists (S j); cbn [take length];
              repeat split; [lia|lia|by constructor]).
    all: try (right; split; [done|by constructor]).
    all: left; exists O; rewrite Nat.add_0_r; repeat split; [len|done].
Qed.


(** When no entry is unused or holds the name, the search returns the
    first entry whose difference [seqno - nameptr->seqno], taken in [int],
    is positive and the largest, and entry 0 when no difference is
    positive. *)
Lemma find_entry_evicts g nm l : forall k lseq lseqi i,
  0 <= g < 256 -> Forall (fun e => 0 <= seqno e < 256) l ->
  Forall (passed nm) l -> 0 <= lseq ->
  find_entry g nm l k lseq lseqi = Ok i ->
  (i = lseqi /\ Forall (fun e => g - seqno e <= lseq) l)
  \/ (exists j e, i = (k + j)%nat /\ l !! j = Some e /\ lseq < g - seqno e
                  /\ Forall (fun e' => g - seqno e' <= g - seqno e) l).
Proof.
  induction l as [|x l IH]; intros k lseq lseqi i Hg Hr Hp Hl.
  - cbn [find_entry]; run. intros [= <-]. by left.
  - inversion Hr as [|? ? Hx Hr']; subst.
    inversion Hp as [|? ? [Hst Hcmp] Hp']; subst.
    cbn [find_entry]. rewrite Hcmp.
    assert (Hhit : (match state x with
                    | STATE_UNUSED => mret true
                    | _ => Ok false
                    end) = Ok false) by (by destruct (state x)).
    rewrite Hhit. run.
    destruct (Z.gtb_spec (g - seqno x) lseq) as [Hgt|Hle]; intros Hf.
    + rewrite Z.mod_small in Hf by lia.
      apply IH in Hf; [|done|done|done|lia].
      destruct Hf as [[-> Hall]|(j & e & -> & Hj & Hlt & Hall)].
      * right. exists O, x. rewrite Nat.add_0_r.
        split; [done|]. split; [done|]. split; [lia|]. constructor; [lia|done].
      * right. exists (S j), e.
        split; [lia|]. split; [done|]. split; [lia|]. constructor; [lia|done].
    + apply IH in Hf; [|done|done|done|lia].
      destruct Hf as [[-> Hall]|(j & e & -> & Hj & Hlt & Hall)].
      * left. split; [done|]. constructor; [lia|done].
      * right. exists (S j), e.
        split; [lia|]. split; [done|]. split; [lia|]. constructor; [lia|done].
Qed.

(** As long as every entry was numbered before the counter last wrapped
    ([seqno] of the entry below the counter), the difference is the age
    modulo 256 and the entry evicted is the oldest. *)
Lemma find_entry_oldest_without_wraparound g nm l i e :
  0 <= g < 256 -> Forall (fun e => 0 <= seqno e < g) l ->
  Forall (passed nm) l ->
  find_entry g nm l 0 0 0 = Ok i -> l !! i = Some e ->
  Forall (fun e' => (g - seqno e') mod 256 <= (g - seqno e) mod 256) l.
Proof.
  intros Hg Hr Hp Hf He.
  assert (Hr' : Forall (fun e => 0 <= seqno e < 256) l)
    by (eapply Forall_impl; [exact Hr|]; cbn; intros; lia).
  apply find_entry_evicts in Hf; [|done|done|done|lia].
  destruct Hf as [[-> Hall]|(j & e0 & -> & Hj & Hlt & Hall)].
  - (* no positive difference: impossible below the counter *)
    assert (Hin : e ∈ l) by (by eapply list_elem_of_lookup_2).
    rewrite Forall_forall in Hall, Hr.
    specialize (Hall e Hin). specialize (Hr e Hin). cbn in *. lia.
  - cbn [Nat.add] in He. assert (e0 = e) as -> by congruence.
    assert (Hin : e ∈ l) by (by eapply list_elem_of_lookup_2).
    rewrite Forall_forall in Hall, Hr. apply Forall_forall. intros e' He'.
    specialize (Hall e' He'). pose proof (Hr e' He'). pose proof (Hr e Hin).
    cbn in *. rewrite !Z.mod_small by lia. done.
Qed.

(** *** What ticks, datagrams and lookups keep *)

Lemma kept_refl e : kept e e.
Proof. by repeat split. Qed.

Lemma kept_trans e1 e2 e3 : kept e1 e2 -> kept e2 e3 -> kept e1 e3.
Proof.
  intros (? & ? & ? & ?) (? & ? & ? & ?). repeat split; try congruence; auto.
Qed.

Lemma Forall2_kept_refl l : Forall2 kept l l.
Proof. induction l; constructor; [apply kept_refl|done]. Qed.

Lemma check_entry_kept server i e e' ev brk :
  check_entry cfg server i e = Ok (e', ev, brk) -> kept e e'.
Proof.
  unfold check_entry, send_query.
  destruct (state e) eqn:Hst.
  - intros [= <- <- <-]. apply kept_refl.
  - destruct (query_packet _ _ _); run; [|done].
    intros [= <- <- <-]. repeat split; cbn; congruence.
  - destruct (_ =? 0); [|intros [= <- <- <-]; repeat split; cbn; congruence].
    destruct (_ =? max_retries _ _);
      [intros [= <- <- <-]; repeat split; cbn; congruence|].
    destruct (query_packet _ _ _); run; [|done].
    intros [= <- <- <-]. repeat split; cbn; congruence.
  - intros [= <- <- <-]. apply kept_refl.
  - intros [= <- <- <-]. apply kept_refl.
Qed.

Lemma check_entries_from_kept server l : forall i l' ev,
  check_entries_from cfg server i l = Ok (l', ev) -> Forall2 kept l l'.
Proof.
  induction l as [|x l IH]; intros i l' ev.
  - cbn [check_entries_from]; run. intros [= <- <-]. constructor.
  - cbn [check_entries_from].
    destruct (check_entry cfg server i x) as [[[x' ev1] brk]|] eqn:Hx; run; [|done].
    apply check_entry_kept in Hx.
    destruct brk.
    + intros [= <- <-]. constructor; [done|apply Forall2_kept_refl].
    + destruct (check_entries_from cfg server (S i) l) as [[l2 ev2]|] eqn:Hl; run; [|done].
      intros [= <- <-]. constructor; [done|by eapply IH].
Qed.

Lemma insert_kept l i e e' :
  l !! i = Some e -> kept e e' -> Forall2 kept l (<[i:=e']> l).
Proof.
  intros Hi Hk. rewrite <- (list_insert_id l i e Hi) at 1.
  apply Forall2_insert; [apply Forall2_kept_refl|done].
Qed.

Lemma newdata_kept st buf st' ev :
  newdata cfg mdns_responder st buf = Ok (st', ev) ->
  Forall2 kept (names st) (names st').
Proof.
  unfold newdata.
  destruct (load16 buf 4) as [nq|]; run; [|done].
  destruct (load16 buf 6) as [na|]; run; [|done].
  destruct (load buf 2) as [f1|]; run; [|done].
  destruct (load buf 3) as [f2|]; run; [|done].
  destruct ((f1 =? 0) && (f2 =? 0)).
  { destruct (mdns_responder buf); run; [|done].
    intros [= <- <-]. apply Forall2_kept_refl. }
  destruct (load16 buf 0) as [id|]; run; [|done].
  destruct (names st !! _) as [e|] eqn:He;
    [|intros [= <- <-]; apply Forall2_kept_refl].
  destruct (state e) eqn:Hst;
    try (intros [= <- <-]; apply Forall2_kept_refl).
  destruct (_ =? 0); [intros [= <- <-]; apply Forall2_kept_refl|].
  destruct (negb _).
  { intros [= <- <-]. cbn [names with_names].
    apply (insert_kept _ _ e); [done|repeat split; cbn; congruence]. }
  destruct (skip_questions _ _ _) as [[b p]|]; run; [|done].
  destruct (scan_answers _ _ _ _) as [[a|]|]; run; [| |done].
  all: intros [= <- <-]; cbn [names with_names].
  all: apply (insert_kept _ _ e); [done|repeat split; cbn; congruence].
Qed.

Lemma resolv_lookup_names st qname st' r :
  resolv_lookup cfg st qname = Ok (st', r) -> names st' = names st.
Proof.
  unfold resolv_lookup.
  destruct (remove_trailing_dots _ _ _) as [[scratch nm]|]; run; [|done].
  destruct (_ && _); [by intros [= <- <-]|].
  destruct (lookup_entry _ _); run; [|done]. by intros [= <- <-].
Qed.

Lemma driver_steps_kept st st' :
  driver_steps cfg mdns_responder st st' -> Forall2 kept (names st) (names st').
Proof.
  induction 1 as [st|st st1 ev st2 Htick _ IH|st buf st1 ev st2 Hdata _ IH
                  |st qname st1 r st2 Hlook _ IH].
  - apply Forall2_kept_refl.
  - unfold check_entries in Htick.
    destruct (check_entries_from _ _ _ _) as [[l ev1]|] eqn:Hl; run; [|done].
    injection Htick as <- <-. apply check_entries_from_kept in Hl.
    cbn [names with_names] in IH.
    eapply Forall2_trans; [|done|done]. apply kept_trans.
  - apply newdata_kept in Hdata.
    eapply Forall2_trans; [|done|done]. apply kept_trans.
  - apply resolv_lookup_names in Hlook. by rewrite <- Hlook.
Qed.

Lemma find_entry_first g nm l i :
  find_entry g nm l 0 0 0 = Ok i -> Forall (passed nm) (take i l).
Proof.
  intros H. apply find_entry_passed in H as [(j & -> & _ & H)|[-> _]]; [done|].
  constructor.
Qed.

Lemma passed_kept nm l l' :
  Forall2 kept l l' -> Forall (passed nm) l -> Forall (passed nm) l'.
Proof.
  induction 1 as [|e e' l l' (Hn & _ & Hs & _) _ IH]; [done|].
  inversion 1 as [|? ? [Hst Hcmp] Hl]; subst.
  constructor; [|by apply IH]. split; [by apply Hs|by rewrite Hn].
Qed.



Lemma valid_name_spec n :
  valid_name n = true ->
  n <> [] /\ (length n <= RESOLV_CONF_MAX_DOMAIN_NAME_SIZE)%nat
  /\ Forall (fun c => c <> 0) n.
Proof.
  unfold valid_name. rewrite !andb_true_iff, negb_true_iff.
  rewrite bool_decide_eq_false, bool_decide_eq_true.
  intros [[H1 H2] H3]. repeat split; [done|done|].
  rewrite forallb_forall in H3. apply Forall_forall. intros c Hc.
  apply list_elem_of_In in Hc. specialize (H3 c Hc).
  apply negb_true_iff, Z.eqb_neq in H3. done.
Qed.

(** *** The table search of resolv_lookup *)

Lemma strcmp_eq_cstring arr : forall nm s,
  Forall (fun c => c <> 0) nm -> cstring arr = Ok s ->
  strcmp_eq arr nm = Ok (bool_decide (s = nm)).
Proof.
  induction arr as [|a arr IH]; intros nm s Hnz; [done|].
  cbn [cstring strcmp_eq].
  destruct (Z.eqb_spec a 0) as [->|Ha]; run.
  - intros [= <-]. destruct nm as [|c nm]; [done|].
    inversion Hnz; subst. by destruct (Z.eqb_spec 0 c).
  - destruct (cstring arr) as [s'|] eqn:Hs; run; [|done]. intros [= <-].
    destruct nm as [|c nm].
    + by destruct (Z.eqb_spec a 0).
    + inversion Hnz; subst. destruct (Z.eqb_spec a c) as [->|Hac].
      * rewrite (IH nm s') by done. f_equal.
        apply bool_decide_ext. split; congruence.
      * f_equal. symmetry. apply bool_decide_eq_false. congruence.
Qed.

Lemma lookup_entry_cached nm l :
  Forall (fun c => c <> 0) nm -> forallb terminated l = true ->
  lookup_entry nm l = Ok (cached nm l).
Proof.
  intros Hnz. induction l as [|e l IH]; [done|].
  cbn [forallb]. rewrite andb_true_iff. intros [Ht Hl].
  cbn [lookup_entry cached]. unfold terminated in Ht.
  destruct (cstring (name e)) as [s|] eqn:Hs; [|done].
  destruct (state e); run; try by apply IH.
  rewrite (strcmp_eq_cstring _ _ s) by done. run.
  rewrite (bool_decide_ext (Ok s = Ok nm) (s = nm)) by (split; congruence).
  destruct (bool_decide (s = nm)); [done|by apply IH].
Qed.

(** What [resolv_lookup] returns for a name [nm] followed by [k] dots:
    the loopback address for every name but "localhost" where the
    loopback interface is configured; otherwise the address of the first
    entry in STATE_DONE that holds [nm], if there is one. *)
Lemma resolv_lookup_table st n :
  valid_name n = true -> forallb terminated (names st) = true ->
  exists nm k scratch,
    n = nm ++ replicate k 46 /\ last nm <> Some 46
    /\ resolv_lookup cfg st n
       = Ok (with_scratch st scratch,
             if UIP_CONF_LOOPBACK_INTERFACE cfg
                && negb (bool_decide (nm = cstr "localhost"))
             then Some (loopback cfg) else cached nm (names st)).
Proof.
  intros Hv Ht. destruct (valid_name_spec n Hv) as (Hne & Hlen & Hnz).
  destruct (remove_trailing_dots_ok RESOLV_CONF_MAX_DOMAIN_NAME_SIZE n)
    as (nm & k & Hnk & Hl & Hrem); [done..|].
  destruct (Hrem (dns_name_without_dots st)) as [scratch Hr].
  exists nm, k, scratch. split; [done|]. split; [done|].
  unfold resolv_lookup. rewrite Hr. run.
  destruct (_ && _); [done|].
  cbn [names with_scratch]. rewrite lookup_entry_cached; [done| |done].
  rewrite Hnk in Hnz. by eapply Forall_nonzero_app_l.
Qed.

End Table.

(** ** Reachable states

    The invariant of the table, and what it gives for the entries that
    [resolv_query] writes. *)

Section Reach.
Context (cfg : config) (mdns_responder : list Z -> result (list event)).

Lemma length_canonical s :
  (length s <= RESOLV_CONF_MAX_DOMAIN_NAME_SIZE)%nat ->
  length (canonical s) = S RESOLV_CONF_MAX_DOMAIN_NAME_SIZE.
Proof. intros H. unfold canonical. rewrite length_app, length_replicate. lia. Qed.

Lemma canonical_split s :
  (length s <= RESOLV_CONF_MAX_DOMAIN_NAME_SIZE)%nat ->
  canonical s = s ++ 0 :: replicate (RESOLV_CONF_MAX_DOMAIN_NAME_SIZE - length s) 0.
Proof.
  intros H. unfold canonical.
  by replace (S RESOLV_CONF_MAX_DOMAIN_NAME_SIZE - length s)%nat
    with (S (RESOLV_CONF_MAX_DOMAIN_NAME_SIZE - length s)) by lia.
Qed.

Lemma cstring_canonical s :
  (length s <= RESOLV_CONF_MAX_DOMAIN_NAME_SIZE)%nat ->
  Forall (fun c => c <> 0) s -> cstring (canonical s) = Ok s.
Proof. intros H Hz. rewrite canonical_split by done. by apply cstring_prefix. Qed.

Lemma strcmp_eq_canonical s :
  (length s <= RESOLV_CONF_MAX_DOMAIN_NAME_SIZE)%nat ->
  strcmp_eq (canonical s) s = Ok true.
Proof. intros H. rewrite canonical_split by done. apply strcmp_eq_self. Qed.

Lemma strncpy_canonical dst nm :
  length dst = S RESOLV_CONF_MAX_DOMAIN_NAME_SIZE ->
  (length nm <= RESOLV_CONF_MAX_DOMAIN_NAME_SIZE)%nat ->
  strncpy dst nm (S RESOLV_CONF_MAX_DOMAIN_NAME_SIZE) = canonical nm.
Proof.
  intros Hd Hn. rewrite strncpy_short by lia.
  rewrite drop_ge by lia. by rewrite app_nil_r.
Qed.

Lemma stored_terminated e : stored_name e -> terminated e = true.
Proof.
  intros (s & Hs & Hl & Hz). unfold terminated.
  by rewrite Hs, cstring_canonical.
Qed.

Lemma table_inv_ok l : table_inv cfg l -> table_ok cfg l = true.
Proof.
  intros I. apply table_ok_parts. split; [apply I|]. split; [|apply I].
  apply forallb_forall. intros e He. apply stored_terminated.
  pose proof (inv_stored _ _ I) as Hs. rewrite Forall_forall in Hs.
  apply Hs. by apply list_elem_of_In.
Qed.

Lemma newdata_changes st buf st' ev :
  newdata cfg mdns_responder st buf = Ok (st', ev) ->
  names st' = names st
  \/ exists i e e', names st !! i = Some e /\ state e = STATE_ASKING
       /\ names st' = <[i:=e']> (names st)
       /\ name e' = name e /\ is_mdns e' = is_mdns e
       /\ (state e' = STATE_ERROR \/ state e' = STATE_DONE).
Proof.
  unfold newdata.
  destruct (load16 buf 4) as [nq|]; run; [|done].
  destruct (load16 buf 6) as [na|]; run; [|done].
  destruct (load buf 2) as [f1|]; run; [|done].
  destruct (load buf 3) as [f2|]; run; [|done].
  destruct ((f1 =? 0) && (f2 =? 0)).
  { destruct (mdns_responder buf); run; [|done]. intros [= <- <-]. by left. }
  destruct (load16 buf 0) as [id|]; run; [|done].
  destruct (names st !! _) as [e|] eqn:He; [|intros [= <- <-]; by left].
  destruct (state e) eqn:Hst; try (intros [= <- <-]; by left).
  destruct (_ =? 0); [intros [= <- <-]; by left|].
  destruct (negb _).
  { intros [= <- <-]. right. eexists _, e, _. cbn [names with_names].
    repeat split; try done. by left. }
  destruct (skip_questions _ _ _) as [[b p]|]; run; [|done].
  destruct (scan_answers _ _ _ _) as [[a|]|]; run; [| |done].
  all: intros [= <- <-]; right; eexists _, e, _; cbn [names with_names].
  all: repeat split; try done; by (left + right).
Qed.

Lemma forallb_insert {A} (f : A -> bool) l i x :
  forallb f l = true -> f x = true -> forallb f (<[i:=x]> l) = true.
Proof.
  revert i. induction l as [|y l IH]; intros i; [done|].
  cbn [forallb]. rewrite andb_true_iff. intros [Hy Hl] Hx.
  destruct i as [|i]; cbn [insert list_insert forallb]; rewrite andb_true_iff.
  - done.
  - split; [done|]. by apply IH.
Qed.

Lemma newdata_sane st buf st' ev :
  newdata cfg mdns_responder st buf = Ok (st', ev) ->
  forallb (sane cfg) (names st) = true -> forallb (sane cfg) (names st') = true.
Proof.
  intros H Hs. apply newdata_changes in H as [->|(i & e & e' & _ & _ & -> & _ & _ & Hst)];
    [done|].
  apply forallb_insert; [done|]. unfold sane. by destruct Hst as [->| ->].
Qed.

Lemma check_entries_sane st st' ev :
  config_ok cfg = true -> table_ok cfg (names st) = true ->
  check_entries cfg st = Ok (st', ev) ->
  forallb (sane cfg) (names st') = true.
Proof.
  intros Hcfg Hok. apply table_ok_parts in Hok as (Hs & Ht & Hl).
  destruct (scan_table cfg (resolv_default_dns_server st) (names st) 0)
    as (l' & ev' & Hscan & Hs' & _); [done|lia|done|done|].
  unfold check_entries. rewrite Hscan. run. by intros [= <- <-].
Qed.

Lemma canonical_nil_unused : name (unused_entry cfg) = canonical [].
Proof. done. Qed.

Lemma table_inv_init entries :
  (entries <= 255)%nat -> table_inv cfg (replicate entries (unused_entry cfg)).
Proof.
  intros Hn. split.
  - intros i j e e' _ _ [-> _]%lookup_replicate _. done.
  - intros i e [-> _]%lookup_replicate _. done.
  - intros i j e e' [-> _]%lookup_replicate _ H. done.
  - apply Forall_replicate. exists []. repeat split; [cbn; lia|constructor].
  - induction entries as [|n IH]; [done|]. cbn [replicate forallb].
    rewrite IH by lia. done.
  - by rewrite length_replicate.
Qed.

Lemma kept_unused_back e e' :
  kept e e' -> (state e' = STATE_UNUSED <-> state e = STATE_UNUSED).
Proof.
  intros (_ & _ & Hu & Hn). split; [|done].
  intros H. destruct (decide (state e = STATE_UNUSED)) as [|Hne]; [done|].
  by apply Hu in Hne.
Qed.

Lemma table_inv_kept l l' :
  table_inv cfg l -> Forall2 kept l l' -> forallb (sane cfg) l' = true ->
  table_inv cfg l'.
Proof.
  intros I Hk Hs. split.
  - intros i j e e' Hij Hi Hj Hu.
    destruct (Forall2_lookup_r _ _ _ _ _ Hk Hi) as (e0 & Hi0 & Hk0).
    destruct (Forall2_lookup_r _ _ _ _ _ Hk Hj) as (e0' & Hj0 & Hk0').
    apply (kept_unused_back _ _ Hk0'). apply (kept_unused_back _ _ Hk0) in Hu.
    by eapply (inv_suffix _ _ I i j).
  - intros i e Hi Hu.
    destruct (Forall2_lookup_r _ _ _ _ _ Hk Hi) as (e0 & Hi0 & Hk0).
    apply (kept_unused_back _ _ Hk0) in Hu. destruct Hk0 as (-> & _).
    by eapply (inv_zero _ _ I).
  - intros i j e e' Hi Hj Hu Hu' Hn.
    destruct (Forall2_lookup_r _ _ _ _ _ Hk Hi) as (e0 & Hi0 & Hk0).
    destruct (Forall2_lookup_r _ _ _ _ _ Hk Hj) as (e0' & Hj0 & Hk0').
    apply (inv_distinct _ _ I i j e0 e0'); try done.
    + by rewrite <- (kept_unused_back _ _ Hk0).
    + by rewrite <- (kept_unused_back _ _ Hk0').
    + destruct Hk0 as (<- & _), Hk0' as (<- & _). done.
  - pose proof (inv_stored _ _ I) as Hst.
    clear -Hk Hst. induction Hk as [|e e' l l' (Hn & _) _ IH]; [done|].
    inversion Hst as [|? ? (s & Hs) Hst']; subst.
    constructor; [|by apply IH]. exists s. by rewrite Hn.
  - done.
  - rewrite <- (Forall2_length _ _ _ Hk). apply I.
Qed.

Lemma find_entry_cases g nm l : forall k lseq lseqi i,
  find_entry g nm l k lseq lseqi = Ok i ->
  (exists j e, i = (k + j)%nat /\ l !! j = Some e
               /\ Forall (passed nm) (take j l)
               /\ (state e = STATE_UNUSED \/ holds nm e))
  \/ Forall (passed nm) l.
Proof.
  induction l as [|x l IH]; intros k lseq lseqi i.
  - cbn [find_entry]; run. intros _. by right.
  - cbn [find_entry].
    destruct (decide (state x = STATE_UNUSED)) as [Hu|Hu].
    { rewrite Hu. run. intros [= <-]. left. exists O, x.
      rewrite Nat.add_0_r. repeat split; [constructor|by left]. }
    assert (Hm : (match state x with
                  | STATE_UNUSED => mret true
                  | _ => strcmp_eq (name x) nm
                  end) = strcmp_eq (name x) nm) by (by destruct (state x)).
    rewrite Hm.
    destruct (strcmp_eq (name x) nm) as [[|]|] eqn:Hcmp; run; [| |done].
    { intros [= <-]. left. exists O, x. rewrite Nat.add_0_r.
      repeat split; [constructor|by right]. }
    assert (Hp : passed nm x) by done.
    destruct (g - seqno x >? lseq); intros Hf; apply IH in Hf.
    all: destruct Hf as [(j & e & -> & Hj & Hpass & Hhit)|Hpass].
    all: try (right; by constructor).
    all: left; exists (S j), e; cbn [take];
      repeat split; [lia|done|by constructor|done].
Qed.

Lemma passed_not_canonical nm e :
  (length nm <= RESOLV_CONF_MAX_DOMAIN_NAME_SIZE)%nat ->
  passed nm e -> name e <> canonical nm.
Proof.
  intros Hl [_ Hcmp] Heq. rewrite Heq, strcmp_eq_canonical in Hcmp by done.
  done.
Qed.

Lemma holds_canonical nm e :
  Forall (fun c => c <> 0) nm -> stored_name e -> holds nm e ->
  name e = canonical nm.
Proof.
  intros Hz (s & Hs & Hl & Hsz) [_ Hcmp]. rewrite Hs in Hcmp.
  rewrite (strcmp_eq_cstring _ _ s) in Hcmp by (by try apply cstring_canonical).
  injection Hcmp as Hb. apply bool_decide_eq_true in Hb. by rewrite Hs, Hb.
Qed.

Lemma table_inv_insert l i e0 e1 nm :
  table_inv cfg l -> l !! i = Some e0 ->
  state e1 = STATE_NEW -> name e1 = canonical nm ->
  (length nm <= RESOLV_CONF_MAX_DOMAIN_NAME_SIZE)%nat ->
  Forall (fun c => c <> 0) nm ->
  Forall (passed nm) (take i l) ->
  state e0 = STATE_UNUSED \/ holds nm e0 \/ Forall (passed nm) l ->
  table_inv cfg (<[i:=e1]> l).
Proof.
  intros I Hi Hst Hnm Hl Hz Hbefore Hcase.
  assert (Hlen : (i < length l)%nat) by (by eapply lookup_lt_Some).
  assert (Hb : forall j e, (j < i)%nat -> l !! j = Some e -> passed nm e).
  { intros j e Hj He. rewrite Forall_forall in Hbefore. apply Hbefore.
    apply elem_of_take. eauto. }
  assert (Hfresh : forall j e, j <> i -> l !! j = Some e ->
                     state e <> STATE_UNUSED -> name e <> canonical nm).
  { intros j e Hj He Hu.
    destruct (decide (j < i)%nat) as [Hlt|Hge].
    { apply passed_not_canonical; [done|]. by eapply Hb. }
    destruct Hcase as [Hu0|[Hh|Hall]].
    - exfalso. apply Hu. eapply (inv_suffix _ _ I i j); [lia|done..].
    - intros Heq. apply Hj. symmetry.
      eapply (inv_distinct _ _ I i j); try done; [apply Hh|].
      rewrite Heq. apply holds_canonical; [done| |done].
      pose proof (inv_stored _ _ I) as Hs. rewrite Forall_forall in Hs.
      apply Hs. by eapply list_elem_of_lookup_2.
    - apply passed_not_canonical; [done|]. rewrite Forall_forall in Hall.
      apply Hall. by eapply list_elem_of_lookup_2. }
  split.
  - intros a b e e' Hab Ha Hb' Hu.
    destruct (decide (a = i)) as [->|Hai].
    { rewrite list_lookup_insert_eq in Ha by done. injection Ha as <-. congruence. }
    rewrite list_lookup_insert_ne in Ha by done.
    destruct (decide (b = i)) as [->|Hbi].
    { exfalso. destruct (Hb a e Hab Ha) as [Hne _]. done. }
    rewrite list_lookup_insert_ne in Hb' by done.
    by eapply (inv_suffix _ _ I a b).
  - intros a e Ha Hu.
    destruct (decide (a = i)) as [->|Hai].
    { rewrite list_lookup_insert_eq in Ha by done. injection Ha as <-. congruence. }
    rewrite list_lookup_insert_ne in Ha by done. by eapply (inv_zero _ _ I).
  - intros a b e e' Ha Hb' Hu Hu' Hn.
    destruct (decide (a = i)) as [->|Hai], (decide (b = i)) as [->|Hbi]; try done.
    + rewrite list_lookup_insert_eq in Ha by done. injection Ha as <-.
      rewrite list_lookup_insert_ne in Hb' by done.
      exfalso. apply (Hfresh b e'); try done. congruence.
    + rewrite list_lookup_insert_eq in Hb' by done. injection Hb' as <-.
      rewrite list_lookup_insert_ne in Ha by done.
      exfalso. apply (Hfresh a e); try done. congruence.
    + rewrite list_lookup_insert_ne in Ha, Hb' by done.
      by eapply (inv_distinct _ _ I a b).
  - apply Forall_insert; [apply I|]. by exists nm.
  - apply forallb_insert; [apply I|]. unfold sane. by rewrite Hst.
  - rewrite length_insert. apply I.
Qed.

Lemma resolv_query_inv st qname st' ev :
  table_inv cfg (names st) -> valid_name qname = true ->
  resolv_query cfg st qname = Ok (st', ev) -> table_inv cfg (names st').
Proof.
  intros I Hv. destruct (valid_name_spec qname Hv) as (Hne & Hlen & Hnz).
  destruct (remove_trailing_dots_ok (S RESOLV_CONF_MAX_DOMAIN_NAME_SIZE) qname)
    as (nm & k & Hnk & _ & Hrem); [done|lia|done|].
  assert (Hnl : (length nm <= length qname)%nat) by (rewrite Hnk; len).
  assert (Hnmz : Forall (fun c => c <> 0) nm)
    by (rewrite Hnk in Hnz; by eapply Forall_nonzero_app_l).
  unfold resolv_query.
  destruct (Hrem (dns_name_without_dots st)) as [s1 Hr1]. rewrite Hr1. run.
  destruct (find_entry _ _ _ _ _ _) as [i|] eqn:Hfind; run; [|done].
  destruct (names st !! i) as [e0|] eqn:He0; [|done].
  intros [= <- <-]. cbn [names].
  pose proof (find_entry_first _ _ _ _ Hfind) as Hbefore.
  assert (Hst0 : stored_name e0).
  { pose proof (inv_stored _ _ I) as Hs. rewrite Forall_forall in Hs.
    apply Hs. by eapply list_elem_of_lookup_2. }
  apply (table_inv_insert _ _ e0 _ nm); try done; try lia.
  - destruct (RESOLV_CONF_SUPPORTS_MDNS cfg); cbn [name set_seqno set_state set_name set_is_mdns];
      destruct Hst0 as (s & Hs & Hsl & _);
      apply strncpy_canonical; try lia; rewrite Hs; by apply length_canonical.
  - apply find_entry_cases in Hfind as [(j & e & -> & Hj & _ & Hhit)|Hall];
      [|by right; right].
    cbn [Nat.add] in He0. assert (e = e0) as -> by congruence.
    destruct Hhit; [by left|by right; left].
Qed.

Theorem reachable_inv st :
  config_ok cfg = true -> reachable cfg mdns_responder st -> table_inv cfg (names st).
Proof.
  intros Hcfg. induction 1 as [n server Hn|st qn st' ev _ IH Hv Hq
                              |st st' ev _ IH Ht|st buf st' ev _ IH Hd
                              |st qn st' r _ IH Hl].
  - by apply table_inv_init.
  - by eapply resolv_query_inv.
  - apply (table_inv_kept (names st)); [done| |].
    + apply (driver_steps_kept cfg mdns_responder).
      eapply driver_tick; [done|apply driver_refl].
    + eapply check_entries_sane; [done| |done]. by apply table_inv_ok.
  - apply (table_inv_kept (names st)); [done| |].
    + by eapply newdata_kept.
    + eapply newdata_sane; [done|]. apply IH.
  - apply resolv_lookup_names in Hl. by rewrite Hl.
Qed.

(** In a reachable table the entries around an entry in use either carry
    another name or are unused. *)
Lemma table_inv_others l i e :
  table_inv cfg l -> l !! i = Some e -> state e <> STATE_UNUSED ->
  other_names (name e) (take i l ++ drop (S i) l) = true.
Proof.
  intros I Hi Hu. unfold other_names. apply forallb_forall. intros x Hx.
  apply list_elem_of_In, list_elem_of_lookup in Hx as [j Hj].
  assert (Hlen : (i < length l)%nat) by (by eapply lookup_lt_Some).
  assert (exists j', j' <> i /\ l !! j' = Some x) as (j' & Hne & Hj').
  { destruct (decide (j < i)%nat) as [Hlt|Hge].
    - rewrite lookup_app_l in Hj by (rewrite length_take; lia).
      rewrite lookup_take_lt in Hj by done. exists j. split; [lia|done].
    - rewrite lookup_app_r in Hj by (rewrite length_take; lia).
      rewrite length_take, lookup_drop in Hj.
      exists (S i + (j - i `min` length l))%nat. split; [lia|done]. }
  unfold other_entry, pending.
  destruct (decide (name x = name e)) as [Heq|Heq].
  - rewrite bool_decide_eq_true_2 by done. cbn [negb orb].
    destruct (decide (state x = STATE_UNUSED)) as [->|Hux]; [done|].
    exfalso. apply Hne. by eapply (inv_distinct _ _ I j' i).
  - by rewrite bool_decide_eq_false_2.
Qed.

(** C6. In every state that the resolver reaches, an entry that has been
    queried (it is in STATE_NEW) and gets no response reaches STATE_ERROR
    after a finite number [T] of ticks, whatever the other entries of the
    table are doing: before that it is pending and no failure of its name
    has been announced; from then on, however many ticks follow, its retry
    count is the configured maximum [M] ([RESOLV_CONF_MAX_MDNS_RETRIES]
    for an mDNS entry of a build that supports mDNS,
    [RESOLV_CONF_MAX_RETRIES] for every other entry), exactly [M]
    questions carrying its id have been sent, and exactly one
    notification with a null address has been posted for its name. *)
Theorem retries_exhausted st i e :
  config_ok cfg = true -> reachable cfg mdns_responder st ->
  names st !! i = Some e -> state e = STATE_NEW ->
  let M := if RESOLV_CONF_SUPPORTS_MDNS cfg && is_mdns e
           then RESOLV_CONF_MAX_MDNS_RETRIES cfg
           else RESOLV_CONF_MAX_RETRIES cfg in
  exists T, forall t, exists st' ev e',
    ticks cfg t st = Ok (st', ev)
    /\ names st' !! i = Some e'
    /\ ((t < T)%nat ->
        pending e' = true /\ count_if (is_failure (name e)) ev = O)
    /\ ((T <= t)%nat ->
        state e' = STATE_ERROR
        /\ retries e' = M
        /\ count_if (is_failure (name e)) ev = 1%nat
        /\ count_if (is_query_of i) ev = Z.to_nat M).
Proof.
  intros Hcfg Hr Hi Hst M.
  assert (HM : max_retries cfg e = M) by done.
  pose proof (reachable_inv st Hcfg Hr) as I.
  assert (Hlen : (i < length (names st))%nat) by (by eapply lookup_lt_Some).
  assert (Hpre : length (take i (names st)) = i) by (rewrite length_take; lia).
  destruct (retries_exhausted_from cfg st (take i (names st)) e
              (drop (S i) (names st))) as [T HT]; try done.
  - by rewrite take_drop_middle.
  - by apply table_inv_ok.
  - apply table_inv_others; [done..|]. by rewrite Hst.
  - exists T. intros t. destruct (HT t) as (st' & ev & e' & H).
    exists st', ev, e'. by rewrite Hpre, HM in H.
Qed.

End Reach.

(** ** The name codec *)

Lemma split_dots_cons s : exists l ls, split_dots s = l :: ls.
Proof.
  destruct s as [|c s]; cbn [split_dots]; [by eexists _, _|].
  destruct (c =? 46); [by eexists _, _|].
  destruct (split_dots s); by eexists _, _.
Qed.

Lemma join_dots_cons l l' ls :
  join_dots (l :: l' :: ls) = l ++ 46 :: join_dots (l' :: ls).
Proof. done. Qed.

Lemma join_split_dots s : join_dots (split_dots s) = s.
Proof.
  induction s as [|c s IH]; [done|]. cbn [split_dots].
  destruct (split_dots_cons s) as (l & ls & Hs). rewrite Hs in IH |- *.
  destruct (Z.eqb_spec c 46) as [->|Hc].
  - by rewrite join_dots_cons, IH.
  - destruct ls as [|l' ls]; [cbn [join_dots] in *; by rewrite IH|].
    rewrite join_dots_cons in IH |- *. cbn [app]. by rewrite IH.
Qed.

Lemma encode_name_from_length s : forall lab,
  length (encode_name_from s lab) = (length s + length lab + 2)%nat.
Proof.
  induction s as [|c s IH]; intros lab; cbn [encode_name_from].
  - rewrite length_app. cbn [length]. lia.
  - destruct (c =? 46).
    + cbn [app length]. rewrite length_app, IH. cbn [length]. lia.
    + rewrite IH, length_app. cbn [length]. lia.
Qed.

Lemma encode_name_from_split s : forall lab,
  encode_name_from s lab
  = match split_dots s with
    | l :: ls =>
      concat (map (fun l => Z.of_nat (length l) mod 256 :: l) ((lab ++ l) :: ls))
      ++ [0]
    | [] => []
    end.
Proof.
  induction s as [|c s IH]; intros lab; cbn [encode_name_from split_dots].
  - cbn [map concat]. by rewrite !app_nil_r.
  - destruct (Z.eqb_spec c 46) as [->|Hc].
    + rewrite IH. destruct (split_dots_cons s) as (l & ls & ->).
      cbn [map concat app]. rewrite !app_nil_r. cbn [app].
      f_equal. rewrite <- !app_assoc. cbn [app]. by rewrite <- ?app_assoc.
    + rewrite IH. destruct (split_dots_cons s) as (l & ls & ->).
      by rewrite <- app_assoc.
Qed.

Lemma wire_labels_mod ls :
  Forall (fun l => (length l < 256)%nat) ls ->
  concat (map (fun l => Z.of_nat (length l) mod 256 :: l) ls) = wire_labels ls.
Proof.
  induction 1 as [|l ls Hl _ IH]; [done|].
  unfold wire_labels in *. cbn [map concat]. rewrite IH, Z.mod_small by lia. done.
Qed.

Lemma encode_name_length s : length (encode_name s) = (length s + 2)%nat.
Proof. unfold encode_name. rewrite encode_name_from_length. cbn [length]. lia. Qed.

Lemma encode_name_labels s :
  Forall (fun l => (length l < 256)%nat) (split_dots s) ->
  encode_name s = wire_labels (split_dots s) ++ [0].
Proof.
  intros Hl. unfold encode_name. rewrite encode_name_from_split.
  destruct (split_dots s) as [|l ls] eqn:Hs.
  { destruct (split_dots_cons s) as (? & ? & ?). congruence. }
  cbn [app]. by rewrite wire_labels_mod.
Qed.

(** X1. [encode_name] writes two bytes more than the name is long, whatever
    the name; when no label of the name is longer than 255 characters,
    what it writes is every label behind its length byte, and a closing
    zero. *)
Theorem encode_name_wire s :
  length (encode_name s) = (length s + 2)%nat
  /\ (Forall (fun l => (length l < 256)%nat) (split_dots s) ->
      encode_name s = wire_labels (split_dots s) ++ [0]).
Proof. split; [apply encode_name_length|apply encode_name_labels]. Qed.

Lemma split_dots_nonzero s :
  Forall (fun c => c <> 0) s -> Forall (Forall (fun c => c <> 0)) (split_dots s).
Proof.
  induction 1 as [|c s Hc _ IH]; cbn [split_dots].
  - by repeat constructor.
  - destruct (c =? 46); [by constructor|].
    destruct (split_dots s) as [|l ls]; [by repeat constructor|].
    apply Forall_cons in IH as [Hl Hls]. constructor; [by constructor|done].
Qed.

Lemma label_ok_256 ls :
  Forall label_ok ls -> Forall (fun l => (length l < 256)%nat) ls.
Proof. intros H. eapply Forall_impl; [exact H|]. intros l [_ Hl]. lia. Qed.

(** X2. [parse_name] undoes [encode_name]: walking the encoding of a name
    whose labels are not empty and shorter than 64 characters ends right
    behind it and leaves the name, as a C string, one byte behind where
    the encoding began. *)
Theorem parse_name_encode_name s pre post :
  Forall label_ok (split_dots s) -> Forall (fun c => c <> 0) s ->
  parse_name (pre ++ encode_name s ++ post) (length pre)
  = Ok (pre ++ 46 :: s ++ 0 :: post, (length pre + length s + 2)%nat)
  /\ cstring (drop (S (length pre)) (pre ++ 46 :: s ++ 0 :: post)) = Ok s.
Proof.
  intros Hl Hz.
  pose proof (encode_name_length s) as Hlen.
  pose proof (encode_name_labels s (label_ok_256 _ Hl)) as Hw.
  destruct (split_dots_cons s) as (l & ls & Hs).
  assert (Hne : split_dots s <> []) by (by rewrite Hs).
  pose proof (parse_name_labels (split_dots s) pre post Hl Hne) as Hp.
  pose proof (text_after_parse (split_dots s) pre post Hne (split_dots_nonzero s Hz)) as Ht.
  rewrite dotted_join, join_split_dots in Hp, Ht by done.
  rewrite Hw, <- app_assoc. cbn [app] in *. rewrite Hp. split; [|done].
  do 2 f_equal. rewrite Hw, length_app in Hlen. cbn [length] in Hlen. lia.
Qed.

Section Scan.
Context (cfg : config).

Lemma with_names_same st : with_names st (names st) = st.
Proof. by destruct st. Qed.

Lemma scan_quiet server l : forall k,
  quiet l = true -> check_entries_from cfg server k l = Ok (l, []).
Proof.
  induction l as [|x l IH]; intros k Hq; [done|].
  unfold quiet in Hq. rewrite forallb_cons in Hq.
  apply andb_true_iff in Hq as [Hx Hq]. apply negb_true_iff in Hx.
  cbn [check_entries_from]. unfold check_entry, pending in *.
  destruct (state x); try done; run; by rewrite IH.
Qed.

(** X3. A table without a new or asking entry is left alone by the scan:
    nothing changes, nothing is sent and the retry timer is not set
    again. *)
Theorem check_entries_quiet st :
  quiet (names st) = true -> check_entries cfg st = Ok (st, []).
Proof.
  intros Hq. unfold check_entries. rewrite scan_quiet by done. run.
  by rewrite with_names_same.
Qed.

Lemma check_entry_scanned server i e e' ev brk :
  check_entry cfg server i e = Ok (e', ev, brk) ->
  scanned e e' /\ forallb scan_event ev = true.
Proof.
  unfold check_entry, send_query.
  destruct (state e) eqn:Hs.
  1,4,5: by intros [= <- <- <-]; split; [left|].
  - destruct (query_packet _ _ _) as [pkt|]; run; [|done].
    intros [= <- <- <-]. split; [|by destruct (uses_mdns _ _)].
    right. cbn. repeat split; try done. by left.
  - destruct (_ =? 0).
    + destruct (_ =? max_retries _ _).
      * intros [= <- <- <-]. split; [|done]. right. cbn.
        repeat split; try done. right. split; [done|by right].
      * destruct (query_packet _ _ _) as [pkt|]; run; [|done].
        intros [= <- <- <-]. split; [|by destruct (uses_mdns _ _)].
        right. cbn. repeat split; try done. right. split; [done|]. left. done.
    + intros [= <- <- <-]. split; [|done]. right. cbn.
      repeat split; try done. right. split; [done|]. left. done.
Qed.

Lemma Forall2_scanned_refl l : Forall2 scanned l l.
Proof. induction l; constructor; [by left|done]. Qed.

Lemma check_entries_from_scanned server l : forall i l' ev,
  check_entries_from cfg server i l = Ok (l', ev) ->
  Forall2 scanned l l' /\ forallb scan_event ev = true.
Proof.
  induction l as [|x l IH]; intros i l' ev; cbn [check_entries_from].
  - by intros [= <- <-].
  - destruct (check_entry cfg server i x) as [[[x' ev1] brk]|] eqn:Hx; run; [|done].
    apply check_entry_scanned in Hx as [Hx Hev].
    destruct brk.
    + intros [= <- <-]. split; [|done]. constructor; [done|].
      apply Forall2_scanned_refl.
    + destruct (check_entries_from cfg server (S i) l) as [[l2 ev2]|] eqn:Hl;
        run; [|done].
      intros [= <- <-]. apply IH in Hl as [Hl Hev2]. split.
      * by constructor.
      * rewrite forallb_app. by rewrite Hev, Hev2.
Qed.

(** X4. Whatever the table holds, a scan changes nothing but the state,
    the timer and the retry count of entries that are new or being asked:
    a new entry may become asking, an asking one may fail, no entry is
    resolved, freed, renamed or given an address, and the sequence
    counter, the server and the size of the table stay. A scan emits
    nothing but timer settings, datagrams and failures. *)
Theorem check_entries_frame st st' ev :
  check_entries cfg st = Ok (st', ev) ->
  Forall2 scanned (names st) (names st')
  /\ forallb scan_event ev = true
  /\ g_seqno st' = g_seqno st
  /\ resolv_default_dns_server st' = resolv_default_dns_server st
  /\ dns_name_without_dots st' = dns_name_without_dots st.
Proof.
  unfold check_entries.
  destruct (check_entries_from _ _ _ _) as [[l ev']|] eqn:Hl; run; [|done].
  intros [= <- <-]. by apply check_entries_from_scanned in Hl as [Hl Hev].
Qed.

End Scan.

Section Lone.
Context (cfg : config).

(** A scan of a table in which no entry in front of the one behind [pre]
    is pending, and which ends at that entry or finds none pending behind
    it. *)
Lemma scan_lone server pre : forall k e post e' ev brk,
  quiet pre = true -> brk = true \/ quiet post = true ->
  check_entry cfg server (k + length pre) e = Ok (e', ev, brk) ->
  check_entries_from cfg server k (pre ++ e :: post) = Ok (pre ++ e' :: post, ev).
Proof.
  induction pre as [|x pre IH]; intros k e post e' ev brk Hpre Hpost Hstep.
  - cbn [app length] in *. rewrite Nat.add_0_r in Hstep.
    cbn [check_entries_from]. rewrite Hstep. run.
    destruct brk; [done|]. destruct Hpost as [|Hpost]; [done|].
    rewrite scan_quiet by done. run. by rewrite app_nil_r.
  - unfold quiet in Hpre. rewrite forallb_cons in Hpre.
    apply andb_true_iff in Hpre as [Hx Hpre]. apply negb_true_iff in Hx.
    cbn [app length check_entries_from] in *.
    assert (Hcx : check_entry cfg server k x = Ok (x, [], false)).
    { unfold check_entry, pending in *. by destruct (state x). }
    rewrite Hcx. run.
    rewrite (IH (S k) e post e' ev brk); [done|done|done|].
    by replace (S k + length pre)%nat with (k + S (length pre))%nat by lia.
Qed.

Lemma quiet_app l1 l2 : quiet (l1 ++ l2) = quiet l1 && quiet l2.
Proof. unfold quiet. apply forallb_app. Qed.

Lemma entry_cost_pending e :
  config_ok cfg = true -> sane cfg e = true ->
  pending e = true -> (0 < entry_cost cfg e)%nat.
Proof.
  intros Hcfg Hs Hp. pose proof (max_retries_bounds cfg e Hcfg) as Hm.
  unfold entry_cost, pending, sane in *. destruct (state e); try done; [lia|].
  bools. destruct Hs as [[[Ht1 Ht2] Hr1] Hr2].
  assert (tri (Z.to_nat (retries e)) <= tri (Z.to_nat (max_retries cfg e) - 1))%nat
    by (apply tri_mono; lia).
  lia.
Qed.

Lemma entry_cost_settled e : pending e = false -> entry_cost cfg e = O.
Proof. unfold entry_cost, pending. by destruct (state e). Qed.

Lemma ticks_lone t : forall st pre e post,
  config_ok cfg = true ->
  names st = pre ++ e :: post -> (length pre < 256)%nat ->
  quiet pre = true -> quiet post = true ->
  sane cfg e = true -> terminated e = true -> on_course cfg e = true ->
  exists st' ev e',
    ticks cfg t st = Ok (st', ev)
    /\ names st' = pre ++ e' :: post
    /\ entry_cost cfg e' = (entry_cost cfg e - t)%nat
    /\ sane cfg e' = true /\ on_course cfg e' = true
    /\ is_mdns e' = is_mdns e
    /\ (announced e + count_if (is_failure (name e)) ev)%nat = announced e'
    /\ (asked e + count_if (is_query_of (length pre)) ev)%nat = asked e'.
Proof.
  induction t as [|t IH]; intros st pre e post Hcfg Hn Hlen Hpre Hpost Hs Ht Hc.
  - exists st, [], e. cbn [ticks count_if]. rewrite Nat.sub_0_r, !Nat.add_0_r.
    by repeat split.
  - destruct (check_entry_step cfg (resolv_default_dns_server st) (length pre) e)
      as (e1 & ev1 & brk & Hstep & F); try done.
    pose proof (scan_lone (resolv_default_dns_server st) pre 0 e post e1 ev1 brk
                  Hpre (or_intror Hpost) Hstep) as Hscan.
    assert (Ht1 : terminated e1 = true)
      by (unfold terminated in *; by rewrite (sf_name _ _ _ _ _ _ F)).
    destruct (IH (with_names st (pre ++ e1 :: post)) pre e1 post Hcfg eq_refl
                Hlen Hpre Hpost (sf_sane _ _ _ _ _ _ F) Ht1
                (sf_course _ _ _ _ _ _ F Hc))
      as (st' & ev2 & e' & Hrun & Hn' & Hcost & Hs' & Hc' & Hm' & Ha' & Hq').
    exists st', (ev1 ++ ev2), e'.
    cbn [ticks]. unfold check_entries. rewrite Hn, Hscan. run.
    rewrite Hrun. run. split; [done|]. split; [done|].
    rewrite !count_if_app, (sf_name _ _ _ _ _ _ F) in *.
    pose proof (sf_announced _ _ _ _ _ _ F Hc) as Ha.
    pose proof (sf_asked _ _ _ _ _ _ F Hc) as Hq.
    rewrite (sf_mdns _ _ _ _ _ _ F) in Hm'.
    split; [|repeat split; try done; lia].
    destruct (pending e) eqn:Hp.
    + by rewrite (sf_cost _ _ _ _ _ _ F Hp), Hcost.
    + destruct (sf_idle _ _ _ _ _ _ F Hp) as (-> & _ & _).
      by rewrite Hcost, entry_cost_settled.
Qed.

(** X5. An entry that is the only pending one of its table, once queried,
    fails after exactly [2 + (1 + 2 + ... + (M - 1))] scans, [M] being its
    maximum of retries (30 scans for the eight retries of a unicast name,
    5 for the three of an mDNS name): until then it is pending, from then
    on it is in STATE_ERROR, one failure has been announced and [M]
    questions have been sent. *)
Theorem lone_entry_fails_on_time st pre e post t :
  config_ok cfg = true ->
  names st = pre ++ e :: post -> (length pre < 256)%nat ->
  quiet pre = true -> quiet post = true ->
  terminated e = true -> state e = STATE_NEW ->
  let T := (2 + tri (Z.to_nat (max_retries cfg e) - 1))%nat in
  exists st' ev e',
    ticks cfg t st = Ok (st', ev)
    /\ names st' = pre ++ e' :: post
    /\ ((t < T)%nat ->
        pending e' = true /\ count_if (is_failure (name e)) ev = O)
    /\ ((T <= t)%nat ->
        state e' = STATE_ERROR
        /\ count_if (is_failure (name e)) ev = 1%nat
        /\ count_if (is_query_of (length pre)) ev
           = Z.to_nat (max_retries cfg e)).
Proof.
  intros Hcfg Hn Hlen Hpre Hpost Ht Hst T.
  assert (Hsane : sane cfg e = true) by (unfold sane; by rewrite Hst).
  assert (Hc : on_course cfg e = true) by (unfold on_course; by rewrite Hst).
  destruct (ticks_lone t st pre e post)
    as (st' & ev & e' & Hrun & Hn' & Hcost & Hs' & Hc' & Hm' & Ha & Hq);
    try done.
  exists st', ev, e'. split; [done|]. split; [done|].
  assert (HT : entry_cost cfg e = T) by (unfold entry_cost; by rewrite Hst).
  rewrite HT in Hcost.
  unfold announced, asked in Ha, Hq. rewrite Hst in Ha, Hq.
  split; intros Hlt.
  - destruct (pending e') eqn:Hp.
    + split; [done|]. unfold pending in Hp. destruct (state e'); try done; lia.
    + rewrite entry_cost_settled in Hcost by done. lia.
  - destruct (pending e') eqn:Hp.
    { pose proof (entry_cost_pending e' Hcfg Hs' Hp). lia. }
    unfold pending, on_course in *. destruct (state e'); try done.
    apply Z.eqb_eq in Hc'. rewrite (max_retries_same cfg e e' Hm') in Hc'.
    repeat split; try done; lia.
Qed.

End Lone.

Section Query.
Context (cfg : config).

Lemma query_packet_message i e s :
  cstring (name e) = Ok s ->
  Forall (fun l => (length l < 256)%nat) (split_dots s) ->
  query_packet cfg i e
  = Ok (message (query_hdr cfg i e) [query_question cfg s] [] []).
Proof.
  intros Hs Hl. unfold query_packet. rewrite Hs. run.
  rewrite encode_name_labels by done.
  unfold message, hdr_bytes, query_hdr, query_question, question_bytes,
    name_bytes, query_type.
  cbn [h_id h_flags1 h_flags2 h_numquestions h_numanswers h_numauthrr
       h_numextrarr q_name q_fixed labels pointer map concat].
  rewrite !app_nil_r, <- !app_assoc.
  by destruct (UIP_CONF_IPV6 cfg).
Qed.

Lemma scan_sends_query st pre e post s :
  names st = pre ++ e :: post -> quiet pre = true ->
  state e = STATE_NEW -> cstring (name e) = Ok s ->
  Forall (fun l => (length l < 256)%nat) (split_dots s) ->
  check_entries cfg st
  = Ok (with_names st
          (pre ++ set_retries 0 (set_tmr 1 (set_state STATE_ASKING e)) :: post),
        [etimer_set;
         uip_udp_packet_sendto
           (message (query_hdr cfg (length pre) e) [query_question cfg s] [] [])
           (if uses_mdns cfg e then resolv_mdns_addr cfg
            else resolv_default_dns_server st)
           (if uses_mdns cfg e then MDNS_PORT else DNS_PORT)]).
Proof.
  intros Hn Hpre Hst Hs Hl.
  set (e1 := set_retries 0 (set_tmr 1 (set_state STATE_ASKING e))).
  assert (Hstep : check_entry cfg (resolv_default_dns_server st) (length pre) e
                  = Ok (e1, [etimer_set;
                             uip_udp_packet_sendto
                               (message (query_hdr cfg (length pre) e)
                                        [query_question cfg s] [] [])
                               (if uses_mdns cfg e then resolv_mdns_addr cfg
                                else resolv_default_dns_server st)
                               (if uses_mdns cfg e then MDNS_PORT else DNS_PORT)],
                        true)).
  { unfold check_entry, send_query. rewrite Hst. fold e1.
    rewrite (query_packet_message (length pre) e1 s Hs Hl). run.
    by destruct (uses_mdns cfg e) eqn:Hm;
      unfold uses_mdns, query_hdr in *; cbn [is_mdns e1 set_retries set_tmr set_state] in *;
      rewrite ?Hm. }
  unfold check_entries. rewrite Hn.
  rewrite (scan_lone cfg _ pre 0 e post _ _ true Hpre (or_introl eq_refl) Hstep).
  done.
Qed.

(** X6. The first scan after a query, no entry in front of the queried one
    being pending, makes that entry asking with a timer of one scan and
    sends one datagram for it: a header with the id of the entry, the
    recursion-desired flag unless the name is asked over mDNS, one
    question and no other record, then the name label by label, the
    address type of the build and the class IN; it goes to the mDNS group
    and port for an mDNS entry, to the configured server and the DNS port
    otherwise. The scan touches no other entry. *)
Theorem first_scan_sends_query st pre e post s :
  names st = pre ++ e :: post -> quiet pre = true ->
  state e = STATE_NEW -> cstring (name e) = Ok s ->
  Forall (fun l => (length l < 256)%nat) (split_dots s) ->
  check_entries cfg st
  = Ok (with_names st
          (pre ++ set_retries 0 (set_tmr 1 (set_state STATE_ASKING e)) :: post),
        [etimer_set;
         uip_udp_packet_sendto
           (message (query_hdr cfg (length pre) e) [query_question cfg s] [] [])
           (if uses_mdns cfg e then resolv_mdns_addr cfg
            else resolv_default_dns_server st)
           (if uses_mdns cfg e then MDNS_PORT else DNS_PORT)]).
Proof. apply scan_sends_query. Qed.

End Query.

Section Responses.
Context (cfg : config) (mdns_responder : list Z -> result (list event)).

(** X7. A response that carries an error code and declares at least one
    answer fails the entry it is for at once: the entry goes to
    STATE_ERROR, keeps the code, and one failure is announced. Nothing
    behind the header of the datagram is read. *)
Theorem response_with_error_code st buf id f1 f2 nq na i e :
  load16 buf 0 = Ok id -> load buf 2 = Ok f1 -> load buf 3 = Ok f2 ->
  load16 buf 4 = Ok nq -> load16 buf 6 = Ok na ->
  ~ (f1 = 0 /\ f2 = 0) ->
  i = Z.to_nat (RESOLV_DECODE_INDEX id) ->
  names st !! i = Some e -> state e = STATE_ASKING ->
  na mod 256 <> 0 -> Z.land f2 DNS_FLAG2_ERR_MASK <> 0 ->
  newdata cfg mdns_responder st buf
  = Ok (with_names st
          (<[i:=set_err (Z.land f2 DNS_FLAG2_ERR_MASK)
                  (set_state STATE_ERROR e)]> (names st)),
        [resolv_found (name e) None]).
Proof.
  intros Hid Hf1 Hf2 Hnq Hna Hfl -> He Hst Hn Hrc.
  unfold newdata. rewrite Hnq, Hna, Hf1, Hf2. run.
  destruct (Z.eqb_spec f1 0), (Z.eqb_spec f2 0); cbn [andb];
    try (by exfalso; apply Hfl).
  all: rewrite Hid; run; rewrite He, Hst.
  all: destruct (Z.eqb_spec (na mod 256) 0); [done|].
  all: cbn [err set_err].
  all: by destruct (Z.eqb_spec (Z.land f2 DNS_FLAG2_ERR_MASK) 0).
Qed.

Lemma first_usable_none l :
  Forall (fun a => usable_record cfg a = false) l -> first_usable cfg l = None.
Proof. induction 1 as [|a l Ha _ IH]; [done|]. cbn [first_usable]. by rewrite Ha. Qed.

(** X8. A response without error code none of whose answers is an address
    record of the build ends the resolution without a word: the entry goes
    to STATE_ERROR and no notification is posted. *)
Theorem response_without_address st h qs ans rest i e :
  ~ (h_flags1 h = 0 /\ h_flags2 h = 0) ->
  Forall question_ok qs -> Forall answer_ok ans ->
  h_numquestions h mod 256 = Z.of_nat (length qs) ->
  h_numanswers h mod 256 = Z.of_nat (length ans) ->
  i = Z.to_nat (RESOLV_DECODE_INDEX (h_id h)) ->
  names st !! i = Some e -> state e = STATE_ASKING ->
  ans <> [] -> Z.land (h_flags2 h) DNS_FLAG2_ERR_MASK = 0 ->
  Forall (fun a => usable_record cfg a = false) ans ->
  newdata cfg mdns_responder st (message h qs ans rest)
  = Ok (with_names st
          (<[i:=set_err 0 (set_state STATE_ERROR e)]> (names st)), []).
Proof.
  intros Hfl Hqs Hans Hnq Hna Hi He Hst Hne Hrc Hno.
  rewrite (newdata_message cfg mdns_responder st h qs ans rest i e) by done.
  by rewrite first_usable_none.
Qed.

Lemma answered_insert l i e e' :
  l !! i = Some e -> answered e e' ->
  Forall2 answered l (<[i:=e']> l).
Proof.
  revert i. induction l as [|x l IH]; intros [|i] Hi Ha; try done.
  - injection Hi as ->. constructor; [done|].
    clear. induction l; constructor; [by left|done].
  - constructor; [by left|]. by apply IH.
Qed.

Lemma Forall2_answered_refl l : Forall2 answered l l.
Proof. induction l; constructor; [by left|done]. Qed.

(** X9. A response, whatever its bytes, changes at most the entry that its
    id names, and that one only when it is being asked: the entry ends
    resolved or failed, with its name, sequence number, timer and retry
    count as they were. At most one notification is posted, for the name
    of that entry; no datagram is sent and no timer set, and the sequence
    counter, the server and the scratch buffer stay. *)
Theorem response_frame st buf f1 f2 st' ev :
  load buf 2 = Ok f1 -> load buf 3 = Ok f2 -> ~ (f1 = 0 /\ f2 = 0) ->
  newdata cfg mdns_responder st buf = Ok (st', ev) ->
  Forall2 answered (names st) (names st')
  /\ (forall id j, load16 buf 0 = Ok id ->
        j <> Z.to_nat (RESOLV_DECODE_INDEX id) ->
        names st' !! j = names st !! j)
  /\ (ev = []
      \/ exists id e r, load16 buf 0 = Ok id
           /\ names st !! Z.to_nat (RESOLV_DECODE_INDEX id) = Some e
           /\ ev = [resolv_found (name e) r])
  /\ g_seqno st' = g_seqno st
  /\ resolv_default_dns_server st' = resolv_default_dns_server st
  /\ dns_name_without_dots st' = dns_name_without_dots st.
Proof.
  intros Hf1 Hf2 Hfl. unfold newdata. rewrite Hf1, Hf2.
  destruct (load16 buf 4) as [nq|]; run; [|done].
  destruct (load16 buf 6) as [na|]; run; [|done].
  assert (Hresp : (f1 =? 0) && (f2 =? 0) = false).
  { destruct (Z.eqb_spec f1 0), (Z.eqb_spec f2 0); try done.
    by exfalso; apply Hfl. }
  rewrite Hresp. clear Hresp.
  destruct (load16 buf 0) as [id|] eqn:Hid; run; [|done].
  set (i := Z.to_nat (RESOLV_DECODE_INDEX id)).
  assert (Hsame : Forall2 answered (names st) (names st)
         /\ (forall id0 j, Ok id = Ok id0 ->
               j <> Z.to_nat (RESOLV_DECODE_INDEX id0) ->
               names st !! j = names st !! j)
         /\ (@nil event = []
             \/ exists id0 e r, Ok id = Ok id0
                  /\ names st !! Z.to_nat (RESOLV_DECODE_INDEX id0) = Some e
                  /\ @nil event = [resolv_found (name e) r])
         /\ g_seqno st = g_seqno st
         /\ resolv_default_dns_server st = resolv_default_dns_server st
         /\ dns_name_without_dots st = dns_name_without_dots st)
    by (split; [apply Forall2_answered_refl|]; split; [done|];
        split; [by left|done]).
  destruct (names st !! i) as [ent|] eqn:He; [|by intros [= <- <-]].
  destruct (state ent) eqn:Hst; try (by intros [= <- <-]).
  destruct (na mod 256 =? 0); [by intros [= <- <-]|].
  assert (Hins : forall e' r (evs : list event),
         answered ent e' -> name e' = name ent ->
         (evs = [] \/ evs = [resolv_found (name e') r]) ->
         Forall2 answered (names st) (<[i:=e']> (names st))
         /\ (forall id0 j, Ok id = Ok id0 ->
               j <> Z.to_nat (RESOLV_DECODE_INDEX id0) ->
               <[i:=e']> (names st) !! j = names st !! j)
         /\ (evs = []
             \/ exists id0 e0 r0, Ok id = Ok id0
                  /\ names st !! Z.to_nat (RESOLV_DECODE_INDEX id0) = Some e0
                  /\ evs = [resolv_found (name e0) r0])
         /\ g_seqno st = g_seqno st
         /\ resolv_default_dns_server st = resolv_default_dns_server st
         /\ dns_name_without_dots st = dns_name_without_dots st).
  { intros e' r evs Ha Hnm Hev. split; [by apply (answered_insert _ _ ent)|].
    split; [intros id0 j [= <-] Hj; by rewrite list_lookup_insert_ne|].
    split; [|done].
    destruct Hev as [->| ->]; [by left|right].
    exists id, ent, r. by rewrite Hnm. }
  cbn [err set_err].
  destruct (negb (_ =? 0)).
  { intros [= <- <-].
    cbn [names with_names g_seqno resolv_default_dns_server dns_name_without_dots].
    apply (Hins _ None); [|done|by right].
    right. cbn. repeat split; try done. by right. }
  destruct (skip_questions _ _ _) as [[buf1 p]|]; run; [|done].
  destruct (scan_answers _ _ _ _) as [[a|]|]; run; [| |done].
  all: intros [= <- <-];
    cbn [names with_names g_seqno resolv_default_dns_server dns_name_without_dots].
  - apply (Hins _ (Some a)); [|done|by right].
    right. cbn. repeat split; try done. by left.
  - apply (Hins _ None); [|done|by left].
    right. cbn. repeat split; try done. by right.
Qed.

Lemma scanned_settled e e' : scanned e e' -> pending e = false -> e' = e.
Proof.
  intros [->|(_ & _ & _ & _ & _ & [[Hs _]|[Hs _]])] Hp; [done|..];
    unfold pending in Hp; by rewrite Hs in Hp.
Qed.

Lemma Forall2_settled (R : namemap -> namemap -> Prop) l l' i e :
  (forall x x', R x x' -> pending x = false -> x' = x) ->
  Forall2 R l l' -> l !! i = Some e -> pending e = false -> l' !! i = Some e.
Proof.
  intros HR H2 Hi Hp.
  destruct (Forall2_lookup_l _ _ _ _ _ H2 Hi) as (e' & Hi' & Hr).
  by rewrite Hi', (HR _ _ Hr Hp).
Qed.

Lemma newdata_settled st buf st' ev i e :
  newdata cfg mdns_responder st buf = Ok (st', ev) ->
  names st !! i = Some e -> state e <> STATE_ASKING ->
  names st' !! i = Some e.
Proof.
  intros Hd Hi Hs.
  destruct (newdata_changes cfg mdns_responder st buf st' ev Hd)
    as [->|(j & e0 & e' & Hj & Hs0 & -> & _)]; [done|].
  destruct (decide (i = j)) as [->|Hij]; [congruence|].
  by rewrite list_lookup_insert_ne.
Qed.

Lemma driver_steps_settled st st' i e :
  driver_steps cfg mdns_responder st st' ->
  names st !! i = Some e -> pending e = false ->
  names st' !! i = Some e.
Proof.
  intros Hsteps Hi Hp.
  induction Hsteps as [st|st st1 ev st2 Ht _ IH|st buf st1 ev st2 Hd _ IH
                      |st qn st1 r st2 Hl _ IH]; [done|..]; apply IH.
  - unfold check_entries in Ht.
    destruct (check_entries_from _ _ _ _) as [[l ev']|] eqn:Hscan;
      [|done]. injection Ht as <- <-. cbn [names with_names].
    apply check_entries_from_scanned in Hscan as [Hscan _].
    by eapply (Forall2_settled scanned); [apply scanned_settled|..].
  - eapply newdata_settled; [done..|].
    unfold pending in Hp. by destruct (state e).
  - apply resolv_lookup_names in Hl. by rewrite Hl.
Qed.

(** X10. An entry that is resolved, failed or unused is left exactly as it
    is by every sequence of scans, datagrams and lookups: a resolved
    address is neither refreshed nor dropped, however old it is, and a
    failed entry is not asked again. *)
Theorem settled_entry_stays st st' i e :
  driver_steps cfg mdns_responder st st' ->
  names st !! i = Some e -> pending e = false ->
  names st' !! i = Some e.
Proof. apply driver_steps_settled. Qed.


End Responses.

Section Queries.
Context (cfg : config) (mdns_responder : list Z -> result (list event)).

Lemma last_app_dots (nm : list Z) k : last (nm ++ replicate (S k) 46) = Some 46.
Proof.
  rewrite replicate_S_end, app_assoc. apply last_snoc.
Qed.

Lemma remove_trailing_dots_split m (nm : list Z) k scratch :
  nm ++ replicate k 46%Z <> [] -> last nm <> Some 46 ->
  (length (nm ++ replicate k 46%Z) <= m)%nat ->
  Forall (fun c => c <> 0) nm ->
  exists scratch',
    remove_trailing_dots m scratch (nm ++ replicate k 46) = Ok (scratch', nm)
    /\ (k = O -> scratch' = scratch).
Proof.
  intros Hne Hl Hlen Hnz. unfold remove_trailing_dots.
  destruct k as [|k].
  - rewrite app_nil_r in *. destruct (last nm) as [c|] eqn:Hlast;
      [|by apply last_None in Hlast].
    destruct (Z.eqb_spec c 46) as [->|Hc]; [done|]. by eexists.
  - rewrite last_app_dots. cbn [Z.eqb Pos.eqb].
    rewrite strncpy_short by done.
    rewrite <- app_assoc, length_app, length_replicate, strip_dots_spec by done.
    run. cbn [replicate app].
    rewrite cstring_prefix by done. run. eexists. split; [done|done].
Qed.

Lemma find_entry_total g nm l : forall k lseq lseqi,
  Forall (fun c => c <> 0) nm -> forallb terminated l = true ->
  exists i, find_entry g nm l k lseq lseqi = Ok i.
Proof.
  induction l as [|x l IH]; intros k lseq lseqi Hz Ht; [by eexists|].
  rewrite forallb_cons in Ht. apply andb_true_iff in Ht as [Hx Ht].
  cbn [find_entry]. unfold terminated in Hx.
  destruct (cstring (name x)) as [s|] eqn:Hs; [|done].
  assert (Hhit : exists b, (match state x with
                            | STATE_UNUSED => mret true
                            | _ => strcmp_eq (name x) nm
                            end) = Ok b).
  { destruct (state x); try (by eexists);
      rewrite (strcmp_eq_cstring _ _ s) by done; by eexists. }
  destruct Hhit as [b ->]. run. destruct b; [by eexists|].
  destruct (_ >? _); by apply IH.
Qed.

(** What [resolv_query] does with the name [nm] followed by [k] dots. *)
Lemma resolv_query_writes_long st (nm : list Z) k :
  nm ++ replicate k 46%Z <> [] -> last nm <> Some 46 ->
  (length nm <= RESOLV_CONF_MAX_DOMAIN_NAME_SIZE)%nat ->
  (length nm + k <= S RESOLV_CONF_MAX_DOMAIN_NAME_SIZE)%nat ->
  Forall (fun c => c <> 0) nm ->
  forallb terminated (names st) = true -> names st <> [] ->
  exists i e0 scratch,
    names st !! i = Some e0
    /\ find_entry (g_seqno st) nm (names st) 0 0 0 = Ok i
    /\ (k = O -> scratch = dns_name_without_dots st)
    /\ resolv_query cfg st (nm ++ replicate k 46)
       = Ok ({| names := <[i:=queried_entry cfg nm (g_seqno st) e0]> (names st);
                g_seqno := (g_seqno st + 1) mod 256;
                dns_name_without_dots := scratch;
                resolv_default_dns_server := resolv_default_dns_server st |},
             [process_post_timer]).
Proof.
  intros Hne' Hl Hlen Hlen' Hnz Ht Hne.
  destruct (remove_trailing_dots_split (S RESOLV_CONF_MAX_DOMAIN_NAME_SIZE) nm k
              (dns_name_without_dots st)) as (scratch & Hr & Hk);
    [done|done|rewrite length_app, length_replicate; lia|done|].
  destruct (find_entry_total (g_seqno st) nm (names st) 0 0 0 Hnz Ht) as [i Hf].
  assert (Hi : (i < length (names st))%nat).
  { destruct (find_entry_passed _ _ _ _ _ _ _ Hf) as [(j & -> & Hj & _)|[-> _]];
      [lia|]. destruct (names st); [done|cbn [length]; lia]. }
  destruct (lookup_lt_is_Some_2 _ _ Hi) as [e0 He0].
  exists i, e0, scratch. split; [done|]. split; [done|]. split; [done|].
  unfold resolv_query. rewrite Hr. run. rewrite Hf. run. by rewrite He0.
Qed.

Lemma resolv_query_writes st (nm : list Z) k :
  valid_name (nm ++ replicate k 46) = true -> last nm <> Some 46 ->
  forallb terminated (names st) = true -> names st <> [] ->
  exists i e0 scratch,
    names st !! i = Some e0
    /\ find_entry (g_seqno st) nm (names st) 0 0 0 = Ok i
    /\ (k = O -> scratch = dns_name_without_dots st)
    /\ resolv_query cfg st (nm ++ replicate k 46)
       = Ok ({| names := <[i:=queried_entry cfg nm (g_seqno st) e0]> (names st);
                g_seqno := (g_seqno st + 1) mod 256;
                dns_name_without_dots := scratch;
                resolv_default_dns_server := resolv_default_dns_server st |},
             [process_post_timer]).
Proof.
  intros Hv Hl Ht Hne.
  destruct (valid_name_spec _ Hv) as (Hne' & Hlen & Hnz).
  rewrite length_app, length_replicate in Hlen.
  apply Forall_nonzero_app_l in Hnz.
  apply resolv_query_writes_long; try done; lia.
Qed.

(** X11. Dots at the end of a name do not count: [resolv_query] writes the
    same table for a name with trailing dots as for the name without
    them, and [resolv_lookup] gives the same answer. *)
Theorem trailing_dots_ignored st (nm : list Z) k :
  valid_name (nm ++ replicate k 46) = true ->
  nm <> [] -> last nm <> Some 46 ->
  forallb terminated (names st) = true -> names st <> [] ->
  exists st1 st2 ev s1 s2 r,
    resolv_query cfg st nm = Ok (st1, ev)
    /\ resolv_query cfg st (nm ++ replicate k 46) = Ok (st2, ev)
    /\ names st2 = names st1 /\ g_seqno st2 = g_seqno st1
    /\ resolv_lookup cfg st nm = Ok (s1, r)
    /\ resolv_lookup cfg st (nm ++ replicate k 46) = Ok (s2, r).
Proof.
  intros Hv Hne Hl Ht Hn.
  destruct (valid_name_spec _ Hv) as (Hne' & Hlen & Hnz).
  assert (Hv0 : valid_name (nm ++ replicate 0 46) = true).
  { cbn [replicate]. rewrite app_nil_r. unfold valid_name in *.
    rewrite !andb_true_iff, !bool_decide_eq_true, negb_true_iff,
      bool_decide_eq_false in *.
    destruct Hv as [[_ Hv1] Hv2]. rewrite length_app in Hv1.
    rewrite forallb_app in Hv2. apply andb_true_iff in Hv2 as [Hv2 _].
    repeat split; [done|lia|done]. }
  destruct (resolv_query_writes st nm 0 Hv0 Hl Ht Hn)
    as (i & e0 & sc0 & He0 & Hf0 & _ & Hq0).
  destruct (resolv_query_writes st nm k Hv Hl Ht Hn)
    as (i' & e0' & sc & He0' & Hf & _ & Hq).
  cbn [replicate] in Hq0. rewrite app_nil_r in Hq0.
  assert (i' = i) as -> by congruence. assert (e0' = e0) as -> by congruence.
  apply Forall_nonzero_app_l in Hnz.
  destruct (remove_trailing_dots_split RESOLV_CONF_MAX_DOMAIN_NAME_SIZE nm 0
              (dns_name_without_dots st)) as (sa & Hra & _);
    [by rewrite app_nil_r|done|rewrite !length_app, !length_replicate in *; lia|done|].
  destruct (remove_trailing_dots_split RESOLV_CONF_MAX_DOMAIN_NAME_SIZE nm k
              (dns_name_without_dots st)) as (sb & Hrb & _);
    [done|done|lia|done|].
  cbn [replicate] in Hra. rewrite app_nil_r in Hra.
  assert (Hlk : exists r, lookup_entry nm (names st) = Ok r)
    by (rewrite lookup_entry_cached by done; by eexists).
  destruct Hlk as [r Hlk].
  eexists _, _, _, _, _,
    (if UIP_CONF_LOOPBACK_INTERFACE cfg
        && negb (bool_decide (nm = cstr "localhost"))
     then Some (loopback cfg) else r).
  split; [exact Hq0|]. split; [exact Hq|]. split; [done|]. split; [done|].
  unfold resolv_lookup. rewrite Hra, Hrb. run. cbn [names with_scratch].
  destruct (_ && _); [done|]. rewrite Hlk. by run.
Qed.

End Queries.

Section Cache.
Context (cfg : config) (mdns_responder : list Z -> result (list event)).

Lemma reachable_steps st st' :
  reachable cfg mdns_responder st -> driver_steps cfg mdns_responder st st' ->
  reachable cfg mdns_responder st'.
Proof.
  intros Hr Hs. induction Hs as [st|st st1 ev st2 Ht _ IH|st buf st1 ev st2 Hd _ IH
                                |st qn st1 r st2 Hl _ IH]; [done|..]; apply IH.
  - by eapply reach_tick.
  - by eapply reach_data.
  - by eapply reach_lookup.
Qed.

Lemma cached_none nm l :
  (forall j x, l !! j = Some x -> state x = STATE_DONE ->
               cstring (name x) <> Ok nm) ->
  cached nm l = None.
Proof.
  induction l as [|x l IH]; intros H; [done|]. cbn [cached].
  assert (Hl : cached nm l = None)
    by (apply IH; intros j y Hj; apply (H (S j) y Hj)).
  destruct (state x) eqn:Hs; try done.
  rewrite bool_decide_eq_false_2; [done|]. by apply (H O x).
Qed.

Lemma cached_first nm l : forall i e,
  l !! i = Some e -> state e = STATE_DONE -> cstring (name e) = Ok nm ->
  (forall j x, (j < i)%nat -> l !! j = Some x -> state x = STATE_DONE ->
               cstring (name x) <> Ok nm) ->
  cached nm l = Some (ipaddr e).
Proof.
  induction l as [|x l IH]; intros [|i] e Hi Hs Hc H; try done.
  - injection Hi as ->. cbn [cached]. by rewrite Hs, bool_decide_eq_true_2.
  - cbn [cached].
    assert (Hl : cached nm l = Some (ipaddr e)).
    { apply (IH i e); try done. intros j y Hj. apply (H (S j) y). lia. }
    destruct (state x) eqn:Hsx; try done.
    rewrite bool_decide_eq_false_2; [done|]. apply (H O x); [lia|done|done].
Qed.

(** In a reachable table the name of an entry in use is held by no other
    entry in use. *)
Lemma table_inv_holder l i e nm j x :
  table_inv cfg l -> l !! i = Some e -> state e <> STATE_UNUSED ->
  cstring (name e) = Ok nm ->
  l !! j = Some x -> state x <> STATE_UNUSED -> cstring (name x) = Ok nm ->
  j = i.
Proof.
  intros I Hi Hu Hc Hj Hux Hcx.
  pose proof (inv_stored _ _ I) as Hst. rewrite Forall_forall in Hst.
  destruct (Hst e) as (s & Hs & Hsl & Hsz); [by eapply list_elem_of_lookup_2|].
  destruct (Hst x) as (s' & Hs' & Hsl' & Hsz'); [by eapply list_elem_of_lookup_2|].
  rewrite Hs, cstring_canonical in Hc by done.
  rewrite Hs', cstring_canonical in Hcx by done.
  eapply (inv_distinct _ _ I j i); try done. congruence.
Qed.

Lemma resolv_lookup_plain st nm :
  UIP_CONF_LOOPBACK_INTERFACE cfg = false ->
  nm <> [] -> last nm <> Some 46 ->
  (length nm <= RESOLV_CONF_MAX_DOMAIN_NAME_SIZE)%nat ->
  Forall (fun c => c <> 0) nm -> forallb terminated (names st) = true ->
  resolv_lookup cfg st nm = Ok (st, cached nm (names st)).
Proof.
  intros Hlo Hne Hl Hlen Hz Ht. unfold resolv_lookup, remove_trailing_dots.
  destruct (last nm) as [c|] eqn:Hlast; [|by apply last_None in Hlast].
  destruct (Z.eqb_spec c 46) as [->|Hc]; [done|]. run.
  rewrite Hlo. cbn [andb names with_scratch].
  rewrite lookup_entry_cached by done. run. by destruct st.
Qed.
End Cache.

Section Found.
Context (cfg : config) (mdns_responder : list Z -> result (list event)).

Lemma resolv_query_nonempty st n r :
  resolv_query cfg st n = Ok r -> names st <> [].
Proof.
  unfold resolv_query. intros H Hn. rewrite Hn in H.
  destruct (remove_trailing_dots _ _ _) as [[s nm]|]; [|done].
  revert H. by run.
Qed.

Lemma queried_entry_facts nm g e :
  stored_name e -> (length nm <= RESOLV_CONF_MAX_DOMAIN_NAME_SIZE)%nat ->
  state (queried_entry cfg nm g e) = STATE_NEW
  /\ name (queried_entry cfg nm g e) = canonical nm
  /\ seqno (queried_entry cfg nm g e) = g.
Proof.
  intros (s & Hs & Hsl & _) Hl. unfold queried_entry.
  destruct (RESOLV_CONF_SUPPORTS_MDNS cfg);
    cbn [state name seqno set_seqno set_state set_name set_is_mdns];
    (split; [done|]); (split; [|done]);
    apply strncpy_canonical; try done; rewrite Hs; by apply length_canonical.
Qed.

(** X12. Asking again for a name forgets its address: after
    [resolv_query], whatever the table held for the name, [resolv_lookup]
    finds nothing for it until an answer has come in. *)
Theorem query_forgets_address st (nm : list Z) k st1 ev :
  config_ok cfg = true -> reachable cfg mdns_responder st ->
  UIP_CONF_LOOPBACK_INTERFACE cfg = false ->
  valid_name (nm ++ replicate k 46) = true ->
  nm <> [] -> last nm <> Some 46 ->
  resolv_query cfg st (nm ++ replicate k 46) = Ok (st1, ev) ->
  resolv_lookup cfg st1 nm = Ok (st1, None).
Proof.
  intros Hcfg Hr Hlo Hv Hne Hl Hq.
  pose proof (reachable_inv cfg mdns_responder st Hcfg Hr) as I.
  pose proof (reachable_inv cfg mdns_responder st1 Hcfg
                (reach_query _ _ _ _ _ _ Hr Hv Hq)) as I1.
  destruct (valid_name_spec _ Hv) as (_ & Hlen & Hnz).
  apply Forall_nonzero_app_l in Hnz. rewrite length_app in Hlen.
  pose proof (table_inv_ok cfg _ I) as Hok.
  apply table_ok_parts in Hok as (_ & Ht & _).
  pose proof (table_inv_ok cfg _ I1) as Hok1.
  apply table_ok_parts in Hok1 as (_ & Ht1 & _).
  destruct (resolv_query_writes cfg st nm k Hv Hl Ht (resolv_query_nonempty _ _ _ Hq))
    as (i & e0 & sc & He0 & _ & _ & Hq').
  rewrite Hq in Hq'. injection Hq' as -> _.
  rewrite resolv_lookup_plain; try done; [|lia]. cbn [names] in *.
  f_equal. f_equal.
  assert (Hst0 : stored_name e0).
  { pose proof (inv_stored _ _ I) as Hs. rewrite Forall_forall in Hs.
    apply Hs. by eapply list_elem_of_lookup_2. }
  destruct (queried_entry_facts nm (g_seqno st) e0 Hst0) as (Hs1 & Hn1 & _); [lia|].
  assert (Hi : <[i:=queried_entry cfg nm (g_seqno st) e0]> (names st) !! i
               = Some (queried_entry cfg nm (g_seqno st) e0)).
  { apply list_lookup_insert_eq. by eapply lookup_lt_Some. }
  apply cached_none. intros j x Hj Hsx Hcx.
  assert (j = i) as ->.
  { apply (table_inv_holder cfg _ i _ nm j x I1 Hi); try done.
    - rewrite Hn1. apply cstring_canonical; [lia|done].
    - by rewrite Hsx. }
  rewrite Hi in Hj. injection Hj as <-. by rewrite Hs1 in Hsx.
Qed.

(** X13. From question to answer: in the IPv6 build, when a response for
    an entry that is being asked carries a usable address record, the
    address is announced and [resolv_lookup] of the entry's name returns
    it, also after any further scans, datagrams and lookups. *)
Theorem resolved_name_is_found st h qs before a after rest i e nm :
  config_ok cfg = true -> reachable cfg mdns_responder st ->
  UIP_CONF_IPV6 cfg = true -> UIP_CONF_LOOPBACK_INTERFACE cfg = false ->
  ~ (h_flags1 h = 0 /\ h_flags2 h = 0) ->
  Forall question_ok qs -> Forall answer_ok (before ++ a :: after) ->
  h_numquestions h mod 256 = Z.of_nat (length qs) ->
  h_numanswers h mod 256 = Z.of_nat (length (before ++ a :: after)) ->
  i = Z.to_nat (RESOLV_DECODE_INDEX (h_id h)) ->
  names st !! i = Some e -> state e = STATE_ASKING ->
  Z.land (h_flags2 h) DNS_FLAG2_ERR_MASK = 0 ->
  Forall (fun b => usable_record cfg b = false) before ->
  a_type a = DNS_TYPE_AAAA -> Z.land (a_class a) 32767 = DNS_CLASS_IN ->
  length (a_rdata a) = 16%nat ->
  cstring (name e) = Ok nm -> nm <> [] -> last nm <> Some 46 ->
  exists st1,
    newdata cfg mdns_responder st (message h qs (before ++ a :: after) rest)
    = Ok (st1, [resolv_found (name e) (Some (a_rdata a))])
    /\ forall st2, driver_steps cfg mdns_responder st1 st2 ->
         resolv_lookup cfg st2 nm = Ok (st2, Some (a_rdata a)).
Proof.
  intros Hcfg Hr H6 Hlo Hfl Hqs Hans Hnq Hna Hi He Hst Hrc Hbef Hty Hcl Hlen
    Hnm Hne Hl.
  pose proof (newdata_message_ipv6 cfg mdns_responder st h qs before a after
                rest i e H6 Hfl Hqs Hans Hnq Hna Hi He Hst Hrc Hbef Hty Hcl Hlen)
    as Hd.
  eexists. split; [exact Hd|]. intros st2 Hsteps.
  set (e1 := set_ipaddr (a_rdata a) (set_state STATE_DONE
               (set_err 0 (set_state STATE_ERROR e)))) in *.
  set (st1 := with_names st (<[i:=e1]> (names st))) in *.
  assert (Hr1 : reachable cfg mdns_responder st1) by (by eapply reach_data).
  pose proof (reachable_steps cfg mdns_responder st1 st2 Hr1 Hsteps) as Hr2.
  pose proof (reachable_inv cfg mdns_responder st2 Hcfg Hr2) as I2.
  pose proof (reachable_inv cfg mdns_responder st Hcfg Hr) as I.
  pose proof (table_inv_ok cfg _ I2) as Hok2.
  apply table_ok_parts in Hok2 as (_ & Ht2 & _).
  assert (Hi1 : names st1 !! i = Some e1).
  { cbn [names st1 with_names]. apply list_lookup_insert_eq.
    by eapply lookup_lt_Some. }
  pose proof (driver_steps_settled cfg mdns_responder st1 st2 i e1 Hsteps Hi1
                eq_refl) as Hi2.
  assert (Hstored : stored_name e).
  { pose proof (inv_stored _ _ I) as Hs. rewrite Forall_forall in Hs.
    apply Hs. by eapply list_elem_of_lookup_2. }
  destruct Hstored as (s & Hs & Hsl & Hsz).
  assert (s = nm) as -> by (rewrite Hs, cstring_canonical in Hnm by done; congruence).
  rewrite resolv_lookup_plain; try done.
  f_equal. f_equal.
  rewrite (cached_first nm (names st2) i e1); try done.
  intros j x Hj Hjx Hsx Hcx.
  assert (j = i); [|lia].
  eapply (table_inv_holder cfg _ i e1 nm j x I2 Hi2); try done.
  by rewrite Hsx.
Qed.

End Found.

Lemma store_same buf p c : load buf p = Ok c -> store buf p c = Ok buf.
Proof.
  unfold load, store. destruct (buf !! p) as [b|] eqn:Hb; [|done].
  intros [= ->]. rewrite decide_True by (by eapply lookup_lt_Some).
  by rewrite list_insert_id.
Qed.

Lemma encode_label_in_place l : forall fuel pre t post n,
  plain_label l -> t = 46 \/ t = 0 -> (length l < fuel)%nat ->
  encode_label fuel (pre ++ l ++ t :: post) (length pre) (length pre) n
  = Ok (pre ++ l ++ t :: post, (length pre + length l)%nat,
        (length pre + length l)%nat,
        Nat.iter (length l) (fun n => (n + 1) mod 256) n).
Proof.
  induction l as [|c l IH]; intros fuel pre t post n Hl Ht Hf;
    (destruct fuel as [|fuel]; [cbn [length] in Hf; lia|]);
    cbn [encode_label app length].
  - rewrite load_middle. run. rewrite Nat.add_0_r.
    by destruct Ht as [-> | ->].
  - apply Forall_cons in Hl as [[Hc46 Hc0] Hl].
    rewrite load_middle. run.
    destruct (Z.eqb_spec c 46); [done|]. destruct (Z.eqb_spec c 0); [done|].
    cbn [negb andb]. rewrite store_same by apply load_middle. run.
    replace (pre ++ c :: l ++ t :: post) with ((pre ++ [c]) ++ l ++ t :: post)
      by (by rewrite <- app_assoc).
    replace (length pre + 1)%nat with (length (pre ++ [c])) by len.
    rewrite IH; [|done|done|cbn [length] in Hf; lia].
    rewrite Nat.iter_succ_r, length_app. cbn [length].
    by replace (length pre + 1 + length l)%nat with (length pre + S (length l))%nat by lia.
Qed.

Lemma iter_count k : forall n,
  0 <= n -> (Z.to_nat n + k < 256)%nat ->
  Nat.iter k (fun n => (n + 1) mod 256) n = n + Z.of_nat k.
Proof.
  induction k as [|k IH]; intros n Hn Hk; [cbn; lia|].
  rewrite Nat.iter_succ_r, IH; rewrite ?Z.mod_small; lia.
Qed.

Lemma join_dots_cons2 (l l' : list Z) ls :
  join_dots (l :: l' :: ls) = l ++ 46 :: join_dots (l' :: ls).
Proof. done. Qed.

Lemma encode_name_loop_in_place ls : forall fuel pre d post,
  ls <> [] -> Forall plain_label ls ->
  Forall (fun l => (length l < 256)%nat) ls ->
  (length ls <= fuel)%nat ->
  encode_name_loop fuel (pre ++ d :: join_dots ls ++ 0 :: post)
                   (length pre) (S (length pre))
  = Ok (pre ++ wire_labels ls ++ 0 :: post,
        (length pre + length (wire_labels ls) + 1)%nat).
Proof.
  induction ls as [|l ls IH]; intros fuel pre d post Hne Hp Hl Hf; [done|].
  destruct fuel as [|fuel]; [cbn [length] in Hf; lia|].
  apply Forall_cons in Hp as [Hpl Hp]. apply Forall_cons in Hl as [Hll Hl].
  cbn [encode_name_loop].
  replace (length pre + 1)%nat with (length (pre ++ [d])) by len.
  replace (S (length pre)) with (length (pre ++ [d])) by len.
  destruct ls as [|l' ls].
  - cbn [join_dots].
    replace (pre ++ d :: l ++ 0 :: post) with ((pre ++ [d]) ++ l ++ 0 :: post)
      by (by rewrite <- app_assoc).
    rewrite encode_label_in_place; [|done|by right|len].
    run. rewrite iter_count by (cbn; lia). rewrite Z.add_0_l.
    rewrite <- app_assoc. cbn [app]. rewrite store_middle. run.
    replace (pre ++ Z.of_nat (length l) :: l ++ 0 :: post)
      with ((pre ++ Z.of_nat (length l) :: l) ++ 0 :: post)
      by (by rewrite <- app_assoc).
    replace (length (pre ++ [d]) + length l)%nat
      with (length (pre ++ Z.of_nat (length l) :: l)) by len.
    rewrite load_middle. run. cbn [Z.eqb negb]. rewrite store_middle. run.
    unfold wire_labels. cbn [map concat]. rewrite app_nil_r.
    rewrite <- !app_assoc. cbn [app]. do 2 f_equal. len.
  - rewrite join_dots_cons2.
    replace (pre ++ d :: (l ++ 46 :: join_dots (l' :: ls)) ++ 0 :: post)
      with ((pre ++ [d]) ++ l ++ 46 :: (join_dots (l' :: ls) ++ 0 :: post))
      by (by rewrite <- !app_assoc).
    rewrite encode_label_in_place; [|done|by left|len].
    run. rewrite iter_count by (cbn; lia). rewrite Z.add_0_l.
    rewrite <- app_assoc. cbn [app]. rewrite store_middle. run.
    replace (pre ++ Z.of_nat (length l) :: l ++ 46 :: join_dots (l' :: ls) ++ 0 :: post)
      with ((pre ++ Z.of_nat (length l) :: l) ++ 46 :: join_dots (l' :: ls) ++ 0 :: post)
      by (by rewrite <- app_assoc).
    replace (length (pre ++ [d]) + length l)%nat
      with (length (pre ++ Z.of_nat (length l) :: l)) by len.
    rewrite load_middle. run. cbn [Z.eqb negb Pos.eqb].
    replace (length (pre ++ Z.of_nat (length l) :: l) + 1)%nat
      with (S (length (pre ++ Z.of_nat (length l) :: l))) by lia.
    rewrite IH; [|done|done|done|cbn [length] in *; lia].
    unfold wire_labels. cbn [map concat].
    rewrite <- !app_assoc. cbn [app]. do 2 f_equal. len.
Qed.

(** X14. Called in place, as the responder does with the name of the first
    question, [encode_name] turns the text that [parse_name] left in the
    datagram back into the name as it came: walking a name and encoding
    it again from one byte behind restores every byte. *)
Theorem encode_name_restores_datagram ls pre post :
  ls <> [] -> Forall label_ok ls -> Forall plain_label ls ->
  exists buf,
    parse_name (pre ++ wire_labels ls ++ 0 :: post) (length pre)
    = Ok (buf, (length pre + length (wire_labels ls) + 1)%nat)
    /\ cstring (drop (S (length pre)) buf) = Ok (join_dots ls)
    /\ encode_name_at buf (length pre) (S (length pre))
       = Ok (pre ++ wire_labels ls ++ 0 :: post,
             (length pre + length (wire_labels ls) + 1)%nat).
Proof.
  intros Hne Hok Hp.
  eexists. split; [by apply parse_name_labels|].
  assert (Hz : Forall (Forall (fun c : Z => c <> 0)) ls).
  { eapply Forall_impl; [exact Hp|]. intros l Hl.
    eapply Forall_impl; [exact Hl|]. by intros c [_ ?]. }
  split; [by apply text_after_parse|].
  unfold encode_name_at. rewrite dotted_join by done. cbn [app].
  apply encode_name_loop_in_place; try done.
  - eapply Forall_impl; [exact Hok|]. intros l [_ Hl]. lia.
  - pose proof (length_wire_ge ls Hok) as H1.
    rewrite <- length_wire_dotted, dotted_join in H1 by done.
    len.
Qed.

Section Memory.

Lemma store16_store_bytes buf p v :
  store16 buf p v = store_bytes buf p [v / 256 mod 256; v mod 256].
Proof.
  unfold store16. cbn [store_bytes].
  destruct (store buf p _) as [b|]; run; [|done].
  replace (p + 1)%nat with (S p) by lia. by destruct (store b (S p) _).
Qed.

Lemma store_bytes_middle new : forall pre old post,
  length old = length new ->
  store_bytes (pre ++ old ++ post) (length pre) new = Ok (pre ++ new ++ post).
Proof.
  induction new as [|b new IH]; intros pre [|a old] post Hl; try done.
  cbn [store_bytes app]. rewrite store_middle. run.
  replace (pre ++ b :: old ++ post) with ((pre ++ [b]) ++ old ++ post)
    by (by rewrite <- app_assoc).
  replace (S (length pre)) with (length (pre ++ [b])) by len.
  rewrite IH by (cbn [length] in Hl; lia). by rewrite <- app_assoc.
Qed.

Lemma store_bytes_app a : forall buf p b,
  store_bytes buf p (a ++ b)
  = buf' ← store_bytes buf p a; store_bytes buf' (p + length a)%nat b.
Proof.
  induction a as [|x a IH]; intros buf p b; cbn [store_bytes app length].
  - run. by rewrite Nat.add_0_r.
  - destruct (store buf p x) as [buf1|]; run; [|done].
    rewrite IH. by replace (S p + length a)%nat with (p + S (length a))%nat by lia.
Qed.

End Memory.

Section Answer.
Context (cfg : config).

Lemma write_answer_bytes buf ans addr :
  write_answer cfg buf ans addr
  = buf' ← store_bytes buf ans
             ([query_type cfg / 256 mod 256; query_type cfg mod 256]
              ++ [Z.lor DNS_CLASS_IN 32768 / 256 mod 256;
                  Z.lor DNS_CLASS_IN 32768 mod 256]
              ++ [0; 0] ++ [0; 120]
              ++ [Z.of_nat (addr_size cfg) / 256 mod 256;
                  Z.of_nat (addr_size cfg) mod 256]
              ++ addr);
    mret (buf', (ans + 10 + addr_size cfg)%nat).
Proof.
  unfold write_answer.
  do 5 (rewrite store16_store_bytes, store_bytes_app; cbn [length];
        destruct (store_bytes _ _ [_; _]) as [?|]; run; [|done];
        rewrite <- ?Nat.add_assoc; cbn [Nat.add]).
  by destruct (store_bytes _ _ addr).
Qed.

Lemma answer_fixed_own n addr :
  length addr = addr_size cfg ->
  answer_fixed (own_answer cfg n addr)
  = [query_type cfg / 256 mod 256; query_type cfg mod 256]
    ++ [Z.lor DNS_CLASS_IN 32768 / 256 mod 256;
        Z.lor DNS_CLASS_IN 32768 mod 256]
    ++ [0; 0] ++ [0; 120]
    ++ [Z.of_nat (addr_size cfg) / 256 mod 256;
        Z.of_nat (addr_size cfg) mod 256].
Proof.
  intros Ha. unfold answer_fixed, own_answer, be16.
  cbn [a_type a_class a_ttl a_rdata]. rewrite Ha.
  unfold query_type, addr_size. by destruct (UIP_CONF_IPV6 cfg).
Qed.

(** The record written over [old], behind a name that ends where [pre]
    does. *)
Lemma write_answer_layout pre old post n addr :
  length addr = addr_size cfg -> length old = (10 + addr_size cfg)%nat ->
  write_answer cfg (pre ++ old ++ post) (length pre) addr
  = Ok (pre ++ (answer_fixed (own_answer cfg n addr) ++ addr) ++ post,
        (length pre + 10 + addr_size cfg)%nat).
Proof.
  intros Ha Ho. rewrite write_answer_bytes, (answer_fixed_own n addr Ha).
  rewrite store_bytes_middle; [by rewrite <- !app_assoc|].
  rewrite !length_app. cbn [length]. lia.
Qed.

End Answer.

Section Compare.

Lemma tolower_zero c : (tolower c =? 0) = (c =? 0).
Proof.
  unfold tolower. destruct (Z.leb_spec 65 c), (Z.leb_spec c 90); cbn [andb];
    try done.
  destruct (Z.eqb_spec (c + 32) 0), (Z.eqb_spec c 0); try done; lia.
Qed.

Lemma same_nocase_cons a s b t :
  same_nocase (a :: s) (b :: t) <-> tolower a = tolower b /\ same_nocase s t.
Proof.
  unfold same_nocase. cbn [map]. split; [by intros [= ? ?]|by intros [-> ->]].
Qed.

Lemma same_nocase_split t s1 s2 :
  same_nocase t (s1 ++ s2) ->
  same_nocase (take (length s1) t) s1 /\ same_nocase (drop (length s1) t) s2
  /\ t = take (length s1) t ++ drop (length s1) t
  /\ length (take (length s1) t) = length s1.
Proof.
  unfold same_nocase. intros H.
  assert (Hl : length t = length (s1 ++ s2))
    by (apply (f_equal length) in H; by rewrite !length_map in H).
  rewrite length_app in Hl.
  rewrite map_app in H. rewrite <- (take_drop (length s1) t) in H at 1.
  rewrite map_app in H. apply app_inj_1 in H as [H1 H2];
    [|rewrite !length_map, length_take; lia].
  repeat split; [done|done|by rewrite take_drop|rewrite length_take; lia].
Qed.

Lemma strncasecmp_eq_same s1 : forall t pre post,
  same_nocase t s1 ->
  strncasecmp_eq s1 (pre ++ t ++ post) (length pre) = Ok true.
Proof.
  induction s1 as [|c s1 IH]; intros [|b t] pre post H; try done.
  apply same_nocase_cons in H as [Hb H].
  cbn [strncasecmp_eq app]. rewrite load_middle. run.
  rewrite Hb, Z.eqb_refl.
  replace (pre ++ b :: t ++ post) with ((pre ++ [b]) ++ t ++ post)
    by (by rewrite <- app_assoc).
  replace (S (length pre)) with (length (pre ++ [b])) by len.
  by apply IH.
Qed.

Lemma strcasecmp_eq_same s2 : forall t pre post,
  same_nocase t s2 ->
  strcasecmp_eq (pre ++ t ++ 0 :: post) (length pre) s2 = Ok true.
Proof.
  induction s2 as [|c s2 IH]; intros [|b t] pre post H; try done.
  - cbn [strcasecmp_eq app]. by rewrite load_middle.
  - apply same_nocase_cons in H as [Hb H].
    cbn [strcasecmp_eq app]. rewrite load_middle. run.
    rewrite Hb, Z.eqb_refl.
    replace (pre ++ b :: t ++ 0 :: post) with ((pre ++ [b]) ++ t ++ 0 :: post)
      by (by rewrite <- app_assoc).
    replace (S (length pre)) with (length (pre ++ [b])) by len.
    by apply IH.
Qed.

(** On a text that ends in a NUL the comparisons stay inside the text, and
    they succeed on a match only. *)
Lemma strncasecmp_eq_text s1 : forall t pre post,
  Forall (fun c => c <> 0) s1 ->
  exists b, strncasecmp_eq s1 (pre ++ t ++ 0 :: post) (length pre) = Ok b
            /\ (b = true -> same_nocase (take (length s1) t) s1
                            /\ (length s1 <= length t)%nat).
Proof.
  induction s1 as [|c s1 IH]; intros t pre post Hz.
  - exists true. split; [done|]. intros _. split; [done|cbn [length]; lia].
  - apply Forall_cons in Hz as [Hc Hz]. cbn [strncasecmp_eq].
    destruct t as [|b t]; cbn [app]; rewrite load_middle; run.
    + exists false. split; [|done].
      assert ((tolower c =? tolower 0) = false) as ->; [|done].
      change (tolower 0) with 0. rewrite tolower_zero. by apply Z.eqb_neq.
    + destruct (Z.eqb_spec (tolower c) (tolower b)) as [Hb|Hb];
        [|by exists false].
      replace (pre ++ b :: t ++ 0 :: post) with ((pre ++ [b]) ++ t ++ 0 :: post)
        by (by rewrite <- app_assoc).
      replace (S (length pre)) with (length (pre ++ [b])) by len.
      destruct (IH t (pre ++ [b]) post Hz) as (r & Hr & Hs).
      exists r. split; [done|]. intros ->. destruct (Hs eq_refl) as [Hs1 Hs2].
      cbn [length take]. split; [|lia]. by apply same_nocase_cons.
Qed.

Lemma strcasecmp_eq_text s2 : forall t pre post,
  Forall (fun c => c <> 0) s2 -> Forall (fun c => c <> 0) t ->
  exists b, strcasecmp_eq (pre ++ t ++ 0 :: post) (length pre) s2 = Ok b
            /\ (b = true -> same_nocase t s2).
Proof.
  induction s2 as [|c s2 IH]; intros t pre post Hz Ht.
  - cbn [strcasecmp_eq]. destruct t as [|b t]; cbn [app]; rewrite load_middle; run.
    + by exists true.
    + apply Forall_cons in Ht as [Hb _]. exists false. split; [|done].
      rewrite tolower_zero. f_equal. by apply Z.eqb_neq.
  - apply Forall_cons in Hz as [Hc Hz]. cbn [strcasecmp_eq].
    destruct t as [|b t]; cbn [app]; rewrite load_middle; run.
    + exists false. split; [|done].
      change (tolower 0) with 0.
      assert ((0 =? tolower c) = false) as ->; [|done].
      rewrite Z.eqb_sym, tolower_zero. by apply Z.eqb_neq.
    + apply Forall_cons in Ht as [Hb Ht].
      destruct (Z.eqb_spec (tolower b) (tolower c)) as [Hbc|Hbc];
        [|by exists false].
      replace (pre ++ b :: t ++ 0 :: post) with ((pre ++ [b]) ++ t ++ 0 :: post)
        by (by rewrite <- app_assoc).
      replace (S (length pre)) with (length (pre ++ [b])) by len.
      destruct (IH t (pre ++ [b]) post Hz Ht) as (r & Hr & Hs).
      exists r. split; [done|]. intros ->. apply same_nocase_cons.
      split; [done|by apply Hs].
Qed.

End Compare.

Section Reply.
Context (cfg : config) (uip_is_addr_link_local : list Z -> bool).

Lemma store_nth buf p v x :
  buf !! p = Some x -> store buf p v = Ok (<[p:=v]> buf).
Proof.
  intros H. unfold store. by rewrite decide_True by (by eapply lookup_lt_Some).
Qed.

Lemma hdr_bytes_list h :
  hdr_bytes h
  = [h_id h / 256; h_id h mod 256; h_flags1 h; h_flags2 h;
     h_numquestions h / 256; h_numquestions h mod 256;
     h_numanswers h / 256; h_numanswers h mod 256;
     h_numauthrr h / 256; h_numauthrr h mod 256;
     h_numextrarr h / 256; h_numextrarr h mod 256].
Proof. done. Qed.

Ltac store_hdr :=
  repeat (erewrite store_nth by reflexivity; run; cbn [insert list_insert]).

(** The header of the request rewritten by [send_answer], the count of
    answers aside. *)
Lemma answer_hdr_stores h body :
  (buf ← store (hdr_bytes h ++ body) 2
           (Z.lor (h_flags1 h) (Z.lor DNS_FLAG1_RESPONSE DNS_FLAG1_AUTHORATIVE));
   buf ← store16 buf 4 0;
   buf ← store16 buf 8 0;
   store16 buf 10 0)
  = Ok (hdr_bytes (answer_hdr h (h_numanswers h)) ++ body).
Proof.
  rewrite !hdr_bytes_list. cbn [app]. unfold store16. cbn [Nat.add].
  store_hdr. done.
Qed.

Lemma numanswers_store h body n :
  0 <= n < 256 ->
  store16 (hdr_bytes (answer_hdr h (h_numanswers h)) ++ body) 6 n
  = Ok (hdr_bytes (answer_hdr h n) ++ body).
Proof.
  intros Hn. rewrite !hdr_bytes_list. cbn [app]. unfold store16. cbn [Nat.add].
  store_hdr. unfold answer_hdr. cbn.
  by rewrite (Z.div_small n 256), (Z.mod_small n 256) by lia.
Qed.

Lemma length_hdr_bytes h : length (hdr_bytes h) = 12%nat.
Proof. done. Qed.

Lemma length_own_answer n a :
  length a = addr_size cfg ->
  length (answer_bytes (own_answer cfg n a))
  = (length (name_bytes n) + 10 + addr_size cfg)%nat.
Proof.
  intros Ha. unfold answer_bytes. rewrite !length_app, length_answer_fixed by done.
  cbn [a_name a_rdata own_answer]. lia.
Qed.

Lemma send_answer_ipv4 r h ls old post dgram :
  UIP_CONF_IPV6 cfg = false ->
  ls <> [] -> Forall label_ok ls -> Forall plain_label ls ->
  length (uip_hostaddr r) = 4%nat -> length old = 14%nat ->
  dgram ++ uip_buf_rest r = hdr_bytes h ++ dotted ls ++ 0 :: old ++ post ->
  send_answer cfg uip_is_addr_link_local r dgram 13
  = Ok [uip_udp_packet_sendto
          (message (answer_hdr h 1) []
             [own_answer cfg {| labels := ls; pointer := None |} (uip_hostaddr r)]
             [])
          (answer_to cfg r) (srcport r)].
Proof.
  intros H4 Hne Hok Hp Ha Ho Hbuf. unfold send_answer. cbn zeta.
  rewrite Hbuf. clear Hbuf dgram.
  assert (Hf : load (hdr_bytes h ++ dotted ls ++ 0 :: old ++ post) 2
               = Ok (h_flags1 h)) by done.
  rewrite Hf. run.
  pose proof (answer_hdr_stores h (dotted ls ++ 0 :: old ++ post)) as Hs.
  revert Hs. run.
  destruct (store _ 2 _) as [b1|]; run; [|done].
  destruct (store16 b1 4 0) as [b2|]; run; [|done].
  destruct (store16 b2 8 0) as [b3|]; run; [|done].
  intros ->. run. rewrite H4, numanswers_store by lia. run.
  unfold encode_name_at. rewrite dotted_join by done. cbn [app].
  pose proof (encode_name_loop_in_place ls
                (S (length (hdr_bytes (answer_hdr h 1)
                            ++ 46 :: join_dots ls ++ 0 :: old ++ post)))
                (hdr_bytes (answer_hdr h 1)) 46 (old ++ post) Hne Hp) as He.
  rewrite length_hdr_bytes in He. rewrite He; clear He.
  - run.
    pose proof (write_answer_layout cfg
                  (hdr_bytes (answer_hdr h 1) ++ wire_labels ls ++ [0])
                  old post {| labels := ls; pointer := None |}
                  (uip_hostaddr r)) as Hw.
    rewrite !length_app, length_hdr_bytes in Hw. cbn [length] in Hw.
    rewrite <- !app_assoc in Hw. cbn [app] in Hw.
    rewrite !Nat.add_assoc in Hw. rewrite Hw; clear Hw.
    + run. unfold answer_to. do 3 f_equal.
      unfold message, answer_bytes, name_bytes. cbn [map concat].
      set (a := own_answer cfg {| labels := ls; pointer := None |} (uip_hostaddr r)).
      change (labels (a_name a)) with ls. change (pointer (a_name a)) with (@None (Z * Z)).
      change (a_rdata a) with (uip_hostaddr r).
      rewrite !app_nil_r. unfold addr_size. rewrite H4.
      match goal with |- take ?n ?l = ?x =>
        replace l with (x ++ post) by (rewrite <- !app_assoc; cbn [app]; by rewrite <- ?app_assoc)
      end.
      apply take_app_length'.
      rewrite !length_app, length_hdr_bytes, length_answer_fixed by done.
      cbn [length]. rewrite Ha. lia.
    + unfold addr_size. by rewrite H4.
    + unfold addr_size. by rewrite H4.
  - eapply Forall_impl; [exact Hok|]. intros l [_ Hl]. lia.
  - pose proof (length_wire_ge ls Hok) as H1.
    rewrite <- length_wire_dotted, dotted_join in H1 by done.
    len.
Qed.

End Reply.

Section Request.
Context (cfg : config) (uip_is_addr_link_local : list Z -> bool).

Lemma question_asked_layout pre ty cl post :
  question_asked cfg (pre ++ be16 ty ++ be16 cl ++ post) (length pre)
  = Ok (asks_address cfg ty cl).
Proof.
  unfold question_asked, asks_address.
  pose proof (load16_app_r pre (be16 ty ++ be16 cl ++ post) 2) as H2.
  pose proof (load16_app_0 pre (be16 ty ++ be16 cl ++ post)) as H0.
  rewrite H2, H0. unfold be16. cbn [app].
  rewrite !load16_S, !load16_O, !be16_value. run.
  destruct (Z.land cl 32767 =? DNS_CLASS_IN); [|done]. cbn [negb andb]. run.
  by destruct (ty =? DNS_TYPE_ANY).
Qed.

Lemma cstring_nonzero arr : forall s,
  cstring arr = Ok s -> Forall (fun c => c <> 0) s.
Proof.
  induction arr as [|c arr IH]; intros s; cbn [cstring]; [done|].
  destruct (Z.eqb_spec c 0); [by intros [= <-]|].
  destruct (cstring arr) as [s'|]; run; [|done].
  intros [= <-]. constructor; [done|by apply IH].
Qed.

Lemma plain_labels_nonzero ls :
  Forall plain_label ls -> Forall (Forall (fun c : Z => c <> 0)) ls.
Proof.
  intros Hp. eapply Forall_impl; [exact Hp|]. intros l Hl.
  eapply Forall_impl; [exact Hl|]. by intros c [_ ?].
Qed.

Lemma same_nocase_join t s1 s2 :
  (length s1 <= length t)%nat ->
  same_nocase (take (length s1) t) s1 -> same_nocase (drop (length s1) t) s2 ->
  same_nocase t (s1 ++ s2).
Proof.
  unfold same_nocase. intros Hl H1 H2.
  rewrite <- (take_drop (length s1) t) at 1. by rewrite !map_app, H1, H2.
Qed.

(** One turn of the loop over the questions, for a question with a name of
    its own. *)
Lemma answer_question r hn n pre ls ty cl post name :
  ls <> [] -> Forall label_ok ls -> Forall plain_label ls ->
  cstring (resolv_hostname r) = Ok hn ->
  answer_questions cfg uip_is_addr_link_local r (S n)
    (pre ++ wire_labels ls ++ 0 :: be16 ty ++ be16 cl ++ post) (length pre) name
  = if asks_address cfg ty cl
       && bool_decide (same_nocase (join_dots ls) (hn ++ cstr ".local"))
    then send_answer cfg uip_is_addr_link_local r
           (pre ++ dotted ls ++ 0 :: be16 ty ++ be16 cl ++ post)
           (S (length pre))
    else answer_questions cfg uip_is_addr_link_local r n
           (pre ++ dotted ls ++ 0 :: be16 ty ++ be16 cl ++ post)
           (length pre + length (wire_labels ls) + 1 + 4)%nat
           (Some (S (length pre))).
Proof.
  intros Hne Hok Hp Hh. cbn [answer_questions].
  destruct ls as [|l ls]; [done|].
  rewrite load_wire_head. run.
  apply Forall_cons in Hok as [Hl Hok'].
  rewrite land_192_small by (destruct Hl; lia). cbn [Z.eqb negb].
  pose proof (parse_name_labels (l :: ls) pre (be16 ty ++ be16 cl ++ post)) as Hparse.
  rewrite Hparse by (by try constructor). clear Hparse. run.
  replace (length pre + 1)%nat with (S (length pre)) by lia.
  set (ls' := l :: ls) in *.
  pose proof (question_asked_layout (pre ++ dotted ls' ++ [0]) ty cl post) as Hq.
  rewrite <- !app_assoc in Hq. cbn [app] in Hq.
  rewrite !length_app, length_wire_dotted in Hq. cbn [length] in Hq.
  rewrite Nat.add_assoc in Hq. rewrite Hq. clear Hq. run.
  destruct (asks_address cfg ty cl); [|done]. cbn [negb andb].
  rewrite Hh. run.
  pose proof (cstring_nonzero _ _ Hh) as Hhz.
  set (t := join_dots ls').
  assert (Htz : Forall (fun c => c <> 0) t)
    by (apply join_dots_nonzero; by apply plain_labels_nonzero).
  rewrite (dotted_join ls') by done. fold t. cbn [app].
  destruct (strncasecmp_eq_text hn t (pre ++ [46]) (be16 ty ++ be16 cl ++ post) Hhz)
    as (b1 & Hb1 & Hs1).
  rewrite <- app_assoc in Hb1. cbn [app] in Hb1.
  rewrite length_app in Hb1. cbn [length] in Hb1.
  replace (length pre + 1)%nat with (S (length pre)) in Hb1 by lia.
  rewrite Hb1. run.
  destruct b1.
  2: { cbn [negb]. rewrite bool_decide_eq_false_2; [done|].
       intros Hsame. apply same_nocase_split in Hsame as (H1 & _ & _ & Hlen).
       revert Hb1. rewrite <- (take_drop (length hn) t) at 1.
       rewrite <- !app_assoc. cbn [app].
       pose proof (strncasecmp_eq_same hn (take (length hn) t) (pre ++ [46])
                     (drop (length hn) t ++ 0 :: be16 ty ++ be16 cl ++ post) H1)
         as Ht.
       rewrite <- !app_assoc, length_app in Ht. cbn [app length] in Ht.
       replace (length pre + 1)%nat with (S (length pre)) in Ht by lia.
       by rewrite Ht. }
  destruct (Hs1 eq_refl) as [Hsame1 Hlen1]. cbn [negb].
  assert (Hdz : Forall (fun c => c <> 0) (drop (length hn) t))
    by (by apply Forall_drop).
  destruct (strcasecmp_eq_text (cstr ".local") (drop (length hn) t)
              (pre ++ 46 :: take (length hn) t) (be16 ty ++ be16 cl ++ post))
    as (b2 & Hb2 & Hs2); [by vm_compute; repeat constructor|done|].
  rewrite <- !app_assoc in Hb2. cbn [app] in Hb2.
  rewrite (app_assoc (take (length hn) t) (drop (length hn) t)), take_drop in Hb2.
  rewrite length_app in Hb2. cbn [length] in Hb2. rewrite length_take in Hb2.
  replace (length pre + S (length hn `min` length t))%nat
    with (S (length pre) + length hn)%nat in Hb2 by lia.
  rewrite Hb2. run.
  destruct b2; cbn [negb].
  - rewrite bool_decide_eq_true_2; [done|].
    apply same_nocase_join; [done|done|by apply Hs2].
  - rewrite bool_decide_eq_false_2; [done|].
    intros Hsame. apply same_nocase_split in Hsame as (_ & H2 & _ & _).
    pose proof (strcasecmp_eq_same (cstr ".local") (drop (length hn) t)
                  (pre ++ 46 :: take (length hn) t)
                  (be16 ty ++ be16 cl ++ post) H2) as Ht.
    rewrite <- !app_assoc in Ht. cbn [app] in Ht.
    rewrite (app_assoc (take (length hn) t) (drop (length hn) t)), take_drop in Ht.
    rewrite length_app in Ht. cbn [length] in Ht. rewrite length_take in Ht.
    replace (length pre + S (length hn `min` length t))%nat
      with (S (length pre) + length hn)%nat in Ht by lia.
    congruence.
Qed.

End Request.

Section Requests.
Context (cfg : config) (uip_is_addr_link_local : list Z -> bool).

Lemma answer_request_header r h body :
  RESOLV_CONF_MDNS_RESPONDER r = true ->
  h_numquestions h mod 256 <> 0 -> h_numanswers h mod 256 = 0 ->
  answer_request cfg uip_is_addr_link_local r (hdr_bytes h ++ body)
  = answer_questions cfg uip_is_addr_link_local r
      (Z.to_nat (h_numquestions h mod 256)) (hdr_bytes h ++ body) 12 None.
Proof.
  intros Hr Hq Ha. unfold answer_request. rewrite Hr.
  destruct (header_fields h body) as (_ & _ & _ & H4 & H6).
  rewrite H4, H6. run. rewrite Ha.
  by destruct (Z.eqb_spec (h_numquestions h mod 256) 0).
Qed.

Lemma newdata_request st r h body :
  h_flags1 h = 0 -> h_flags2 h = 0 ->
  newdata cfg (answer_request cfg uip_is_addr_link_local r) st
    (hdr_bytes h ++ body)
  = ev ← answer_request cfg uip_is_addr_link_local r (hdr_bytes h ++ body);
    mret (st, ev).
Proof.
  intros H1 H2. unfold newdata.
  destruct (header_fields h body) as (_ & Hf1 & Hf2 & H4 & H6).
  rewrite H4, H6, Hf1, Hf2, H1, H2. by run.
Qed.

(** X15. In the IPv4 build, a request whose first question asks for an
    address of the host's name followed by ".local", in any case of the
    letters, is answered with one datagram and the table is left alone,
    provided the answer is not longer than the packet buffer (the request
    and what follows it in [uip_buf]): the header of the request with the
    response and authoritative flags set, no question, one answer; the
    name as it was asked; a record of type A and class IN with the
    cache-flush bit, a time to live of 120 seconds and the address of the
    host. It goes to the mDNS group when the request came from the mDNS
    port and to the sender otherwise, to the port the request came from.
    The request may end with its question. *)
Theorem request_answered st r h hn ls ty cl post :
  UIP_CONF_IPV6 cfg = false -> RESOLV_CONF_MDNS_RESPONDER r = true ->
  h_flags1 h = 0 -> h_flags2 h = 0 ->
  h_numquestions h mod 256 <> 0 -> h_numanswers h mod 256 = 0 ->
  walkable (ls, ty, cl) ->
  cstring (resolv_hostname r) = Ok hn -> asks_for cfg hn (ls, ty, cl) ->
  length (uip_hostaddr r) = 4%nat ->
  (length (message (answer_hdr h 1) []
             [own_answer cfg {| labels := ls; pointer := None |}
                         (uip_hostaddr r)] [])
   <= length (hdr_bytes h ++ question_bytes (plain_question ls ty cl) ++ post)
      + length (uip_buf_rest r))%nat ->
  newdata cfg (answer_request cfg uip_is_addr_link_local r) st
    (hdr_bytes h ++ question_bytes (plain_question ls ty cl) ++ post)
  = Ok (st,
        [uip_udp_packet_sendto
           (message (answer_hdr h 1) []
              [own_answer cfg {| labels := ls; pointer := None |}
                          (uip_hostaddr r)] [])
           (answer_to cfg r) (srcport r)]).
Proof.
  intros H4 Hr Hf1 Hf2 Hnq Hna (Hne & Hok & Hp) Hh [Hask Hsame] Ha Hroom.
  cbn [fst snd] in *.
  rewrite newdata_request, answer_request_header by done.
  destruct (Z.to_nat (h_numquestions h mod 256)) as [|n] eqn:Hn.
  { pose proof (Z.mod_pos_bound (h_numquestions h) 256 ltac:(lia)). lia. }
  unfold question_bytes, plain_question, name_bytes.
  cbn [q_name q_fixed labels pointer]. rewrite <- !app_assoc. cbn [app].
  pose proof (answer_question cfg uip_is_addr_link_local r hn n (hdr_bytes h)
                ls ty cl post None Hne Hok Hp Hh) as Hq.
  rewrite length_hdr_bytes in Hq. rewrite Hq. clear Hq.
  rewrite Hask, bool_decide_eq_true_2 by done. cbn [andb].
  set (tail := be16 ty ++ be16 cl ++ post ++ uip_buf_rest r).
  assert (Htail : (14 <= length tail)%nat).
  { revert Hroom. unfold tail, message, question_bytes, plain_question.
    cbn [map concat q_name q_fixed]. rewrite !app_nil_r.
    rewrite !length_app, !length_hdr_bytes, length_own_answer
      by (unfold addr_size; by rewrite H4).
    unfold addr_size, be16. rewrite H4. cbn [length]. lia. }
  rewrite (send_answer_ipv4 cfg uip_is_addr_link_local r h ls
             (take 14 tail) (drop 14 tail)); try done.
  - rewrite length_take. lia.
  - rewrite take_drop. unfold tail. rewrite <- !app_assoc. cbn [app].
    by rewrite <- !app_assoc.
Qed.



End Requests.

Section Reply6.
Context (cfg : config) (uip_is_addr_link_local : list Z -> bool).

Lemma answer_addresses_rest r name l : forall pre room acount,
  0 < acount ->
  acount + Z.of_nat (length (own_addresses uip_is_addr_link_local r l)) < 256 ->
  Forall (fun a => length a = addr_size cfg)
         (own_addresses uip_is_addr_link_local r l) ->
  (length (concat (map answer_bytes
             (map (own_answer cfg name_pointer)
                  (own_addresses uip_is_addr_link_local r l))))
   <= length room)%nat ->
  let bytes := concat (map answer_bytes
                 (map (own_answer cfg name_pointer)
                      (own_addresses uip_is_addr_link_local r l))) in
  answer_addresses cfg uip_is_addr_link_local r l (pre ++ room) (length pre)
                   name acount
  = Ok (pre ++ bytes ++ drop (length bytes) room,
        (length pre + length bytes)%nat,
        acount + Z.of_nat (length (own_addresses uip_is_addr_link_local r l))).
Proof.
  induction l as [|[u a] l IH]; intros pre room acount Hc Hn Hl Hroom bytes.
  - unfold bytes. cbn. by rewrite Nat.add_0_r, Z.add_0_r, drop_0.
  - cbn [answer_addresses own_addresses] in *.
    destruct (u && (_ || _)); [|by apply IH].
    apply Forall_cons in Hl as [Ha Hl].
    cbn [map concat length] in *.
    rewrite length_app, length_own_answer in Hroom by done.
    cbn [name_bytes name_pointer labels pointer wire_labels map concat app length] in Hroom.
    destruct (Z.eqb_spec acount 0); [lia|].
    set (rest := own_addresses uip_is_addr_link_local r l) in *.
    rewrite <- (take_drop 2 room) at 1.
    assert (H2 : length (take 2 room) = 2%nat) by (rewrite length_take; lia).
    pose proof (store_bytes_middle [192; 12] pre (take 2 room) (drop 2 room) H2) as Hs.
    cbn [store_bytes] in Hs. revert Hs.
    destruct (store _ (length pre) 192) as [b1|]; run; [|done].
    replace (length pre + 1)%nat with (S (length pre)) by lia.
    destruct (store b1 _ 12) as [b2|]; run; [|done].
    intros [= ->].
    set (N := (10 + addr_size cfg)%nat).
    rewrite <- (take_drop N (drop 2 room)).
    replace (pre ++ 192 :: 12 :: take N (drop 2 room) ++ drop N (drop 2 room))
      with ((pre ++ [192; 12]) ++ take N (drop 2 room) ++ drop N (drop 2 room))
      by (by rewrite <- app_assoc).
    replace (length pre + 2)%nat with (length (pre ++ [192; 12])) by len.
    rewrite (write_answer_layout cfg _ _ _ name_pointer); [|done|].
    2: { rewrite length_take, length_drop. lia. }
    run.
    replace ((pre ++ [192; 12])
               ++ (answer_fixed (own_answer cfg name_pointer a) ++ a)
               ++ drop N (drop 2 room))
      with ((pre ++ answer_bytes (own_answer cfg name_pointer a))
              ++ drop N (drop 2 room))
      by (unfold answer_bytes; cbn; by rewrite <- !app_assoc).
    replace (length (pre ++ [192%Z; 12%Z]) + 10 + addr_size cfg)%nat
      with (length (pre ++ answer_bytes (own_answer cfg name_pointer a)))
      by (rewrite !length_app, length_own_answer by done; cbn; lia).
    rewrite Z.mod_small by lia.
    rewrite IH; [|lia|lia|done|].
    2: { rewrite !length_drop. lia. }
    unfold bytes. rewrite <- !app_assoc, !length_app, !drop_drop.
    rewrite length_own_answer by done.
    cbn [name_bytes name_pointer labels pointer wire_labels map concat app length].
    unfold N.
    replace (2 + (10 + addr_size cfg + length (concat (map answer_bytes (map (own_answer cfg name_pointer) rest)))))%nat
      with (2 + 10 + addr_size cfg + length (concat (map answer_bytes (map (own_answer cfg name_pointer) rest))))%nat by lia.
    do 2 f_equal; [f_equal|]; lia.
Qed.


Lemma answer_addresses_first r h ls l : forall room,
  ls <> [] -> Forall label_ok ls -> Forall plain_label ls ->
  Z.of_nat (length (own_addresses uip_is_addr_link_local r l)) < 256 ->
  Forall (fun a => length a = addr_size cfg)
         (own_addresses uip_is_addr_link_local r l) ->
  let bytes := concat (map answer_bytes
                 (own_answers cfg ls (own_addresses uip_is_addr_link_local r l))) in
  (length bytes <= length (wire_labels ls) + 1 + length room)%nat ->
  answer_addresses cfg uip_is_addr_link_local r l
    (hdr_bytes h ++ dotted ls ++ 0 :: room) 12 13 0
  = Ok (match own_addresses uip_is_addr_link_local r l with
        | [] => hdr_bytes h ++ dotted ls ++ 0 :: room
        | _ => hdr_bytes h ++ bytes
               ++ drop (length bytes - (length (wire_labels ls) + 1)) room
        end,
        (12 + length bytes)%nat,
        Z.of_nat (length (own_addresses uip_is_addr_link_local r l))).
Proof.
  induction l as [|[u a] l IH]; intros room Hne Hok Hp Hn Hl bytes Hroom.
  - unfold bytes. cbn. done.
  - cbn [answer_addresses own_addresses] in *.
    destruct (u && (_ || _)); [|by apply IH].
    set (rest := own_addresses uip_is_addr_link_local r l) in *.
    apply Forall_cons in Hl as [Ha Hl].
    cbn [own_answers map concat length] in *.
    set (first := own_answer cfg {| labels := ls; pointer := None |} a) in *.
    set (more := concat (map answer_bytes (map (own_answer cfg name_pointer) rest))) in *.
    assert (Hfirst : length (answer_bytes first)
                     = (length (wire_labels ls) + 1 + 10 + addr_size cfg)%nat).
    { unfold first. rewrite length_own_answer by done.
      unfold name_bytes. cbn [labels pointer]. rewrite length_app. cbn [length]. lia. }
    unfold bytes in Hroom. rewrite length_app, Hfirst in Hroom.
    cbn [Z.eqb].
    unfold encode_name_at. rewrite dotted_join by done. cbn [app].
    pose proof (encode_name_loop_in_place ls
                  (S (length (hdr_bytes h ++ 46 :: join_dots ls ++ 0 :: room)))
                  (hdr_bytes h) 46 room Hne Hp) as He.
    rewrite length_hdr_bytes in He. rewrite He; clear He.
    2: { eapply Forall_impl; [exact Hok|]. intros x [_ Hx]. lia. }
    2: { pose proof (length_wire_ge ls Hok) as H1.
         rewrite <- length_wire_dotted, dotted_join in H1 by done. len. }
    run.
    set (N := (10 + addr_size cfg)%nat).
    rewrite <- (take_drop N room) at 1.
    pose proof (write_answer_layout cfg (hdr_bytes h ++ wire_labels ls ++ [0])
                  (take N room) (drop N room)
                  {| labels := ls; pointer := None |} a Ha) as Hw.
    rewrite !length_app, length_hdr_bytes in Hw. cbn [length] in Hw.
    rewrite <- !app_assoc in Hw. cbn [app] in Hw.
    rewrite !Nat.add_assoc in Hw. rewrite Hw; clear Hw.
    2: { rewrite length_take. unfold N. lia. }
    run. fold first.
    replace (hdr_bytes h ++ wire_labels ls ++ 0 :: answer_fixed first ++ a ++ drop N room)
      with ((hdr_bytes h ++ answer_bytes first) ++ drop N room)
      by (unfold answer_bytes, name_bytes, first; cbn [own_answer a_name a_rdata labels pointer];
          rewrite <- ?app_assoc; cbn [app]; by rewrite <- ?app_assoc).
    replace (12 + length (wire_labels ls) + 1 + 10 + addr_size cfg)%nat
      with (length (hdr_bytes h ++ answer_bytes first))
      by (rewrite length_app, length_hdr_bytes, Hfirst; lia).
    change ((0 + 1) mod 256) with 1.
    rewrite (answer_addresses_rest r 13%nat l); [|done|fold rest; lia|done|].
    2: { fold rest more. rewrite length_drop. unfold N. lia. }
    fold rest more. cbn [Z.add].
    rewrite <- !app_assoc, !length_app, length_hdr_bytes, drop_drop, Hfirst.
    unfold bytes. rewrite length_app, Hfirst.
    rewrite <- app_assoc.
    replace (length (wire_labels ls) + 1 + 10 + addr_size cfg + length more
             - (length (wire_labels ls) + 1))%nat
      with (N + length more)%nat by (unfold N; lia).
    repeat f_equal; lia.
Qed.

End Reply6.

Section Requests6.
Context (cfg : config) (uip_is_addr_link_local : list Z -> bool).

Lemma length_own_answers ls addrs :
  length (own_answers cfg ls addrs) = length addrs.
Proof. destruct addrs; [done|]. cbn [own_answers length]. by rewrite length_map. Qed.

Lemma send_answer_ipv6 r h ls room dgram :
  UIP_CONF_IPV6 cfg = true ->
  ls <> [] -> Forall label_ok ls -> Forall plain_label ls ->
  let addrs := own_addresses uip_is_addr_link_local r (uip_ds6_addr_list r) in
  let bytes := concat (map answer_bytes (own_answers cfg ls addrs)) in
  Z.of_nat (length addrs) < 256 ->
  Forall (fun a => length a = addr_size cfg) addrs ->
  (length bytes <= length (wire_labels ls) + 1 + length room)%nat ->
  dgram ++ uip_buf_rest r = hdr_bytes h ++ dotted ls ++ 0 :: room ->
  send_answer cfg uip_is_addr_link_local r dgram 13
  = Ok [uip_udp_packet_sendto
          (message (answer_hdr h (Z.of_nat (length addrs))) []
                   (own_answers cfg ls addrs) [])
          (answer_to cfg r) (srcport r)].
Proof.
  intros H6 Hne Hok Hp addrs bytes Hn Hl Hroom Hbuf. unfold send_answer.
  cbn zeta. rewrite Hbuf. clear Hbuf dgram.
  assert (Hf : load (hdr_bytes h ++ dotted ls ++ 0 :: room) 2
               = Ok (h_flags1 h)) by done.
  rewrite Hf. run.
  pose proof (answer_hdr_stores h (dotted ls ++ 0 :: room)) as Hs.
  revert Hs. run.
  destruct (store _ 2 _) as [b1|]; run; [|done].
  destruct (store16 b1 4 0) as [b2|]; run; [|done].
  destruct (store16 b2 8 0) as [b3|]; run; [|done].
  intros ->. run. rewrite H6.
  rewrite (answer_addresses_first cfg uip_is_addr_link_local r _ ls) by done.
  run. fold addrs bytes.
  assert (Hsend : forall body,
    take (12 + length bytes)
         (hdr_bytes (answer_hdr h (Z.of_nat (length addrs))) ++ bytes ++ body)
    = message (answer_hdr h (Z.of_nat (length addrs))) []
              (own_answers cfg ls addrs) []).
  { intros body. unfold message. cbn [map concat]. rewrite app_nil_r. fold bytes.
    rewrite app_assoc. apply take_app_length'.
    by rewrite length_app, length_hdr_bytes. }
  destruct addrs as [|a addrs'] eqn:Ha.
  - rewrite numanswers_store by (cbn; lia). run. unfold answer_to.
    by do 3 f_equal.
  - rewrite numanswers_store by lia. run. unfold answer_to.
    do 3 f_equal. apply Hsend.
Qed.

(** The reply of the IPv6 build to a request for the host's name. *)
Lemma ipv6_request_reply st r h hn ls ty cl post :
  UIP_CONF_IPV6 cfg = true -> RESOLV_CONF_MDNS_RESPONDER r = true ->
  h_flags1 h = 0 -> h_flags2 h = 0 ->
  h_numquestions h mod 256 <> 0 -> h_numanswers h mod 256 = 0 ->
  walkable (ls, ty, cl) ->
  cstring (resolv_hostname r) = Ok hn -> asks_for cfg hn (ls, ty, cl) ->
  let addrs := own_addresses uip_is_addr_link_local r (uip_ds6_addr_list r) in
  Z.of_nat (length addrs) < 256 ->
  Forall (fun a => length a = 16%nat) addrs ->
  (length (message (answer_hdr h (Z.of_nat (length addrs))) []
             (own_answers cfg ls addrs) [])
   <= length (hdr_bytes h ++ question_bytes (plain_question ls ty cl) ++ post)
      + length (uip_buf_rest r))%nat ->
  newdata cfg (answer_request cfg uip_is_addr_link_local r) st
    (hdr_bytes h ++ question_bytes (plain_question ls ty cl) ++ post)
  = Ok (st,
        [uip_udp_packet_sendto
           (message (answer_hdr h (Z.of_nat (length addrs))) []
                    (own_answers cfg ls addrs) [])
           (answer_to cfg r) (srcport r)]).
Proof.
  intros H6 Hr Hf1 Hf2 Hnq Hna (Hne & Hok & Hp) Hh [Hask Hsame] addrs Hn Hl Hroom.
  cbn [fst snd] in *.
  rewrite newdata_request, answer_request_header by done.
  destruct (Z.to_nat (h_numquestions h mod 256)) as [|n] eqn:Hnn.
  { pose proof (Z.mod_pos_bound (h_numquestions h) 256 ltac:(lia)). lia. }
  unfold question_bytes, plain_question, name_bytes.
  cbn [q_name q_fixed labels pointer]. rewrite <- !app_assoc. cbn [app].
  pose proof (answer_question cfg uip_is_addr_link_local r hn n (hdr_bytes h)
                ls ty cl post None Hne Hok Hp Hh) as Hq.
  rewrite length_hdr_bytes in Hq. rewrite Hq. clear Hq.
  rewrite Hask, bool_decide_eq_true_2 by done. cbn [andb].
  rewrite (send_answer_ipv6 r h ls
             (be16 ty ++ be16 cl ++ post ++ uip_buf_rest r)); try done.
  - unfold addr_size. by rewrite H6.
  - revert Hroom. unfold message, question_bytes, plain_question, name_bytes.
    cbn [map concat q_name q_fixed labels pointer]. rewrite !app_nil_r.
    fold addrs. unfold be16. rewrite !length_app, !length_hdr_bytes.
    cbn [length]. lia.
  - rewrite <- !app_assoc. cbn [app]. by rewrite <- !app_assoc.
Qed.

(** X17. In the IPv6 build, a request whose first question asks for an
    address of the host's name followed by ".local" is answered with one
    datagram, provided the answer is not longer than the packet buffer
    (the request and what follows it in [uip_buf]). The answer holds one
    AAAA record per address of the interface that is in use and
    link-local (or in use, when global addresses are included): the first
    under the name as it was asked, the others under a pointer to it.
    With no such address the answer holds no record. The table is left
    alone. The request may end with its question. *)
Theorem request_answered_ipv6 st r h hn ls ty cl post :
  UIP_CONF_IPV6 cfg = true -> RESOLV_CONF_MDNS_RESPONDER r = true ->
  h_flags1 h = 0 -> h_flags2 h = 0 ->
  h_numquestions h mod 256 <> 0 -> h_numanswers h mod 256 = 0 ->
  walkable (ls, ty, cl) ->
  cstring (resolv_hostname r) = Ok hn -> asks_for cfg hn (ls, ty, cl) ->
  let addrs := own_addresses uip_is_addr_link_local r (uip_ds6_addr_list r) in
  Z.of_nat (length addrs) < 256 ->
  Forall (fun a => length a = 16%nat) addrs ->
  (length (message (answer_hdr h (Z.of_nat (length addrs))) []
             (own_answers cfg ls addrs) [])
   <= length (hdr_bytes h ++ question_bytes (plain_question ls ty cl) ++ post)
      + length (uip_buf_rest r))%nat ->
  newdata cfg (answer_request cfg uip_is_addr_link_local r) st
    (hdr_bytes h ++ question_bytes (plain_question ls ty cl) ++ post)
  = Ok (st,
        [uip_udp_packet_sendto
           (message (answer_hdr h (Z.of_nat (length addrs))) []
                    (own_answers cfg ls addrs) [])
           (answer_to cfg r) (srcport r)]).
Proof. exact (ipv6_request_reply st r h hn ls ty cl post). Qed.

End Requests6.

Section RoundTrip.
Context (cfg : config) (uip_is_addr_link_local : list Z -> bool).
Context (mdns_responder : list Z -> result (list event)).

Lemma split_dots_plain s :
  Forall (fun c => c <> 0) s -> Forall plain_label (split_dots s).
Proof.
  induction 1 as [|c s Hc _ IH]; cbn [split_dots].
  - by repeat constructor.
  - destruct (Z.eqb_spec c 46) as [|Hd]; [constructor; [constructor|done]|].
    destruct (split_dots s) as [|l ls]; [by repeat constructor|].
    apply Forall_cons in IH as [Hl Hls]. constructor; [|done].
    by constructor.
Qed.

Lemma split_dots_nonempty s : split_dots s <> [].
Proof. by destruct (split_dots_cons s) as (l & ls & ->). Qed.

Lemma decode_encode_index i :
  (i < 256)%nat ->
  Z.to_nat (RESOLV_DECODE_INDEX (RESOLV_ENCODE_INDEX (Z.of_nat i))) = i.
Proof.
  intros Hi. unfold RESOLV_DECODE_INDEX, RESOLV_ENCODE_INDEX.
  rewrite (Z.mod_small (Z.of_nat i + 61616)) by lia.
  replace (Z.of_nat i + 61616 - 61616) with (Z.of_nat i) by lia.
  rewrite Z.mod_small by lia. lia.
Qed.

Lemma own_answers_ok ls addrs :
  ls <> [] -> Forall label_ok ls -> Forall answer_ok (own_answers cfg ls addrs).
Proof.
  intros Hne Hok. destruct addrs as [|a addrs]; [done|].
  cbn [own_answers]. constructor; [by repeat split|].
  apply Forall_map, Forall_true. intros b. by repeat split.
Qed.

(** X18. Question and answer meet, in the IPv6 build: the datagram that
    the resolver sends for an mDNS name, as it is and with nothing behind
    it, handed to the responder of the host of that name, is answered
    with a datagram that the resolver accepts for the entry it asked for:
    the entry is resolved to the first address that the responder
    announces, and that address is posted. The packet buffer of the
    responder has to hold the answer: 22 bytes more than the question,
    and 28 for every further address. *)
Theorem own_answer_resolves st i e nm sr r hn a others :
  UIP_CONF_IPV6 cfg = true ->
  names st !! i = Some e -> state e = STATE_ASKING -> (i < 256)%nat ->
  uses_mdns cfg e = true -> cstring (name e) = Ok nm ->
  Forall label_ok (split_dots nm) ->
  RESOLV_CONF_MDNS_RESPONDER r = true ->
  cstring (resolv_hostname r) = Ok hn -> same_nocase nm (hn ++ cstr ".local") ->
  own_addresses uip_is_addr_link_local r (uip_ds6_addr_list r) = a :: others ->
  Forall (fun b => length b = 16%nat) (a :: others) ->
  (length others < 255)%nat ->
  (22 + 28 * length others <= length (uip_buf_rest r))%nat ->
  exists answer,
    newdata cfg (answer_request cfg uip_is_addr_link_local r) sr
      (message (query_hdr cfg i e) [query_question cfg nm] [] [])
    = Ok (sr, [uip_udp_packet_sendto answer (answer_to cfg r) (srcport r)])
    /\ newdata cfg mdns_responder st answer
       = Ok (with_names st
               (<[i:=set_ipaddr a (set_state STATE_DONE
                       (set_err 0 (set_state STATE_ERROR e)))]> (names st)),
             [resolv_found (name e) (Some a)]).
Proof.
  intros H6 He Hst Hi Hm Hnm Hok Hr Hh Hsame Haddrs Hlen Hn Hroom.
  pose proof (cstring_nonzero _ _ Hnm) as Hz.
  pose proof (split_dots_plain nm Hz) as Hp.
  pose proof (split_dots_nonempty nm) as Hne.
  set (ls := split_dots nm) in *.
  set (h := query_hdr cfg i e).
  assert (Hq : newdata cfg (answer_request cfg uip_is_addr_link_local r) sr
                 (message h [query_question cfg nm] [] [])
               = Ok (sr, [uip_udp_packet_sendto
                     (message (answer_hdr h (Z.of_nat (length (a :: others)))) []
                              (own_answers cfg ls (a :: others)) [])
                     (answer_to cfg r) (srcport r)])).
  { unfold message at 1. cbn [map concat app]. rewrite !app_nil_r.
    change (query_question cfg nm)
      with (plain_question ls (query_type cfg) DNS_CLASS_IN).
    rewrite <- Haddrs.
    pose proof (ipv6_request_reply cfg uip_is_addr_link_local sr r h hn ls
                  (query_type cfg) DNS_CLASS_IN []) as Hreply.
    rewrite !app_nil_r in Hreply. apply Hreply; clear Hreply; try done.
    - unfold h, query_hdr. cbn [h_flags1]. by rewrite Hm.
    - split; cbn [fst snd]; [|by unfold ls; rewrite join_split_dots].
      unfold asks_address, query_type. by destruct (UIP_CONF_IPV6 cfg).
    - rewrite Haddrs. cbn [length]. lia.
    - by rewrite Haddrs.
    - rewrite Haddrs. unfold message at 1. cbn [own_answers map concat].
      rewrite ?app_nil_r, !length_app, !length_hdr_bytes.
      rewrite length_own_answer by (unfold addr_size; rewrite H6; by apply Forall_cons in Hlen as [? _]).
      assert (Hmore : length (concat (map answer_bytes
                         (map (own_answer cfg name_pointer) others)))
                      = (28 * length others)%nat).
      { apply Forall_cons in Hlen as [_ Hlen]. clear -Hlen H6.
        induction Hlen as [|b l Hb _ IH]; [done|].
        cbn [map concat length]. rewrite length_app, IH, length_own_answer
          by (unfold addr_size; by rewrite H6).
        unfold addr_size. rewrite H6. cbn. lia. }
      rewrite Hmore. unfold question_bytes, plain_question, name_bytes, addr_size.
      rewrite H6. cbn [q_name q_fixed labels pointer]. unfold be16.
      rewrite !length_app. cbn [length]. lia. }
  eexists. split; [exact Hq|].
  pose proof (newdata_message_ipv6 cfg mdns_responder st
                (answer_hdr h (Z.of_nat (length (a :: others)))) [] []
                (own_answer cfg {| labels := ls; pointer := None |} a)
                (map (own_answer cfg name_pointer) others) [] i e H6) as Hd.
  cbn [app] in Hd. apply Hd; clear Hd; try done.
  - intros [H _]. revert H. unfold h, query_hdr, answer_hdr. cbn [h_flags1].
    by rewrite Hm.
  - apply (own_answers_ok ls (a :: others)); done.
  - cbn [h_numanswers answer_hdr length]. rewrite length_map.
    rewrite Z.mod_small; [done|]. cbn [length] in *. lia.
  - cbn [h_id answer_hdr h query_hdr]. by rewrite decode_encode_index.
  - cbn [a_type own_answer]. unfold query_type. by rewrite H6.
  - cbn [a_rdata own_answer]. by apply Forall_cons in Hlen as [? _].
Qed.

End RoundTrip.

Section Hostname.

Lemma closed_array_initial : closed_array initial_hostname.
Proof. done. Qed.

Lemma strncpy_hostname arr h :
  closed_array arr ->
  strncpy arr h RESOLV_CONF_MAX_DOMAIN_NAME_SIZE
  = take RESOLV_CONF_MAX_DOMAIN_NAME_SIZE h
    ++ replicate (RESOLV_CONF_MAX_DOMAIN_NAME_SIZE - length h) 0 ++ [0].
Proof.
  intros [Hl H0]. unfold strncpy.
  assert (Hd : drop RESOLV_CONF_MAX_DOMAIN_NAME_SIZE arr = [0]).
  { apply list_eq. intros [|i].
    - by rewrite lookup_drop, Nat.add_0_r.
    - rewrite lookup_drop.
      transitivity (@None Z); [apply lookup_ge_None; lia|by destruct i]. }
  rewrite Hd, app_assoc. f_equal.
  rewrite take_app. f_equal. rewrite take_replicate. f_equal. lia.
Qed.

Lemma set_hostname_closed r h :
  closed_array (resolv_hostname r) ->
  closed_array (resolv_hostname (resolv_set_hostname r h).1).
Proof.
  intros Hc. cbn [resolv_set_hostname fst resolv_hostname].
  rewrite strncpy_hostname by done. split.
  - rewrite !length_app, length_take, length_replicate. cbn [length]. lia.
  - rewrite app_assoc. rewrite lookup_app_r;
      rewrite length_app, length_take, length_replicate; [|lia].
    replace (RESOLV_CONF_MAX_DOMAIN_NAME_SIZE
             - (RESOLV_CONF_MAX_DOMAIN_NAME_SIZE `min` length h
                + (RESOLV_CONF_MAX_DOMAIN_NAME_SIZE - length h)))%nat
      with O by lia.
    done.
Qed.

Lemma set_hostname_cstring r h :
  closed_array (resolv_hostname r) -> Forall (fun c => c <> 0) h ->
  cstring (resolv_hostname (resolv_set_hostname r h).1)
  = Ok (take RESOLV_CONF_MAX_DOMAIN_NAME_SIZE h).
Proof.
  intros Hc Hz. cbn [resolv_set_hostname fst resolv_hostname].
  rewrite strncpy_hostname by done.
  destruct (RESOLV_CONF_MAX_DOMAIN_NAME_SIZE - length h)%nat as [|k].
  - cbn [replicate app]. apply cstring_prefix. by apply Forall_take.
  - cbn [replicate app]. apply cstring_prefix. by apply Forall_take.
Qed.

(** X19. The host name is always a string: starting from the default name,
    after any run of calls of [resolv_set_hostname] with names of any
    length, [resolv_get_hostname] holds a terminated string, the first 32
    characters of the name given last. Every call asks for the check of
    the name. *)
Theorem hostname_is_last_set r hs :
  resolv_hostname r = initial_hostname ->
  Forall (Forall (fun c => c <> 0)) hs ->
  cstring (resolv_get_hostname (set_hostnames r hs))
  = Ok (match last hs with
        | Some h => take RESOLV_CONF_MAX_DOMAIN_NAME_SIZE h
        | None => CONTIKI_CONF_DEFAULT_HOSTNAME
        end)
  /\ forall h, (resolv_set_hostname (set_hostnames r hs) h).2
               = [RESOLV_EVENT_START_COLLISION_CHECK].
Proof.
  intros Hi Hz. split; [|done]. unfold resolv_get_hostname.
  assert (Hc : closed_array (resolv_hostname r))
    by (rewrite Hi; apply closed_array_initial).
  assert (Hgen : forall r0, closed_array (resolv_hostname r0) ->
            closed_array (resolv_hostname (set_hostnames r0 hs))
            /\ (hs <> [] ->
                cstring (resolv_hostname (set_hostnames r0 hs))
                = Ok (match last hs with
                      | Some h => take RESOLV_CONF_MAX_DOMAIN_NAME_SIZE h
                      | None => []
                      end))).
  { clear r Hi Hc. induction Hz as [|h hs Hh Hz IH]; intros r0 Hc; [done|].
    cbn [set_hostnames fold_left].
    pose proof (set_hostname_closed r0 h Hc) as Hc1.
    destruct (IH _ Hc1) as [Hc2 Hs2]. split; [done|]. intros _.
    destruct hs as [|h' hs]; [by apply set_hostname_cstring|].
    by apply Hs2. }
  destruct hs as [|h hs]; [by cbn; rewrite Hi|].
  destruct (Hgen r Hc) as [_ Hs]. rewrite Hs by done.
  destruct (last (h :: hs)) eqn:Hlast; [done|].
  by apply last_None in Hlast.
Qed.

End Hostname.

Section Start.
Context (cfg : config) (uip_is_addr_link_local : list Z -> bool).

Lemma split_dots_length s :
  Forall (fun l => (length l <= length s)%nat) (split_dots s).
Proof.
  induction s as [|c s IH]; cbn [split_dots]; [apply Forall_cons_2; [done|apply Forall_nil_2]|].
  assert (IH' : Forall (fun l => (length l <= S (length s))%nat) (split_dots s))
    by (eapply Forall_impl; [exact IH|]; intros l Hl; cbn beta in *; lia).
  cbn [length]. destruct (c =? 46).
  - apply Forall_cons_2; [cbn [length]; lia|done].
  - destruct (split_dots s) as [|l ls]; [apply Forall_cons_2; [cbn [length]; lia|apply Forall_nil_2]|].
    apply Forall_cons in IH as [Hl _]. apply Forall_cons in IH' as [_ Hls].
    apply Forall_cons_2; [cbn [length]; lia|done].
Qed.

Lemma ends_in_local_own hn : ends_in_local (hn ++ cstr ".local") = true.
Proof.
  unfold ends_in_local. apply andb_true_iff.
  rewrite !bool_decide_eq_true, length_app.
  change (length local_suffix) with 5%nat.
  change (length (cstr ".local")) with 6%nat.
  split; [lia|].
  replace (length hn + 6 - 5)%nat with (length hn + 1)%nat by lia.
  by rewrite drop_app_add.
Qed.

Lemma terminated_fresh n :
  forallb terminated (replicate n (unused_entry cfg)) = true.
Proof. induction n; [done|]. cbn [replicate forallb]. by rewrite IHn. Qed.

Lemma stored_unused : stored_name (unused_entry cfg).
Proof. exists []. repeat split; [cbn [length]; lia|constructor]. Qed.

(** X20. At its start the process asks for the host's own name: with the
    responder, [PROCESS_BEGIN] posts the check of the name; handling it
    queues [hostname.local] in the first entry of the cleared table, as an
    mDNS name; the timer event that follows asks the stack for a poll, and
    the poll sends the question for that name to the mDNS group. Host
    names of up to 26 characters are covered. *)
Theorem own_name_asked_at_start r hn entries server u buf :
  RESOLV_CONF_SUPPORTS_MDNS cfg = true ->
  RESOLV_CONF_MDNS_RESPONDER r = true ->
  cstring (resolv_hostname r) = Ok hn -> (length hn <= 26)%nat ->
  (0 < entries)%nat ->
  let st0 := (resolv_process_begin cfg entries server r).1 in
  let e := queried_entry cfg (hn ++ cstr ".local") 0 (unused_entry cfg) in
  (resolv_process_begin cfg entries server r).2
  = [RESOLV_EVENT_START_COLLISION_CHECK]
  /\ exists st1 st2,
       resolv_process_event cfg uip_is_addr_link_local r
         RESOLV_EVENT_START_COLLISION_CHECK u st0
       = Ok (st1, [emit process_post_timer])
       /\ names st1 = e :: replicate (entries - 1) (unused_entry cfg)
       /\ resolv_process_event cfg uip_is_addr_link_local r
            PROCESS_EVENT_TIMER (polled buf) st1
          = Ok (st1, [tcpip_poll_udp])
       /\ resolv_process_event cfg uip_is_addr_link_local r
            tcpip_event (polled buf) st1
          = Ok (st2,
                [emit etimer_set;
                 emit (uip_udp_packet_sendto
                         (message (query_hdr cfg 0 e)
                            [query_question cfg (hn ++ cstr ".local")] [] [])
                         (resolv_mdns_addr cfg) MDNS_PORT)]).
Proof.
  intros Hm Hr Hh Hlen Hent st0 e.
  subst st0. unfold resolv_process_begin. rewrite Hr. cbn [fst snd]. split; [done|].
  pose proof (cstring_nonzero _ _ Hh) as Hz.
  set (nm := hn ++ cstr ".local") in *.
  assert (Hnz : Forall (fun c => c <> 0) nm).
  { apply Forall_app. split; [done|]. by vm_compute; repeat constructor. }
  assert (Hnl : length nm = (length hn + 6)%nat) by (unfold nm; by rewrite length_app).
  assert (Hlast : last nm <> Some 46).
  { unfold nm. change (cstr ".local") with (cstr ".loca" ++ [108]).
    by rewrite app_assoc, last_snoc. }
  destruct entries as [|n]; [lia|].
  destruct (resolv_query_writes_long cfg (resolv_init cfg (S n) server) nm 1)
    as (i & e0 & sc & He0 & Hf & _ & Hq).
  { intros H. apply (f_equal length) in H. rewrite length_app in H.
    cbn [length replicate] in H. lia. }
  { done. }
  { unfold RESOLV_CONF_MAX_DOMAIN_NAME_SIZE. lia. }
  { unfold RESOLV_CONF_MAX_DOMAIN_NAME_SIZE. lia. }
  { done. }
  { apply terminated_fresh. }
  { done. }
  cbn [resolv_init names g_seqno replicate find_entry unused_entry state] in Hf, He0, Hq.
  revert Hf. run. intros [= <-]. cbn in He0. injection He0 as <-.
  cbn [insert list_insert] in Hq. fold (unused_entry cfg) in Hq.
  replace (nm ++ [46]) with (hn ++ cstr ".local.") in Hq
    by (unfold nm; by rewrite <- app_assoc).
  eexists _, _. cbn [resolv_process_event]. rewrite Hr, Hh. run.
  rewrite Hq. run. cbn [map].
  split; [done|]. cbn [names]. cbn [Nat.sub]; rewrite ?Nat.sub_0_r.
  split; [done|]. split; [done|].
  cbn [polled uip_udp_conn_is_resolv_conn uip_newdata uip_poll]. run.
  destruct (queried_entry_facts cfg nm 0 (unused_entry cfg) stored_unused)
    as (Hs1 & Hn1 & _).
  { unfold RESOLV_CONF_MAX_DOMAIN_NAME_SIZE. lia. }
  pose proof (scan_sends_query cfg
                {| names := e :: replicate n (unused_entry cfg);
                   g_seqno := (0 + 1) mod 256;
                   dns_name_without_dots := sc;
                   resolv_default_dns_server := server |}
                [] e (replicate n (unused_entry cfg)) nm eq_refl eq_refl Hs1) as Hscan.
  cbn [resolv_init resolv_default_dns_server]. fold e. rewrite Hscan; clear Hscan.
  - run. cbn [app map length].
    assert (Hu : uses_mdns cfg e = true).
    { unfold uses_mdns, e, queried_entry. rewrite Hm. cbn.
      apply ends_in_local_own. }
    by rewrite Hu.
  - fold e in Hn1. rewrite Hn1. apply cstring_canonical; [|done].
    unfold RESOLV_CONF_MAX_DOMAIN_NAME_SIZE. lia.
  - eapply Forall_impl; [apply split_dots_length|]. intros l Hl.
    cbn beta in Hl. lia.
Qed.

(** X21. The check of a host name of more than 26 characters leaves the
    scratch array: [hostname.local.] is then longer than the 33 bytes of
    [dns_name_without_dots], and the loop that removes the trailing dot
    starts at the last character of the name, behind the array. *)
Theorem long_hostname_check_leaves_array r hn u st :
  RESOLV_CONF_MDNS_RESPONDER r = true ->
  cstring (resolv_hostname r) = Ok hn -> (26 < length hn)%nat ->
  length (dns_name_without_dots st) = S RESOLV_CONF_MAX_DOMAIN_NAME_SIZE ->
  resolv_process_event cfg uip_is_addr_link_local r
    RESOLV_EVENT_START_COLLISION_CHECK u st
  = Err OutOfBounds.
Proof.
  intros Hr Hh Hlen Hs. cbn [resolv_process_event]. rewrite Hr, Hh. run.
  unfold resolv_query, remove_trailing_dots.
  change (cstr ".local.") with (cstr ".local" ++ [46]).
  rewrite app_assoc, last_snoc. cbn [Z.eqb Pos.eqb].
  set (n := (hn ++ cstr ".local") ++ [46]).
  assert (Hn : length n = S (length hn + 6))
    by (unfold n; rewrite !length_app; cbn [length]; change (length (cstr ".local")) with 6%nat; lia).
  rewrite Hn. cbn [strip_dots].
  assert (Hl : length (strncpy (dns_name_without_dots st) n
                               (S RESOLV_CONF_MAX_DOMAIN_NAME_SIZE))
               = S RESOLV_CONF_MAX_DOMAIN_NAME_SIZE).
  { unfold strncpy. rewrite length_app, length_take, length_drop, length_app,
      length_replicate, Hs. lia. }
  unfold load. rewrite lookup_ge_None_2; [done|].
  rewrite Hl. unfold RESOLV_CONF_MAX_DOMAIN_NAME_SIZE. lia.
Qed.

End Start.
(** ** Asking again *)

Section Again.
Context (cfg : config) (mdns_responder : list Z -> result (list event)).




End Again.

(** * The sample runs *)

(** The states named above are the ones the program reaches. *)
Example queried_reached :
  resolv_query ipv4_config (fresh ipv4_config) (cstr "host.example")
  = Ok (queried ipv4_config, [process_post_timer]).
Proof. reflexivity. Qed.

Example asking_reached :
  check_entries ipv4_config (queried ipv4_config)
  = Ok (asking ipv4_config,
        [etimer_set;
         uip_udp_packet_sendto
           ([240; 176; 1; 0; 0; 1; 0; 0; 0; 0; 0; 0]
              ++ wire_labels [cstr "host"; cstr "example"] ++ [0; 0; 1; 0; 1])
           dns_server DNS_PORT]).
Proof. reflexivity. Qed.

Example two_pending_reached :
  reachable ipv4_config no_responder (two_pending ipv4_config).
Proof.
  pose (s1 := table (entry ipv4_config STATE_NEW 0 0 0 "a.example"
                     :: replicate 3 (unused_entry ipv4_config)) 1).
  pose (s2 := table (entry ipv4_config STATE_ASKING 1 0 0 "a.example"
                     :: replicate 3 (unused_entry ipv4_config)) 1).
  pose (s3 := table (entry ipv4_config STATE_ASKING 1 1 0 "a.example"
                     :: replicate 3 (unused_entry ipv4_config)) 1).
  pose (s4 := table (entry ipv4_config STATE_ASKING 2 2 0 "a.example"
                     :: replicate 3 (unused_entry ipv4_config)) 1).
  apply (reach_query _ _ s4 (cstr "printer.local") _ [process_post_timer]);
    [|reflexivity|reflexivity].
  eapply (reach_tick _ _ s3); [|reflexivity].
  eapply (reach_tick _ _ s2); [|reflexivity].
  eapply (reach_tick _ _ s1); [|reflexivity].
  apply (reach_query _ _ (fresh ipv4_config) (cstr "a.example") _
           [process_post_timer]); [|reflexivity|reflexivity].
  apply reach_init. lia.
Qed.

(** Eight retries for a unicast name take 30 ticks, three for an mDNS
    name take 5. *)
Example unicast_exhausted :
  (exists st ev, ticks ipv4_config 29 (queried ipv4_config) = Ok (st, ev)
     /\ (state <$> names st !! 0%nat) = Some STATE_ASKING
     /\ count_if (is_failure (name_array "host.example")) ev = 0%nat)
  /\ (exists st ev, ticks ipv4_config 30 (queried ipv4_config) = Ok (st, ev)
     /\ (state <$> names st !! 0%nat) = Some STATE_ERROR
     /\ count_if (is_failure (name_array "host.example")) ev = 1%nat
     /\ count_if is_sendto ev = 8%nat).
Proof. split; eexists _, _; (split; [vm_compute; reflexivity|]); by vm_compute. Qed.

(** C8, as written, does not hold for every name: a name of 40
    characters is stored without its NUL, the array of the entry having
    33 bytes, and the search of the second call, which compares with
    [strcmp], leaves the array instead of finding the entry. *)
Lemma long_name_not_found_again :
  exists st1,
    resolv_query ipv4_config (fresh ipv4_config) (replicate 40 97)
    = Ok (st1, [process_post_timer])
    /\ (name <$> names st1 !! 0%nat) = Some (replicate 33 97)
    /\ (state <$> names st1 !! 1%nat) = Some STATE_UNUSED
    /\ resolv_query ipv4_config st1 (replicate 40 97) = Err OutOfBounds.
Proof. eexists. split; [vm_compute; reflexivity|]. by vm_compute. Qed.

(** C10, as written, does not hold for every name that is not
    compressed: the root name has no label, and the loop, which tests for
    the closing zero only after a label, takes the zero byte of the root
    name for a length byte. It overwrites it with a dot and walks on into
    what follows: the cursor ends two bytes behind the start where the
    name is one byte long, a non-zero byte behind the name is taken for
    the next length byte and overwritten, and the text one past the
    cursor is not the empty name. *)
Lemma root_name_walked_too_far :
  parse_name [0; 0; 1; 0; 1] 0 = Ok ([46; 0; 1; 0; 1], 2%nat)
  /\ parse_name [0; 3; 97; 98; 99; 0; 0; 1] 0
     = Ok ([46; 46; 97; 98; 99; 0; 0; 1], 6%nat)
  /\ cstring (drop 1 [46; 46; 97; 98; 99; 0; 0; 1]) = Ok (cstr ".abc").
Proof. by vm_compute. Qed.

(** One top bit is enough for [parse_name] and [newdata] to take a byte
    for a pointer. *)
Example one_top_bit_is_a_pointer :
  skip_name [64; 1; 2; 3] 0 = Ok ([64; 1; 2; 3], 2%nat)
  /\ parse_name [128; 1; 2; 3] 0 = Ok ([0; 1; 2; 3], 2%nat).
Proof. by vm_compute. Qed.


(** C2, the failing run: in an IPv4 build a response whose only answer is
    an A record of class IN carrying four bytes of address leaves the
    entry in STATE_ERROR and announces nothing; the entry is not set to
    STATE_DONE and the address is not copied. *)
Theorem ipv4_address_record_rejected :
  newdata ipv4_config no_responder (asking ipv4_config) a_response
  = Ok (table (set_state STATE_ERROR (entry ipv4_config STATE_ASKING 1 0 0 "host.example")
               :: replicate 3 (unused_entry ipv4_config)) 1,
        []).
Proof. reflexivity. Qed.

(** The IPv6 branch of the same test does what the IPv4 branch misses. *)
Example ipv6_address_record_accepted :
  newdata ipv6_config no_responder (asking ipv6_config) aaaa_response
  = Ok (table (set_ipaddr (a_rdata aaaa_record)
                 (set_state STATE_DONE
                    (entry ipv6_config STATE_ASKING 1 0 0 "host.example"))
               :: replicate 3 (unused_entry ipv6_config)) 1,
        [resolv_found (name_array "host.example") (Some (a_rdata aaaa_record))]).
Proof. reflexivity. Qed.

(** C3, the failing runs: with the loopback interface configured,
    "localhost" is looked up in the table (and not found), while every
    other name, cached or not, gets the loopback address. *)
Theorem localhost_test_inverted :
  resolv_lookup loopback_config (resolved loopback_config) (cstr "localhost")
  = Ok (resolved loopback_config, None)
  /\ resolv_lookup loopback_config (resolved loopback_config) (cstr "example.com")
     = Ok (resolved loopback_config, Some [127; 0; 0; 1])
  /\ resolv_lookup loopback_config (resolved loopback_config) (cstr "host.example")
     = Ok (resolved loopback_config, Some [127; 0; 0; 1])
  /\ resolv_lookup ipv4_config (resolved ipv4_config) (cstr "host.example")
     = Ok (resolved ipv4_config, Some [192; 0; 2; 1]).
Proof. by vm_compute. Qed.

(** C4, the failing run: a table of four entries, 258 queries for
    distinct names. After the first 257 the entries hold the names
    numbered 256, 253, 254, 255 with sequence numbers 0, 253, 254, 255,
    and the counter is 1. The next query overwrites the entry of name
    256, the youngest, whose age 1 - 0 is the only positive one; the
    oldest entry, name 253, stays. *)
Theorem newest_entry_evicted_after_wraparound :
  exists st st',
    queries ipv4_config (hosts 0 257) (fresh ipv4_config) = Ok st
    /\ slots st = [(Ok (host_number 256), 0); (Ok (host_number 253), 253);
                  (Ok (host_number 254), 254); (Ok (host_number 255), 255)]
    /\ g_seqno st = 1
    /\ queries ipv4_config [host_number 257] st = Ok st'
    /\ slots st' = [(Ok (host_number 257), 1); (Ok (host_number 253), 253);
                   (Ok (host_number 254), 254); (Ok (host_number 255), 255)].
Proof.
  eexists _, _. split; [vm_compute; reflexivity|].
  split; [by vm_compute|]. split; [by vm_compute|].
  split; [vm_compute; reflexivity|]. by vm_compute.
Qed.

(** C5, as written, does not hold: 61872 is not the id of any of the four
    entries, yet a response carrying it is taken for entry 0, which it
    sets to STATE_ERROR and announces as failed. *)
Lemma foreign_id_accepted :
  (forall i, (i < 4)%nat -> RESOLV_ENCODE_INDEX (Z.of_nat i) <> 61872)
  /\ load16 foreign_response 0 = Ok 61872
  /\ newdata ipv4_config no_responder (asking ipv4_config) foreign_response
     = Ok (table (set_err 3 (set_state STATE_ERROR
                     (entry ipv4_config STATE_ASKING 1 0 0 "host.example"))
                  :: replicate 3 (unused_entry ipv4_config)) 1,
           [resolv_found (name_array "host.example") None]).
Proof.
  split; [|by vm_compute].
  intros i Hi. unfold RESOLV_ENCODE_INDEX. rewrite Z.mod_small by lia. lia.
Qed.

(** C7, as written, does not hold: the scan decrements the timer of entry
    0, the first pending entry, goes on, and sends the question of
    entry 1. *)
Lemma scan_goes_past_waiting_entry :
  check_entries ipv4_config (two_pending ipv4_config)
  = Ok two_pending_scanned
  /\ (pending <$> names (two_pending ipv4_config) !! 0%nat) = Some true
  /\ names (fst two_pending_scanned) !! 0%nat
     = Some (entry ipv4_config STATE_ASKING 1 2 0 "a.example")
  /\ names (fst two_pending_scanned) !! 1%nat
     = Some (mdns_entry ipv4_config STATE_ASKING 1 0 1 "printer.local")
  /\ count_if is_sendto (snd two_pending_scanned) = 1%nat.
Proof. by vm_compute. Qed.

(** * The statements at sample inputs *)

Lemma host_labels_ok : Forall label_ok [cstr "host"; cstr "example"].
Proof.
  apply Forall_cons_2; [split; [discriminate|vm_compute; lia]|].
  apply Forall_cons_2; [split; [discriminate|vm_compute; lia]|apply Forall_nil_2].
Qed.

Lemma host_question_ok qtype : question_ok (host_question qtype).
Proof.
  split; [|reflexivity]. split; [apply host_labels_ok|discriminate].
Qed.

Lemma pointer_record_ok a :
  a_name a = {| labels := []; pointer := Some (192, 12) |} ->
  length (a_ttl a) = 4%nat -> answer_ok a.
Proof.
  intros Hn Ht. split; [|done]. rewrite Hn. split; cbn; [constructor|].
  discriminate.
Qed.


Lemma unmatched_response_discarded_witness :
  newdata ipv4_config no_responder (asking ipv4_config) stray_response
  = Ok (asking ipv4_config, []).
Proof.
  apply (unmatched_response_discarded ipv4_config no_responder
           (asking ipv4_config) stray_response 61623 129 128 1 1).
  - reflexivity.
  - reflexivity.
  - reflexivity.
  - reflexivity.
  - reflexivity.
  - intros [H _]. discriminate H.
  - left. vm_compute. lia.
Defined.

Lemma retries_exhausted_witness :
  (exists T, forall t, exists st' ev e',
    ticks ipv4_config t (queried ipv4_config) = Ok (st', ev)
    /\ names st' !! 0%nat = Some e'
    /\ ((t < T)%nat ->
        pending e' = true
        /\ count_if (is_failure (name_array "host.example")) ev = O)
    /\ ((T <= t)%nat ->
        state e' = STATE_ERROR
        /\ retries e' = 8
        /\ count_if (is_failure (name_array "host.example")) ev = 1%nat
        /\ count_if (is_query_of 0) ev = 8%nat))
  /\ (exists T, forall t, exists st' ev e',
    ticks ipv4_config t (two_pending ipv4_config) = Ok (st', ev)
    /\ names st' !! 1%nat = Some e'
    /\ ((t < T)%nat ->
        pending e' = true
        /\ count_if (is_failure (name_array "printer.local")) ev = O)
    /\ ((T <= t)%nat ->
        state e' = STATE_ERROR
        /\ retries e' = 3
        /\ count_if (is_failure (name_array "printer.local")) ev = 1%nat
        /\ count_if (is_query_of 1) ev = 3%nat)).
Proof.
  split.
  - apply (retries_exhausted ipv4_config no_responder (queried ipv4_config)
             0%nat (entry ipv4_config STATE_NEW 0 0 0 "host.example")).
    + reflexivity.
    + apply (reach_query _ _ (fresh ipv4_config) (cstr "host.example") _
               [process_post_timer]); [|reflexivity|reflexivity].
      apply reach_init. lia.
    + reflexivity.
    + reflexivity.
  - apply (retries_exhausted ipv4_config no_responder (two_pending ipv4_config)
             1%nat (mdns_entry ipv4_config STATE_NEW 0 0 1 "printer.local")).
    + reflexivity.
    + exact two_pending_reached.
    + reflexivity.
    + reflexivity.
Defined.

Lemma one_query_per_scan_witness :
  let st := two_pending ipv4_config in
  let st' := fst two_pending_scanned in
  let ev := snd two_pending_scanned in
  (count_if is_sendto ev <= 1)%nat
  /\ length (names st') = length (names st)
  /\ (forall k e, names st !! k = Some e -> sends_query ipv4_config e = true ->
        forall j, (k < j)%nat -> names st' !! j = names st !! j)
  /\ (forall k e, names st !! k = Some e ->
        no_sender_before ipv4_config (names st) k ->
        state e = STATE_ASKING -> (tmr e - 1) mod 256 <> 0 ->
        names st' !! k = Some (set_tmr ((tmr e - 1) mod 256) e))
  /\ (forall k e, names st !! k = Some e ->
        no_sender_before ipv4_config (names st) k ->
        state e = STATE_ASKING -> (tmr e - 1) mod 256 = 0 ->
        (retries e + 1) mod 256 = max_retries ipv4_config e ->
        names st' !! k
        = Some (set_state STATE_ERROR
                  (set_retries ((retries e + 1) mod 256) (set_tmr 0 e)))
        /\ (1 <= count_if (is_failure (name e)) ev)%nat)
  /\ (forall k e, names st !! k = Some e ->
        no_sender_before ipv4_config (names st) k ->
        sends_query ipv4_config e = true ->
        count_if is_sendto ev = 1%nat
        /\ exists e', names st' !! k = Some e' /\ state e' = STATE_ASKING
                      /\ tmr e' = (if decide (state e = STATE_NEW) then 1
                                   else (retries e + 1) mod 256)
                      /\ retries e' = (if decide (state e = STATE_NEW) then 0
                                       else (retries e + 1) mod 256)).
Proof.
  apply (one_query_per_scan ipv4_config (two_pending ipv4_config)
           (fst two_pending_scanned) (snd two_pending_scanned)).
  vm_compute. reflexivity.
Defined.


Lemma pointer_skipped_in_two_bytes_witness :
  let pre := hdr_bytes (response_hdr 61616 128 1) in
  let post := [12; 0; 1; 0; 1] in
  parse_name (pre ++ wire_labels [cstr "www"] ++ 192 :: post) (length pre)
  = Ok (pre ++ dotted [cstr "www"] ++ 0 :: post,
        (length pre + length (wire_labels [cstr "www"]) + 2)%nat)
  /\ skip_name (pre ++ wire_labels [cstr "www"] ++ 192 :: post) (length pre)
     = Ok (pre ++ dotted [cstr "www"] ++ 0 :: post,
           (length pre + length (wire_labels [cstr "www"]) + 2)%nat)
  /\ skip_name (pre ++ 192 :: post) (length pre)
     = Ok (pre ++ 192 :: post, (length pre + 2)%nat).
Proof.
  apply (pointer_skipped_in_two_bytes [cstr "www"] 192
           (hdr_bytes (response_hdr 61616 128 1)) [12; 0; 1; 0; 1]).
  - apply Forall_cons_2; [split; [discriminate|vm_compute; lia]|apply Forall_nil_2].
  - reflexivity.
Defined.


(** ** The further properties at sample inputs *)

Lemma asking_reachable :
  reachable ipv6_config no_responder (asking ipv6_config).
Proof.
  apply (reach_tick _ _ (queried ipv6_config) _
           (match check_entries ipv6_config (queried ipv6_config) with
            | Ok r => snd r | Err _ => [] end)); [|reflexivity].
  apply (reach_query _ _ (fresh ipv6_config) (cstr "host.example") _
           [process_post_timer]); [|reflexivity|reflexivity].
  apply reach_init. lia.
Qed.

Lemma found_reachable : reachable ipv6_config no_responder (found ipv6_config).
Proof.
  apply (reach_data _ _ (asking ipv6_config) aaaa_response _
           [resolv_found (name_array "host.example") (Some (a_rdata aaaa_record))]);
    [apply asking_reachable|reflexivity].
Qed.

Lemma encode_name_wire_witness :
  length (encode_name (cstr "host.example")) = 14%nat
  /\ encode_name (cstr "host.example")
     = wire_labels [cstr "host"; cstr "example"] ++ [0].
Proof.
  destruct (encode_name_wire (cstr "host.example")) as [H1 H2].
  split; [exact H1|]. apply H2. vm_compute. forall_list; lia.
Defined.

Lemma parse_name_encode_name_witness :
  parse_name ([1; 2] ++ encode_name (cstr "host.example") ++ [0; 1; 0; 1]) 2
  = Ok ([1; 2] ++ 46 :: cstr "host.example" ++ 0 :: [0; 1; 0; 1], 16%nat)
  /\ cstring (drop 3 ([1; 2] ++ 46 :: cstr "host.example" ++ 0 :: [0; 1; 0; 1]))
     = Ok (cstr "host.example").
Proof.
  apply (parse_name_encode_name (cstr "host.example") [1; 2] [0; 1; 0; 1]).
  - vm_compute. forall_list; (split; [discriminate|lia]).
  - vm_compute. forall_list; discriminate.
Defined.

Lemma check_entries_quiet_witness :
  check_entries ipv4_config (resolved ipv4_config)
  = Ok (resolved ipv4_config, []).
Proof. apply (check_entries_quiet ipv4_config (resolved ipv4_config)). reflexivity. Defined.

Lemma check_entries_frame_witness :
  Forall2 scanned (names (two_pending ipv4_config))
          (names (fst two_pending_scanned))
  /\ forallb scan_event (snd two_pending_scanned) = true
  /\ g_seqno (fst two_pending_scanned) = g_seqno (two_pending ipv4_config)
  /\ resolv_default_dns_server (fst two_pending_scanned)
     = resolv_default_dns_server (two_pending ipv4_config)
  /\ dns_name_without_dots (fst two_pending_scanned)
     = dns_name_without_dots (two_pending ipv4_config).
Proof.
  apply (check_entries_frame ipv4_config (two_pending ipv4_config)
           (fst two_pending_scanned) (snd two_pending_scanned)).
  reflexivity.
Defined.

Lemma lone_entry_fails_on_time_witness :
  exists st' ev e',
    ticks ipv4_config 30 (queried ipv4_config) = Ok (st', ev)
    /\ names st' = [] ++ e' :: replicate 3 (unused_entry ipv4_config)
    /\ ((30 < 30)%nat ->
        pending e' = true
        /\ count_if (is_failure (name_array "host.example")) ev = O)
    /\ ((30 <= 30)%nat ->
        state e' = STATE_ERROR
        /\ count_if (is_failure (name_array "host.example")) ev = 1%nat
        /\ count_if (is_query_of 0) ev = 8%nat).
Proof.
  apply (lone_entry_fails_on_time ipv4_config (queried ipv4_config) []
           (entry ipv4_config STATE_NEW 0 0 0 "host.example")
           (replicate 3 (unused_entry ipv4_config)) 30).
  - reflexivity.
  - reflexivity.
  - cbn [length]. lia.
  - reflexivity.
  - reflexivity.
  - reflexivity.
  - reflexivity.
Defined.

Lemma first_scan_sends_query_witness :
  check_entries ipv4_config (queried ipv4_config)
  = Ok (with_names (queried ipv4_config)
          ([] ++ set_retries 0 (set_tmr 1 (set_state STATE_ASKING
                   (entry ipv4_config STATE_NEW 0 0 0 "host.example")))
              :: replicate 3 (unused_entry ipv4_config)),
        [etimer_set;
         uip_udp_packet_sendto
           (message (query_hdr ipv4_config 0
                       (entry ipv4_config STATE_NEW 0 0 0 "host.example"))
                    [query_question ipv4_config (cstr "host.example")] [] [])
           dns_server DNS_PORT]).
Proof.
  apply (first_scan_sends_query ipv4_config (queried ipv4_config) []
           (entry ipv4_config STATE_NEW 0 0 0 "host.example")
           (replicate 3 (unused_entry ipv4_config)) (cstr "host.example")).
  - reflexivity.
  - reflexivity.
  - reflexivity.
  - reflexivity.
  - vm_compute. forall_list; lia.
Defined.

Lemma response_with_error_code_witness :
  newdata ipv4_config no_responder (asking ipv4_config) foreign_response
  = Ok (with_names (asking ipv4_config)
          (<[0%nat:=set_err (Z.land 131 DNS_FLAG2_ERR_MASK)
                 (set_state STATE_ERROR
                    (entry ipv4_config STATE_ASKING 1 0 0 "host.example"))]>
             (names (asking ipv4_config))),
        [resolv_found (name_array "host.example") None]).
Proof.
  apply (response_with_error_code ipv4_config no_responder (asking ipv4_config)
           foreign_response 61872 129 131 1 1 0%nat
           (entry ipv4_config STATE_ASKING 1 0 0 "host.example")).
  - reflexivity.
  - reflexivity.
  - reflexivity.
  - reflexivity.
  - reflexivity.
  - intros [H _]. discriminate H.
  - reflexivity.
  - reflexivity.
  - reflexivity.
  - discriminate.
  - discriminate.
Defined.

Lemma cname_record_ok : answer_ok cname_record.
Proof. by apply pointer_record_ok. Qed.

Lemma aaaa_record_ok : answer_ok aaaa_record.
Proof. by apply pointer_record_ok. Qed.

Lemma response_without_address_witness :
  newdata ipv6_config no_responder (asking ipv6_config) cname_response
  = Ok (with_names (asking ipv6_config)
          (<[0%nat:=set_err 0 (set_state STATE_ERROR
                 (entry ipv6_config STATE_ASKING 1 0 0 "host.example"))]>
             (names (asking ipv6_config))), []).
Proof.
  apply (response_without_address ipv6_config no_responder (asking ipv6_config)
           (response_hdr 61616 128 1) [host_question 1] [cname_record] []
           0%nat (entry ipv6_config STATE_ASKING 1 0 0 "host.example")).
  - intros [H _]. discriminate H.
  - forall_list. apply host_question_ok.
  - forall_list. apply cname_record_ok.
  - reflexivity.
  - reflexivity.
  - reflexivity.
  - reflexivity.
  - reflexivity.
  - discriminate.
  - reflexivity.
  - forall_list. reflexivity.
Defined.

Lemma response_frame_witness :
  Forall2 answered (names (asking ipv6_config)) (names (found ipv6_config))
  /\ (forall id j, load16 aaaa_response 0 = Ok id ->
        j <> Z.to_nat (RESOLV_DECODE_INDEX id) ->
        names (found ipv6_config) !! j = names (asking ipv6_config) !! j)
  /\ ([resolv_found (name_array "host.example") (Some (a_rdata aaaa_record))] = []
      \/ exists id e r, load16 aaaa_response 0 = Ok id
           /\ names (asking ipv6_config) !! Z.to_nat (RESOLV_DECODE_INDEX id) = Some e
           /\ [resolv_found (name_array "host.example") (Some (a_rdata aaaa_record))]
              = [resolv_found (name e) r])
  /\ g_seqno (found ipv6_config) = g_seqno (asking ipv6_config)
  /\ resolv_default_dns_server (found ipv6_config)
     = resolv_default_dns_server (asking ipv6_config)
  /\ dns_name_without_dots (found ipv6_config)
     = dns_name_without_dots (asking ipv6_config).
Proof.
  apply (response_frame ipv6_config no_responder (asking ipv6_config)
           aaaa_response 129 128).
  - reflexivity.
  - reflexivity.
  - intros [H _]. discriminate H.
  - reflexivity.
Defined.

Lemma settled_entry_stays_witness :
  names (found ipv6_config) !! 0%nat
  = Some (set_ipaddr (a_rdata aaaa_record)
            (set_state STATE_DONE
               (entry ipv6_config STATE_ASKING 1 0 0 "host.example"))).
Proof.
  apply (settled_entry_stays ipv6_config no_responder (found ipv6_config)
           (found ipv6_config) 0%nat).
  - apply (driver_tick _ _ _ (found ipv6_config) []); [reflexivity|].
    apply (driver_data _ _ _ cname_response (found ipv6_config) []); [reflexivity|].
    apply driver_refl.
  - reflexivity.
  - reflexivity.
Defined.

Lemma trailing_dots_ignored_witness :
  exists st1 st2 ev s1 s2 r,
    resolv_query ipv4_config (fresh ipv4_config) (cstr "host.example")
    = Ok (st1, ev)
    /\ resolv_query ipv4_config (fresh ipv4_config)
         (cstr "host.example" ++ replicate 2 46) = Ok (st2, ev)
    /\ names st2 = names st1 /\ g_seqno st2 = g_seqno st1
    /\ resolv_lookup ipv4_config (fresh ipv4_config) (cstr "host.example")
       = Ok (s1, r)
    /\ resolv_lookup ipv4_config (fresh ipv4_config)
         (cstr "host.example" ++ replicate 2 46) = Ok (s2, r).
Proof.
  apply (trailing_dots_ignored ipv4_config (fresh ipv4_config)
           (cstr "host.example") 2).
  - reflexivity.
  - discriminate.
  - discriminate.
  - reflexivity.
  - discriminate.
Defined.

Lemma query_forgets_address_witness :
  exists st1,
    resolv_lookup ipv6_config (found ipv6_config) (cstr "host.example")
    = Ok (found ipv6_config, Some (a_rdata aaaa_record))
    /\ resolv_query ipv6_config (found ipv6_config) (cstr "host.example" ++ [46])
       = Ok (st1, [process_post_timer])
    /\ resolv_lookup ipv6_config st1 (cstr "host.example") = Ok (st1, None).
Proof.
  eexists. split; [reflexivity|]. split; [reflexivity|].
  apply (query_forgets_address ipv6_config no_responder (found ipv6_config)
           (cstr "host.example") 1 _ [process_post_timer]).
  - reflexivity.
  - apply found_reachable.
  - reflexivity.
  - reflexivity.
  - discriminate.
  - discriminate.
  - reflexivity.
Defined.

Lemma resolved_name_is_found_witness :
  exists st1,
    newdata ipv6_config no_responder (asking ipv6_config) aaaa_response
    = Ok (st1, [resolv_found (name_array "host.example")
                  (Some (a_rdata aaaa_record))])
    /\ forall st2, driver_steps ipv6_config no_responder st1 st2 ->
         resolv_lookup ipv6_config st2 (cstr "host.example")
         = Ok (st2, Some (a_rdata aaaa_record)).
Proof.
  apply (resolved_name_is_found ipv6_config no_responder (asking ipv6_config)
           (response_hdr 61616 128 2) [host_question 28] [cname_record]
           aaaa_record [] [] 0%nat
           (entry ipv6_config STATE_ASKING 1 0 0 "host.example")
           (cstr "host.example")).
  - reflexivity.
  - apply asking_reachable.
  - reflexivity.
  - reflexivity.
  - intros [H _]. discriminate H.
  - forall_list. apply host_question_ok.
  - forall_list; [apply cname_record_ok|apply aaaa_record_ok].
  - reflexivity.
  - reflexivity.
  - reflexivity.
  - reflexivity.
  - reflexivity.
  - reflexivity.
  - forall_list. reflexivity.
  - reflexivity.
  - reflexivity.
  - reflexivity.
  - reflexivity.
  - discriminate.
  - discriminate.
Defined.

Lemma encode_name_restores_datagram_witness :
  exists buf,
    parse_name ([1; 2] ++ wire_labels [cstr "host"; cstr "example"]
                ++ 0 :: [0; 1; 0; 1]) 2
    = Ok (buf, 16%nat)
    /\ cstring (drop 3 buf) = Ok (cstr "host.example")
    /\ encode_name_at buf 2 3
       = Ok ([1; 2] ++ wire_labels [cstr "host"; cstr "example"]
             ++ 0 :: [0; 1; 0; 1], 16%nat).
Proof.
  apply (encode_name_restores_datagram [cstr "host"; cstr "example"] [1; 2]
           [0; 1; 0; 1]).
  - discriminate.
  - vm_compute. forall_list; (split; [discriminate|lia]).
  - vm_compute. forall_list; (split; discriminate).
Defined.

Lemma request_answered_witness :
  newdata ipv4_config (answer_request ipv4_config is_link_local host)
    (fresh ipv4_config)
    (hdr_bytes request_hdr
     ++ question_bytes (plain_question [cstr "Contiki"; cstr "local"] 1 32769)
     ++ [])
  = Ok (fresh ipv4_config,
        [uip_udp_packet_sendto
           (message (answer_hdr request_hdr 1) []
              [own_answer ipv4_config
                 {| labels := [cstr "Contiki"; cstr "local"]; pointer := None |}
                 [192; 168; 1; 2]] [])
           (resolv_mdns_addr ipv4_config) MDNS_PORT]).
Proof.
  apply (request_answered ipv4_config is_link_local (fresh ipv4_config)
           host request_hdr (cstr "contiki") [cstr "Contiki"; cstr "local"]
           1 32769 []).
  - reflexivity.
  - reflexivity.
  - reflexivity.
  - reflexivity.
  - discriminate.
  - reflexivity.
  - split; [discriminate|].
    split; vm_compute; forall_list; (split; [discriminate|first [lia|discriminate]]).
  - reflexivity.
  - split; reflexivity.
  - reflexivity.
  - vm_compute. lia.
Defined.


Lemma request_answered_ipv6_witness :
  newdata ipv6_config (answer_request ipv6_config is_link_local host)
    (fresh ipv6_config)
    (hdr_bytes request_hdr
     ++ question_bytes (plain_question [cstr "contiki"; cstr "local"] 255 1)
     ++ [])
  = Ok (fresh ipv6_config,
        [uip_udp_packet_sendto
           (message (answer_hdr request_hdr 2) []
              (own_answers ipv6_config [cstr "contiki"; cstr "local"]
                 [link_local_address 1; link_local_address 3]) [])
           (resolv_mdns_addr ipv6_config) MDNS_PORT]).
Proof.
  apply (request_answered_ipv6 ipv6_config is_link_local
           (fresh ipv6_config) host request_hdr (cstr "contiki")
           [cstr "contiki"; cstr "local"] 255 1 []).
  - reflexivity.
  - reflexivity.
  - reflexivity.
  - reflexivity.
  - discriminate.
  - reflexivity.
  - split; [discriminate|].
    split; vm_compute; forall_list; (split; [discriminate|first [lia|discriminate]]).
  - reflexivity.
  - split; reflexivity.
  - reflexivity.
  - vm_compute. forall_list; reflexivity.
  - vm_compute. lia.
Defined.

Lemma own_answer_resolves_witness :
  exists answer,
    newdata ipv6_config (answer_request ipv6_config is_link_local host)
      (fresh ipv6_config)
      (message (query_hdr ipv6_config 0
                  (mdns_entry ipv6_config STATE_ASKING 1 0 0 "contiki.local"))
         [query_question ipv6_config (cstr "contiki.local")] [] [])
    = Ok (fresh ipv6_config,
          [uip_udp_packet_sendto answer (resolv_mdns_addr ipv6_config)
             MDNS_PORT])
    /\ newdata ipv6_config no_responder (asking_own ipv6_config) answer
       = Ok (with_names (asking_own ipv6_config)
               (<[0%nat:=set_ipaddr (link_local_address 1)
                      (set_state STATE_DONE
                         (set_err 0
                            (set_state STATE_ERROR
                               (mdns_entry ipv6_config STATE_ASKING 1 0 0
                                  "contiki.local"))))]>
                  (names (asking_own ipv6_config))),
             [resolv_found (name_array "contiki.local")
                (Some (link_local_address 1))]).
Proof.
  apply (own_answer_resolves ipv6_config is_link_local no_responder
           (asking_own ipv6_config) 0%nat
           (mdns_entry ipv6_config STATE_ASKING 1 0 0 "contiki.local")
           (cstr "contiki.local") (fresh ipv6_config) host (cstr "contiki")
           (link_local_address 1) [link_local_address 3]).
  - reflexivity.
  - reflexivity.
  - reflexivity.
  - lia.
  - reflexivity.
  - reflexivity.
  - vm_compute. forall_list; (split; [discriminate|lia]).
  - reflexivity.
  - reflexivity.
  - reflexivity.
  - reflexivity.
  - forall_list; reflexivity.
  - cbn [length]. lia.
  - vm_compute. lia.
Defined.

Lemma hostname_is_last_set_witness :
  cstring (resolv_get_hostname
             (set_hostnames host [cstr "sensor"; cstr "gateway"]))
  = Ok (cstr "gateway")
  /\ forall h,
       (resolv_set_hostname
          (set_hostnames host [cstr "sensor"; cstr "gateway"]) h).2
       = [RESOLV_EVENT_START_COLLISION_CHECK].
Proof.
  apply (hostname_is_last_set host [cstr "sensor"; cstr "gateway"]).
  - reflexivity.
  - vm_compute. forall_list; discriminate.
Defined.

Lemma own_name_asked_at_start_witness :
  (resolv_process_begin ipv4_config 4 dns_server host).2
  = [RESOLV_EVENT_START_COLLISION_CHECK]
  /\ exists st1 st2,
       resolv_process_event ipv4_config is_link_local host
         RESOLV_EVENT_START_COLLISION_CHECK (polled [])
         (resolv_process_begin ipv4_config 4 dns_server host).1
       = Ok (st1, [emit process_post_timer])
       /\ names st1
          = queried_entry ipv4_config (cstr "contiki" ++ cstr ".local") 0
              (unused_entry ipv4_config)
            :: replicate (4 - 1) (unused_entry ipv4_config)
       /\ resolv_process_event ipv4_config is_link_local host
            PROCESS_EVENT_TIMER (polled []) st1
          = Ok (st1, [tcpip_poll_udp])
       /\ resolv_process_event ipv4_config is_link_local host
            tcpip_event (polled []) st1
          = Ok (st2,
                [emit etimer_set;
                 emit (uip_udp_packet_sendto
                         (message
                            (query_hdr ipv4_config 0
                               (queried_entry ipv4_config
                                  (cstr "contiki" ++ cstr ".local") 0
                                  (unused_entry ipv4_config)))
                            [query_question ipv4_config
                               (cstr "contiki" ++ cstr ".local")] [] [])
                         (resolv_mdns_addr ipv4_config) MDNS_PORT)]).
Proof.
  apply (own_name_asked_at_start ipv4_config is_link_local host
           (cstr "contiki") 4 dns_server (polled []) []).
  - reflexivity.
  - reflexivity.
  - reflexivity.
  - cbn [length cstr]. vm_compute. lia.
  - lia.
Defined.

Lemma long_hostname_check_leaves_array_witness :
  resolv_process_event ipv4_config is_link_local long_named_host
    RESOLV_EVENT_START_COLLISION_CHECK (polled []) (fresh ipv4_config)
  = Err OutOfBounds.
Proof.
  apply (long_hostname_check_leaves_array ipv4_config is_link_local
           long_named_host (cstr "abcdefghijklmnopqrstuvwxyz0") (polled [])
           (fresh ipv4_config)).
  - reflexivity.
  - reflexivity.
  - vm_compute. lia.
  - reflexivity.
Defined.
